(** * Plastron: reputation-driven admission control

    A shallow embedding of [plastron.js], the Express middleware of the
    plastron repository, and the properties of its admission engine.

    Two builds of the module are in the repository.  The current one (the
    second document of [README.md]; it has the fields of [src/types.ts])
    keeps global minute counters and a counter of 429 answers;
    [dist/plastron.js] is an older build without them.  The functions
    [getClientIp], [updateTimeWindows], [calculateCurrentReqPerSec],
    [calculate10SecReqPerSec], [findEvictableIndex], [addIpToMonitoring],
    [calculateSlowdown], [calculateMaxConnections], [calculatePoints] and
    [checkExcessiveUsage] are the same in both, logging apart.  The
    definitions below follow the current build; [Module Dist] holds what the
    older build does differently, and [forget_middleware] relates the two.

    Numbers.  The engine's numbers are JavaScript numbers.  Timestamps,
    counters, scores and thresholds are modelled as [Z], quotients as exact
    rationals [Q]: rounding of doubles is not modelled.  [Math.ceil],
    [Math.floor], [Math.max] and [Math.min] are [Qceiling], [Qfloor],
    [Z.max]/[Qmax] and [Qmin].  A quotient that is no binary fraction is
    rounded by the code in its last place, which the rational is not; this
    can show where such a quotient meets [Math.floor] or a comparison:
    - [calculateMaxConnections]: at a score of -420000 under the default
      thresholds the code computes [floor(10 * (1 - 0.8))] as
      [floor(1.9999999999999996) = 1], the rational formula gives 2;
    - [calculateSlowdown]: the delay can differ in its last place;
    - [calculateCurrentReqPerSec]: when more than a second has passed since
      [prevSecStartMs] and the rational rate equals the limit, the code's
      rate can lie just below it.
    Quotients of whole numbers by 10, 60, 1000 and 60000 that are compared
    with whole numbers, or rounded up, come out the same in both for
    numbers of the size of timestamps and counters.

    Objects.  [ipData] is a [Map] from address to a mutable [IpData] object,
    and the completion hook of a request keeps a reference to the object the
    request was admitted with, also after the address has been evicted.
    Objects live in a store ([heap]); the map and the hooks hold positions
    in it.

    Randomness.  [Math.random()] is an input: the k-th call made inside one
    operation returns [rnd k], a rational of the interval [0, 1).

    Time.  [opts.nowFn()] is an input: each operation receives the clock
    reading it took.

    Left out: logging through [opts.logger], the rendering of the [reason]
    text of the debug mode, the timer that delays [processRequest], and the
    registration of the summary function in [globalThis.happyServerExtension]. *)

From stdpp Require Import base option list gmap strings.
From Stdlib Require Import ZArith QArith Qround Qminmax Lia Lqa.

Open Scope Z_scope.

(** ** Configuration *)

(** [PlastronOptions] after the defaults have been merged in
    ([createPlastron]: [{...defaultOptions, ...userOptions}]).
    [new Array(ipMonitorSize)] only accepts a natural number. *)
Record Options := {
  ipMonitorSize : nat;
  maxRequestRatePerSec : Z;
  maxRequestNegativeIPperSec : Z;
  maxSimultanousConnectionsPerIP : Z;
  maxSimultanousConnectionsNegativePerIP : Z;
  maxReqPerSecPerIP : Z;
  maxReqNegativePerSecPerIP : Z;
  rateLimitMessage : string;
  ipSlowDownStartsAt : Z;
  ipSlowDownMaxS : Z;
  ipSlowDownMaxPunishmentAt : Z;
  excessiveReqPerS : Z;
  excessiveReqPerMin : Z;
  pointsForExcessiveRequest : Z;
  pointsFor20x : Z;
  pointsFor30x : Z;
  pointsFor400 : Z;
  pointsFor401 : Z;
  pointsFor404 : Z;
  pointsFor40x : Z;
  pointsFor50x : Z;
  enableDebug : bool
}.

(** [defaultOptions], completed with the required message. *)
Definition defaultOptions (msg : string) : Options := {|
  ipMonitorSize := 1000;
  maxRequestRatePerSec := 0;
  maxRequestNegativeIPperSec := 0;
  maxSimultanousConnectionsPerIP := 25;
  maxSimultanousConnectionsNegativePerIP := 10;
  maxReqPerSecPerIP := 30;
  maxReqNegativePerSecPerIP := 10;
  rateLimitMessage := msg;
  ipSlowDownStartsAt := -100000;
  ipSlowDownMaxS := 5000;
  ipSlowDownMaxPunishmentAt := -500000;
  excessiveReqPerS := 50;
  excessiveReqPerMin := 200;
  pointsForExcessiveRequest := -100;
  pointsFor20x := 1;
  pointsFor30x := 0;
  pointsFor400 := -10000;
  pointsFor401 := -10000;
  pointsFor404 := -100;
  pointsFor40x := -10;
  pointsFor50x := -20;
  enableDebug := false
|}.

(** ** Numbers *)

(** [a >= b] and [a > b] between a quotient and a threshold. *)
Definition Qgeb (a b : Q) : bool := Qle_bool b a.
Definition Qgtb (a b : Q) : bool := negb (Qle_bool a b).

(** [Math.ceil(t / period)]: the window a timestamp falls in. *)
Definition boundary (period t : Z) : Z :=
  Qceiling (inject_Z t / inject_Z period).

(** ** Punishment curve *)

(** The ratio shared by [calculateSlowdown] and [calculateMaxConnections],
    computed once [points < ipSlowDownStartsAt] is known:
    [Math.min(1, position / range)].  With [range = 0] the quotient of the
    (then positive) position is [Infinity] and the minimum is 1. *)
Definition slowdownRatio (points : Z) (o : Options) : Q :=
  let range := ipSlowDownStartsAt o - ipSlowDownMaxPunishmentAt o in
  let position := Z.max 0 (ipSlowDownStartsAt o - points) in
  if range =? 0 then 1%Q
  else Qmin 1 (inject_Z position / inject_Z range).

Definition calculateSlowdown (points : Z) (o : Options) : Q :=
  if points >=? ipSlowDownStartsAt o then 0%Q
  else Qmax 100 (slowdownRatio points o * inject_Z (ipSlowDownMaxS o)).

Definition calculateMaxConnections (points : Z) (o : Options) : Z :=
  let baseMax := if points >=? 0 then maxSimultanousConnectionsPerIP o
                 else maxSimultanousConnectionsNegativePerIP o in
  if points >=? ipSlowDownStartsAt o then baseMax
  else Z.max 1 (Qfloor (inject_Z baseMax * (1 - slowdownRatio points o))).

(** ** Scoring *)

Definition calculatePoints (statusCode : Z) (o : Options) : Z :=
  if (statusCode >=? 200) && (statusCode <? 300) then pointsFor20x o
  else if (statusCode >=? 300) && (statusCode <? 400) then pointsFor30x o
  else if statusCode =? 400 then pointsFor400 o
  else if statusCode =? 401 then pointsFor401 o
  else if statusCode =? 404 then pointsFor404 o
  else if (statusCode >=? 400) && (statusCode <? 500) then pointsFor40x o
  else if (statusCode >=? 500) && (statusCode <? 600) then pointsFor50x o
  else 0.

(** ** Per-address records *)

(** [IpData] of [src/types.ts]. *)
Record IpData := {
  ip : string;
  index : nat;
  lastSeenMs : Z;
  points : Z;
  connections : Z;
  reqInCurrentMin : Z;
  reqInPrevMin : Z;
  reqInCurrent10Sec : Z;
  reqInPrev10Sec : Z
}.

#[global] Instance IpData_inhabited : Inhabited IpData :=
  populate {| ip := EmptyString; index := 0; lastSeenMs := 0; points := 0;
              connections := 0; reqInCurrentMin := 0; reqInPrevMin := 0;
              reqInCurrent10Sec := 0; reqInPrev10Sec := 0 |}.

(** Field assignments. *)
Definition set_lastSeenMs (v : Z) (d : IpData) : IpData :=
  {| ip := ip d; index := index d; lastSeenMs := v; points := points d;
     connections := connections d; reqInCurrentMin := reqInCurrentMin d;
     reqInPrevMin := reqInPrevMin d; reqInCurrent10Sec := reqInCurrent10Sec d;
     reqInPrev10Sec := reqInPrev10Sec d |}.

Definition set_points (v : Z) (d : IpData) : IpData :=
  {| ip := ip d; index := index d; lastSeenMs := lastSeenMs d; points := v;
     connections := connections d; reqInCurrentMin := reqInCurrentMin d;
     reqInPrevMin := reqInPrevMin d; reqInCurrent10Sec := reqInCurrent10Sec d;
     reqInPrev10Sec := reqInPrev10Sec d |}.

Definition set_connections (v : Z) (d : IpData) : IpData :=
  {| ip := ip d; index := index d; lastSeenMs := lastSeenMs d; points := points d;
     connections := v; reqInCurrentMin := reqInCurrentMin d;
     reqInPrevMin := reqInPrevMin d; reqInCurrent10Sec := reqInCurrent10Sec d;
     reqInPrev10Sec := reqInPrev10Sec d |}.

Definition set_minute (cur prev : Z) (d : IpData) : IpData :=
  {| ip := ip d; index := index d; lastSeenMs := lastSeenMs d; points := points d;
     connections := connections d; reqInCurrentMin := cur;
     reqInPrevMin := prev; reqInCurrent10Sec := reqInCurrent10Sec d;
     reqInPrev10Sec := reqInPrev10Sec d |}.

Definition set_10Sec (cur prev : Z) (d : IpData) : IpData :=
  {| ip := ip d; index := index d; lastSeenMs := lastSeenMs d; points := points d;
     connections := connections d; reqInCurrentMin := reqInCurrentMin d;
     reqInPrevMin := reqInPrevMin d; reqInCurrent10Sec := cur;
     reqInPrev10Sec := prev |}.

(** The minute half of [updateTimeWindows]. *)
Definition updateMinuteWindow (ipData : IpData) (nowMs : Z) : IpData :=
  let currentMin := boundary 60000 nowMs in
  let lastMin := boundary 60000 (lastSeenMs ipData) in
  if negb (currentMin =? lastMin) then
    set_minute 0 (if currentMin =? lastMin + 1 then reqInCurrentMin ipData else 0)
               ipData
  else ipData.

(** The 10-second half of [updateTimeWindows]. *)
Definition update10SecWindow (ipData : IpData) (nowMs : Z) : IpData :=
  let current10Sec := boundary 10000 nowMs in
  let last10Sec := boundary 10000 (lastSeenMs ipData) in
  if negb (current10Sec =? last10Sec) then
    set_10Sec 0 (if current10Sec =? last10Sec + 1 then reqInCurrent10Sec ipData
                 else 0)
              ipData
  else ipData.

(** [updateTimeWindows]: both halves read the [lastSeenMs] the record had on
    entry, which neither of them writes. *)
Definition updateTimeWindows (ipData : IpData) (nowMs : Z) : IpData :=
  update10SecWindow (updateMinuteWindow ipData nowMs) nowMs.

Definition calculate10SecReqPerSec (ipData : IpData) : Q :=
  inject_Z (reqInCurrent10Sec ipData + reqInPrev10Sec ipData) / 10.

Definition checkExcessiveUsage (ipData : IpData) (o : Options) : Z :=
  let penalty := 0 in
  let reqPer10Sec := calculate10SecReqPerSec ipData in
  let penalty :=
    if Qgtb reqPer10Sec (inject_Z (excessiveReqPerS o))
    then penalty + pointsForExcessiveRequest o else penalty in
  let reqPerMin := (inject_Z (reqInCurrentMin ipData + reqInPrevMin ipData) / 60)%Q in
  let penalty :=
    if Qgtb reqPerMin (inject_Z (excessiveReqPerMin o))
    then penalty + pointsForExcessiveRequest o else penalty in
  penalty.

(** ** Global counters *)

(** [GlobalStats] of [src/types.ts].  Its fields [reqInCurrentMin] and
    [reqInPrevMin] are [gReqInCurrentMin] and [gReqInPrevMin] here: the
    short names are those of the fields of [IpData]. *)
Record GlobalStats := {
  reqInCurrentSec : Z;
  reqInPrevSec : Z;
  prevSecStartMs : Z;
  currentSecStartMs : Z;
  negativeReqInCurrentSec : Z;
  gReqInCurrentMin : Z;
  gReqInPrevMin : Z;
  rateLimited429InCurrentMin : Z;
  rateLimited429InPrevMin : Z;
  currentMinStartMs : Z
}.

(** The 1-second half of [updateGlobalStats]. *)
Definition updateGlobalSec (g : GlobalStats) (nowMs : Z) : GlobalStats :=
  let currentSec := boundary 1000 nowMs in
  let prevSec := boundary 1000 (prevSecStartMs g) in
  if negb (currentSec =? prevSec) then
    {| reqInPrevSec := reqInCurrentSec g;
       reqInCurrentSec := 0;
       negativeReqInCurrentSec := 0;
       prevSecStartMs := currentSecStartMs g;
       currentSecStartMs := nowMs;
       gReqInCurrentMin := gReqInCurrentMin g;
       gReqInPrevMin := gReqInPrevMin g;
       rateLimited429InCurrentMin := rateLimited429InCurrentMin g;
       rateLimited429InPrevMin := rateLimited429InPrevMin g;
       currentMinStartMs := currentMinStartMs g |}
  else g.

(** The minute half of [updateGlobalStats]. *)
Definition updateGlobalMin (g : GlobalStats) (nowMs : Z) : GlobalStats :=
  let currentMin := boundary 60000 nowMs in
  let prevMin := boundary 60000 (currentMinStartMs g) in
  if negb (currentMin =? prevMin) then
    {| reqInPrevSec := reqInPrevSec g;
       reqInCurrentSec := reqInCurrentSec g;
       negativeReqInCurrentSec := negativeReqInCurrentSec g;
       prevSecStartMs := prevSecStartMs g;
       currentSecStartMs := currentSecStartMs g;
       gReqInPrevMin := gReqInCurrentMin g;
       gReqInCurrentMin := 0;
       rateLimited429InPrevMin := rateLimited429InCurrentMin g;
       rateLimited429InCurrentMin := 0;
       currentMinStartMs := nowMs |}
  else g.

(** [updateGlobalStats]: the second window, then the minute window; the two
    write disjoint fields. *)
Definition updateGlobalStats (g : GlobalStats) (nowMs : Z) : GlobalStats :=
  updateGlobalMin (updateGlobalSec g nowMs) nowMs.

Definition calculateCurrentReqPerSec (g : GlobalStats) (nowMs : Z) : Q :=
  let timeSincePrevSec := Qmax 1 (inject_Z (nowMs - prevSecStartMs g) / 1000) in
  inject_Z (reqInCurrentSec g + reqInPrevSec g) / timeSincePrevSec.

(** ** Requests *)

(** What the middleware reads of an Express request: [req.ip] and
    [req.socket?.remoteAddress], each possibly [undefined]. *)
Record Socket := { remoteAddress : option string }.
Record Request := { req_ip : option string; req_socket : option Socket }.

(** JavaScript truthiness of a string-or-undefined value: [undefined] and the
    empty string are falsy. *)
Definition truthy (v : option string) : bool :=
  match v with
  | Some s => negb (String.eqb s EmptyString)
  | None => false
  end.

(** [a || b] on such values. *)
Definition orElse (a b : option string) : option string :=
  if truthy a then a else b.

Definition errorAddress : string := "*error*".

Definition getClientIp (req : Request) : string :=
  match orElse (req_ip req)
               (orElse (req_socket req ≫= remoteAddress) (Some errorAddress)) with
  | Some s => s
  | None => errorAddress
  end.

(** ** Engine state *)

(** The state closed over by [createPlastron]: the slot array
    [monitoredIps], the [Map] [ipData] (address to object reference), the
    objects themselves, and [globalStats]. *)
Record EngineOf (G : Type) := {
  monitoredIps : list (option string);
  ipData : gmap string nat;
  heap : list IpData;
  globalStats : G
}.

Arguments monitoredIps {G} _.
Arguments ipData {G} _.
Arguments heap {G} _.
Arguments globalStats {G} _.

(** The engine of the current build. *)
Abbreviation Engine := (EngineOf GlobalStats).

(** [ipData.get(ip)] followed by a read of the object. *)
Definition getIpData {G} (e : EngineOf G) (a : string) : option IpData :=
  ipData e !! a ≫= λ h, heap e !! h.

(** [arr[i] = v]: inside the array the slot is overwritten, beyond its end
    the array grows (the slots in between are holes, read as [undefined]). *)
Definition arraySet (arr : list (option string)) (i : nat) (v : option string)
  : list (option string) :=
  if decide (i < length arr)%nat then <[i := v]> arr
  else arr ++ replicate (i - length arr) None ++ [v].

(** [arr[i]]: [undefined] beyond the end. *)
Definition arrayGet (arr : list (option string)) (i : nat) : option string :=
  default None (arr !! i).

(** [Math.floor(Math.random() * size)] for the draw [u]. *)
Definition drawIndex (u : Q) (size : nat) : nat :=
  Z.to_nat (Qfloor (u * inject_Z (Z.of_nat size))).

Definition maxAttempts : nat := 2.

Definition isRecentlyActive (data : IpData) (nowMs : Z) : bool :=
  nowMs - lastSeenMs data <? 300000.

Definition isInPreferredRange (data : IpData) : bool :=
  (points data >=? -50000) && (points data <=? 50000).

(** The [while (attempts < maxAttempts)] loop of [findEvictableIndex];
    [fuel] is [maxAttempts - attempts].  Each round makes one call of
    [Math.random], so the round with counter [attempts] reads [rnd attempts];
    the fallback after the loop makes one more call. *)
Fixpoint findEvictableLoop {G} (fuel attempts : nat) (e : EngineOf G) (nowMs : Z)
    (rnd : nat → Q) : nat :=
  let size := length (monitoredIps e) in
  match fuel with
  | O => drawIndex (rnd attempts) size
  | S fuel' =>
    let randomIndex := drawIndex (rnd attempts) size in
    let a := arrayGet (monitoredIps e) randomIndex in
    if negb (truthy a) then randomIndex
    else
      match a ≫= λ s, ipData e !! s with
      | None => randomIndex
      | Some h =>
        let data := heap e !!! h in
        if negb (isInPreferredRange data) || negb (isRecentlyActive data nowMs)
           || (attempts =? maxAttempts - 1)%nat
        then randomIndex
        else findEvictableLoop fuel' (S attempts) e nowMs rnd
      end
  end.

Definition findEvictableIndex {G} (e : EngineOf G) (nowMs : Z) (rnd : nat → Q) : nat :=
  findEvictableLoop maxAttempts 0 e nowMs rnd.

(** The fresh record of [addIpToMonitoring]. *)
Definition newIpData (a : string) (evictIndex : nat) (nowMs : Z) : IpData :=
  {| ip := a; index := evictIndex; lastSeenMs := nowMs; points := 0;
     connections := 0; reqInCurrentMin := 0; reqInPrevMin := 0;
     reqInCurrent10Sec := 0; reqInPrev10Sec := 0 |}.

(** [addIpToMonitoring]: returns the new state and the reference to the new
    object.  [ipData.delete(oldIp)] only runs for a truthy [oldIp]. *)
Definition addIpToMonitoring {G} (a : string) (e : EngineOf G) (nowMs : Z)
    (rnd : nat → Q) : EngineOf G * nat :=
  let evictIndex := findEvictableIndex e nowMs rnd in
  let oldIp := arrayGet (monitoredIps e) evictIndex in
  let ipData1 :=
    match oldIp with
    | Some old => if truthy oldIp then delete old (ipData e) else ipData e
    | None => ipData e
    end in
  let h := length (heap e) in
  ({| monitoredIps := arraySet (monitoredIps e) evictIndex (Some a);
      ipData := <[a := h]> ipData1;
      heap := heap e ++ [newIpData a evictIndex nowMs];
      globalStats := globalStats e |}, h).

(** ** Verdicts *)

(** What the [reason] text of a 429 answer reports (its rendering as text is
    not modelled). *)
Inductive Reason :=
| GlobalRateExceeded (reqPerSec : Q)
| GlobalNegativeRateExceeded (negativeReq : Z)
| IpRateExceeded (reqPerSec : Q) (limit : Z)
| ConnectionLimitExceeded (conns limit : Z).

(** [res.status(code).json(payload)]. *)
Record Payload := { error : string; reason : option Reason }.
Record Response := { status : Z; json : Payload }.

(** The outcome of one middleware call: a 429 answer, or the admission of the
    request, whose continuation [processRequest] is run after [slowdownMs]
    and holds the record [entry]. *)
Inductive Outcome :=
| Rejected (r : Response)
| Accepted (entry : nat) (slowdownMs : Q).

Definition set_rateLimited429InCurrentMin (v : Z) (g : GlobalStats) : GlobalStats :=
  {| reqInPrevSec := reqInPrevSec g;
     reqInCurrentSec := reqInCurrentSec g;
     negativeReqInCurrentSec := negativeReqInCurrentSec g;
     prevSecStartMs := prevSecStartMs g;
     currentSecStartMs := currentSecStartMs g;
     gReqInPrevMin := gReqInPrevMin g;
     gReqInCurrentMin := gReqInCurrentMin g;
     rateLimited429InPrevMin := rateLimited429InPrevMin g;
     rateLimited429InCurrentMin := v;
     currentMinStartMs := currentMinStartMs g |}.

(** [createRateLimitResponse]: every call site passes a non-empty [reason]. *)
Definition createRateLimitResponse (o : Options) (g : GlobalStats) (r : Reason)
  : GlobalStats * Response :=
  let payload := {| error := rateLimitMessage o;
                    reason := if enableDebug o then Some r else None |} in
  (set_rateLimited429InCurrentMin (rateLimited429InCurrentMin g + 1) g,
   {| status := 429; json := payload |}).

(** ** The middleware *)

Definition with_heap {G} (hp : list IpData) (e : EngineOf G) : EngineOf G :=
  {| monitoredIps := monitoredIps e; ipData := ipData e; heap := hp;
     globalStats := globalStats e |}.

Definition with_globalStats {G G'} (g : G') (e : EngineOf G) : EngineOf G' :=
  {| monitoredIps := monitoredIps e; ipData := ipData e; heap := heap e;
     globalStats := g |}.

(** The increments of the global counters on admission:
    [reqInCurrentSec++], [reqInCurrentMin++] and, for a negative address,
    [negativeReqInCurrentSec++]. *)
Definition countGlobal (negative : bool) (g : GlobalStats) : GlobalStats :=
  {| reqInPrevSec := reqInPrevSec g;
     reqInCurrentSec := reqInCurrentSec g + 1;
     negativeReqInCurrentSec :=
       if negative then negativeReqInCurrentSec g + 1
       else negativeReqInCurrentSec g;
     prevSecStartMs := prevSecStartMs g;
     currentSecStartMs := currentSecStartMs g;
     gReqInPrevMin := gReqInPrevMin g;
     gReqInCurrentMin := gReqInCurrentMin g + 1;
     rateLimited429InPrevMin := rateLimited429InPrevMin g;
     rateLimited429InCurrentMin := rateLimited429InCurrentMin g;
     currentMinStartMs := currentMinStartMs g |}.

(** The increments of the record on admission: [reqInCurrentMin++],
    [reqInCurrent10Sec++], [connections++]. *)
Definition countEntry (d : IpData) : IpData :=
  {| ip := ip d; index := index d; lastSeenMs := lastSeenMs d; points := points d;
     connections := connections d + 1;
     reqInCurrentMin := reqInCurrentMin d + 1;
     reqInPrevMin := reqInPrevMin d;
     reqInCurrent10Sec := reqInCurrent10Sec d + 1;
     reqInPrev10Sec := reqInPrev10Sec d |}.

(** [return createRateLimitResponse(res, opts, ip, globalStats, reason)]. *)
Definition reject (o : Options) (e : Engine) (r : Reason) : Engine * Outcome :=
  let '(g, resp) := createRateLimitResponse o (globalStats e) r in
  (with_globalStats g e, Rejected resp).

(** The checks of [middleware], run on the state [e] in which the global
    counters are rolled and the record [h] of the caller has its windows
    rolled and its [lastSeenMs] stamped. *)
Definition admission (o : Options) (e : Engine) (h : nat) (nowMs : Z)
  : Engine * Outcome :=
  let ipEntry := heap e !!! h in
  let g := globalStats e in
  let globalReqPerSec := calculateCurrentReqPerSec g nowMs in
  if (maxRequestRatePerSec o >? 0)
     && Qgeb globalReqPerSec (inject_Z (maxRequestRatePerSec o))
  then reject o e (GlobalRateExceeded globalReqPerSec)
  else if (maxRequestNegativeIPperSec o >? 0)
          && (points ipEntry <? 0)
          && (negativeReqInCurrentSec g >=? maxRequestNegativeIPperSec o)
  then reject o e (GlobalNegativeRateExceeded (negativeReqInCurrentSec g))
  else
    let reqPer10Sec := calculate10SecReqPerSec ipEntry in
    let maxReqPerSec := if points ipEntry >=? 0 then maxReqPerSecPerIP o
                        else maxReqNegativePerSecPerIP o in
    if Qgeb reqPer10Sec (inject_Z maxReqPerSec)
    then reject o e (IpRateExceeded reqPer10Sec maxReqPerSec)
    else
      let maxConns := calculateMaxConnections (points ipEntry) o in
      if connections ipEntry >=? maxConns
      then reject o e (ConnectionLimitExceeded (connections ipEntry) maxConns)
      else
        let slowdownMs := calculateSlowdown (points ipEntry) o in
        ({| monitoredIps := monitoredIps e;
            ipData := ipData e;
            heap := alter countEntry h (heap e);
            globalStats := countGlobal (points ipEntry <? 0) g |},
         Accepted h slowdownMs).

(** Get-or-create of [middleware]: [ipData.get(ip)], and
    [addIpToMonitoring] when there is no record. *)
Definition getOrCreate {G} (a : string) (e : EngineOf G) (nowMs : Z)
    (rnd : nat → Q) : EngineOf G * nat :=
  match ipData e !! a with
  | Some h => (e, h)
  | None => addIpToMonitoring a e nowMs rnd
  end.

(** [updateTimeWindows(ipEntry, nowMs); ipEntry.lastSeenMs = nowMs]. *)
Definition touch (nowMs : Z) (d : IpData) : IpData :=
  set_lastSeenMs nowMs (updateTimeWindows d nowMs).

(** [middleware(req, res, next)] at clock reading [nowMs]. *)
Definition middleware (o : Options) (e : Engine) (nowMs : Z) (req : Request)
    (rnd : nat → Q) : Engine * Outcome :=
  let a := getClientIp req in
  let e0 := with_globalStats (updateGlobalStats (globalStats e) nowMs) e in
  let '(e1, h) := getOrCreate a e0 nowMs rnd in
  let e2 := with_heap (alter (touch nowMs) h (heap e1)) e1 in
  admission o e2 h nowMs.

(** The wrapper installed on [res.send] by [processRequest], called with
    [res.statusCode = statusCode]; [h] is the record the request was admitted
    with. *)
Definition score (o : Options) (statusCode : Z) (d : IpData) : IpData :=
  let pts := calculatePoints statusCode o in
  let excessivePenalty := checkExcessiveUsage d o in
  let d1 := set_points (points d + (pts + excessivePenalty)) d in
  set_connections (Z.max 0 (connections d1 - 1)) d1.

Definition sendHook {G} (o : Options) (e : EngineOf G) (h : nat)
    (statusCode : Z) : EngineOf G :=
  with_heap (alter (score o statusCode) h (heap e)) e.

(** [typeof ipOrReq === 'string' ? ipOrReq : getClientIp(ipOrReq)]. *)
Definition addressOf (ipOrReq : string + Request) : string :=
  match ipOrReq with
  | inl s => s
  | inr req => getClientIp req
  end.

(** [addPointsToIp(ipOrReq, pts)]. *)
Definition addPointsToIp {G} (e : EngineOf G) (ipOrReq : string + Request)
    (pts : Z) : EngineOf G * bool :=
  let a := addressOf ipOrReq in
  match ipData e !! a with
  | Some h =>
    (with_heap (alter (λ data, set_points (points data + pts) data) h (heap e)) e,
     true)
  | None => (e, false)
  end.

(** [getStats().totalMonitoredIps]: [ipData.size]. *)
Definition totalMonitoredIps {G} (e : EngineOf G) : nat := size (ipData e).

(** [createPlastron(userOptions)]: fails without a rejection message;
    otherwise the initial state, with the three clock readings taken for
    [prevSecStartMs], [currentSecStartMs] and [currentMinStartMs]. *)
Definition createPlastron (o : Options) (t1 t2 t3 : Z) : option Engine :=
  if String.eqb (rateLimitMessage o) EmptyString then None
  else Some {|
    monitoredIps := replicate (ipMonitorSize o) None;
    ipData := ∅;
    heap := [];
    globalStats := {|
      reqInCurrentSec := 0; reqInPrevSec := 0;
      prevSecStartMs := t1; currentSecStartMs := t2;
      negativeReqInCurrentSec := 0;
      gReqInCurrentMin := 0; gReqInPrevMin := 0;
      rateLimited429InCurrentMin := 0; rateLimited429InPrevMin := 0;
      currentMinStartMs := t3 |} |}.


(** ** The curve: auxiliary definitions *)

(** The base cap selected by the sign of the score. *)
Definition baseCap (pts : Z) (o : Options) : Z :=
  if pts >=? 0 then maxSimultanousConnectionsPerIP o
  else maxSimultanousConnectionsNegativePerIP o.

(** The defaults with a delay ceiling of 50 ms. *)
Definition shortCeiling : Options := {|
  ipMonitorSize := 1000;
  maxRequestRatePerSec := 0;
  maxRequestNegativeIPperSec := 0;
  maxSimultanousConnectionsPerIP := 25;
  maxSimultanousConnectionsNegativePerIP := 10;
  maxReqPerSecPerIP := 30;
  maxReqNegativePerSecPerIP := 10;
  rateLimitMessage := "Rate limit exceeded";
  ipSlowDownStartsAt := -100000;
  ipSlowDownMaxS := 50;
  ipSlowDownMaxPunishmentAt := -500000;
  excessiveReqPerS := 50;
  excessiveReqPerMin := 200;
  pointsForExcessiveRequest := -100;
  pointsFor20x := 1;
  pointsFor30x := 0;
  pointsFor400 := -10000;
  pointsFor401 := -10000;
  pointsFor404 := -100;
  pointsFor40x := -10;
  pointsFor50x := -20;
  enableDebug := false
|}.


(** An engine of [shortCeiling] whose one record stands at
    [ipSlowDownMaxPunishmentAt]. *)
Definition punishedEngine : Engine :=
  {| monitoredIps := [Some "192.168.1.1"];
     ipData := {["192.168.1.1" := 0%nat]};
     heap := [ {| ip := "192.168.1.1"; index := 0; lastSeenMs := 1000000;
                  points := -500000; connections := 0;
                  reqInCurrentMin := 0; reqInPrevMin := 0;
                  reqInCurrent10Sec := 0; reqInPrev10Sec := 0 |} ];
     globalStats := {| reqInCurrentSec := 0; reqInPrevSec := 0;
       prevSecStartMs := 1000000; currentSecStartMs := 1000000;
       negativeReqInCurrentSec := 0;
       gReqInCurrentMin := 0; gReqInPrevMin := 0;
       rateLimited429InCurrentMin := 0; rateLimited429InPrevMin := 0;
       currentMinStartMs := 1000000 |} |}.

(** ** The older build *)

(** What [dist/plastron.js] does differently: its [globalStats] has the five
    second fields only, [updateGlobalStats] rolls the 1-second window only,
    and a rejection is [res.status(429).json({ error: rateLimitMessage })]
    without any counting. *)
Module Dist.

Record GlobalStats := {
  reqInCurrentSec : Z;
  reqInPrevSec : Z;
  prevSecStartMs : Z;
  currentSecStartMs : Z;
  negativeReqInCurrentSec : Z
}.

Definition updateGlobalStats (g : GlobalStats) (nowMs : Z) : GlobalStats :=
  let currentSec := boundary 1000 nowMs in
  let prevSec := boundary 1000 (prevSecStartMs g) in
  if negb (currentSec =? prevSec) then
    {| reqInPrevSec := reqInCurrentSec g;
       reqInCurrentSec := 0;
       negativeReqInCurrentSec := 0;
       prevSecStartMs := currentSecStartMs g;
       currentSecStartMs := nowMs |}
  else g.

Definition calculateCurrentReqPerSec (g : GlobalStats) (nowMs : Z) : Q :=
  let timeSincePrevSec := Qmax 1 (inject_Z (nowMs - prevSecStartMs g) / 1000) in
  inject_Z (reqInCurrentSec g + reqInPrevSec g) / timeSincePrevSec.

Definition countGlobal (negative : bool) (g : GlobalStats) : GlobalStats :=
  {| reqInPrevSec := reqInPrevSec g;
     reqInCurrentSec := reqInCurrentSec g + 1;
     negativeReqInCurrentSec :=
       if negative then negativeReqInCurrentSec g + 1
       else negativeReqInCurrentSec g;
     prevSecStartMs := prevSecStartMs g;
     currentSecStartMs := currentSecStartMs g |}.

(** [return res.status(429).json({ error: options.rateLimitMessage })]. *)
Definition reject (o : Options) (e : EngineOf GlobalStats)
  : EngineOf GlobalStats * Outcome :=
  (e, Rejected {| status := 429;
                  json := {| error := rateLimitMessage o; reason := None |} |}).

Definition admission (o : Options) (e : EngineOf GlobalStats) (h : nat)
    (nowMs : Z) : EngineOf GlobalStats * Outcome :=
  let ipDataEntry := heap e !!! h in
  let g := globalStats e in
  let currentGlobalReqPerSec := calculateCurrentReqPerSec g nowMs in
  if (maxRequestRatePerSec o >? 0)
     && Qgeb currentGlobalReqPerSec (inject_Z (maxRequestRatePerSec o))
  then reject o e
  else if (maxRequestNegativeIPperSec o >? 0)
          && (points ipDataEntry <? 0)
          && (negativeReqInCurrentSec g >=? maxRequestNegativeIPperSec o)
  then reject o e
  else
    let reqPer10Sec := calculate10SecReqPerSec ipDataEntry in
    let maxReqPerSec := if points ipDataEntry >=? 0 then maxReqPerSecPerIP o
                        else maxReqNegativePerSecPerIP o in
    if Qgeb reqPer10Sec (inject_Z maxReqPerSec)
    then reject o e
    else
      let maxConnections := calculateMaxConnections (points ipDataEntry) o in
      if connections ipDataEntry >=? maxConnections
      then reject o e
      else
        let slowdownMs := calculateSlowdown (points ipDataEntry) o in
        ({| monitoredIps := monitoredIps e;
            ipData := ipData e;
            heap := alter countEntry h (heap e);
            globalStats := countGlobal (points ipDataEntry <? 0) g |},
         Accepted h slowdownMs).

Definition middleware (o : Options) (e : EngineOf GlobalStats) (nowMs : Z)
    (req : Request) (rnd : nat → Q) : EngineOf GlobalStats * Outcome :=
  let a := getClientIp req in
  let e0 := with_globalStats (updateGlobalStats (globalStats e) nowMs) e in
  let '(e1, h) := getOrCreate a e0 nowMs rnd in
  let e2 := with_heap (alter (touch nowMs) h (heap e1)) e1 in
  admission o e2 h nowMs.

End Dist.

(** The counters of the current build seen from the older one. *)
Definition forget (g : GlobalStats) : Dist.GlobalStats :=
  {| Dist.reqInCurrentSec := reqInCurrentSec g;
     Dist.reqInPrevSec := reqInPrevSec g;
     Dist.prevSecStartMs := prevSecStartMs g;
     Dist.currentSecStartMs := currentSecStartMs g;
     Dist.negativeReqInCurrentSec := negativeReqInCurrentSec g |}.

Definition forgetEngine (e : Engine) : EngineOf Dist.GlobalStats :=
  with_globalStats (forget (globalStats e)) e.

(** An outcome without the [reason] of the debug mode. *)
Definition plain (out : Outcome) : Outcome :=
  match out with
  | Rejected r =>
    Rejected {| status := status r;
                json := {| error := error (json r); reason := None |} |}
  | Accepted h s => Accepted h s
  end.

(** ** Eviction, in the words of the specification *)

(** The record of the occupant of slot [i], when the slot holds an address
    and the lookup map has a record for it. *)
Definition slotRecord (e : Engine) (i : nat) : option IpData :=
  let a := arrayGet (monitoredIps e) i in
  if truthy a then (a ≫= λ s, ipData e !! s) ≫= λ h, Some (heap e !!! h)
  else None.

(** An occupant is protected when its score lies in the band
    [-50000, 50000] and it was seen less than 300000 ms ago. *)
Definition protected (data : IpData) (nowMs : Z) : Prop :=
  (-50000 ≤ points data ≤ 50000) ∧ nowMs - lastSeenMs data < 300000.

(** Draws: always 0; 0 first and then 1/2. *)
Definition zeroDraws : nat → Q := λ _, 0%Q.
Definition zeroThenHalf : nat → Q := λ k, match k with O => 0%Q | _ => (1 # 2)%Q end.

(** ** Runs *)

(** What can happen to an engine: a request arrives at the middleware, the
    response of an admitted request is sent, or the application adjusts a
    score. *)
Inductive Event :=
| Arrive (nowMs : Z) (req : Request) (rnd : nat → Q)
| Send (entry : nat) (statusCode : Z)
| AddPoints (ipOrReq : string + Request) (pts : Z).

Definition step (o : Options) (e : Engine) (ev : Event) : Engine :=
  match ev with
  | Arrive nowMs req rnd => (middleware o e nowMs req rnd).1
  | Send h statusCode => sendHook o e h statusCode
  | AddPoints ipOrReq pts => (addPointsToIp e ipOrReq pts).1
  end.

Definition run (o : Options) (e : Engine) (evs : list Event) : Engine :=
  foldl (step o) e evs.

(** [Math.random()] returns a number of [0, 1). *)
Definition unitInterval (u : Q) : Prop := (0 <= u)%Q ∧ (u < 1)%Q.

Definition validEvent (ev : Event) : Prop :=
  match ev with
  | Arrive _ _ rnd => ∀ k, unitInterval (rnd k)
  | _ => True
  end.

(** A request of the address [a], as the tests build it. *)
Definition requestFrom (a : string) : Request :=
  {| req_ip := Some a; req_socket := Some {| remoteAddress := Some a |} |}.

(** A request with neither [req.ip] nor a socket address. *)
Definition anonymousRequest : Request :=
  {| req_ip := None; req_socket := None |}.

(** The engine of the default configuration created at 1000000 ms. *)
Definition freshEngine : Engine :=
  default {| monitoredIps := []; ipData := ∅; heap := [];
             globalStats := {| reqInCurrentSec := 0; reqInPrevSec := 0;
               prevSecStartMs := 0; currentSecStartMs := 0;
               negativeReqInCurrentSec := 0;
               gReqInCurrentMin := 0; gReqInPrevMin := 0;
               rateLimited429InCurrentMin := 0; rateLimited429InPrevMin := 0;
               currentMinStartMs := 0 |} |}
          (createPlastron (defaultOptions "busy") 1000000 1000000 1000000).

(** Five requests of one address at 1000000 ms, every draw being 0. *)
Definition fiveArrivals : list Event :=
  replicate 5 (Arrive 1000000 (requestFrom "192.168.1.1") (λ _, 0%Q)).

Definition accepted (out : Outcome) : bool :=
  match out with
  | Accepted _ _ => true
  | Rejected _ => false
  end.

(** The state after [fiveArrivals]. *)
Definition afterFive : Engine := run (defaultOptions "busy") freshEngine fiveArrivals.

(** ** The table invariant *)

(** Every tracked address is a non-empty string held by a slot of the
    array. *)
Definition slotted (e : Engine) : Prop :=
  ∀ a, is_Some (ipData e !! a) → a ≠ EmptyString ∧ Some a ∈ monitoredIps e.

(** The configuration of the tests with a table without slots. *)
Definition noSlots : Options := {|
  ipMonitorSize := 0;
  maxRequestRatePerSec := 100;
  maxRequestNegativeIPperSec := 50;
  maxSimultanousConnectionsPerIP := 25;
  maxSimultanousConnectionsNegativePerIP := 10;
  maxReqPerSecPerIP := 30;
  maxReqNegativePerSecPerIP := 10;
  rateLimitMessage := "Rate limit exceeded";
  ipSlowDownStartsAt := -100000;
  ipSlowDownMaxS := 5000;
  ipSlowDownMaxPunishmentAt := -500000;
  excessiveReqPerS := 50;
  excessiveReqPerMin := 200;
  pointsForExcessiveRequest := -100;
  pointsFor20x := 1;
  pointsFor30x := 0;
  pointsFor400 := -10000;
  pointsFor401 := -10000;
  pointsFor404 := -100;
  pointsFor40x := -10;
  pointsFor50x := -20;
  enableDebug := false
|}.

(** Every reference held by the map points to an object of the store. *)
Definition referenced (e : Engine) : Prop :=
  ∀ a h, ipData e !! a = Some h → (h < length (heap e))%nat.

(** The engine of [noSlots] created at 1000000 ms. *)
Definition noSlotsEngine : Engine :=
  default freshEngine (createPlastron noSlots 1000000 1000000 1000000).

(** The configuration of the test of the global limit: the options of the
    test suite with [maxRequestRatePerSec = 1]. *)
Definition capOne : Options := {|
  ipMonitorSize := 10;
  maxRequestRatePerSec := 1;
  maxRequestNegativeIPperSec := 50;
  maxSimultanousConnectionsPerIP := 25;
  maxSimultanousConnectionsNegativePerIP := 10;
  maxReqPerSecPerIP := 30;
  maxReqNegativePerSecPerIP := 10;
  rateLimitMessage := "Rate limit exceeded";
  ipSlowDownStartsAt := -100000;
  ipSlowDownMaxS := 5000;
  ipSlowDownMaxPunishmentAt := -500000;
  excessiveReqPerS := 50;
  excessiveReqPerMin := 200;
  pointsForExcessiveRequest := -100;
  pointsFor20x := 1;
  pointsFor30x := 0;
  pointsFor400 := -10000;
  pointsFor401 := -10000;
  pointsFor404 := -100;
  pointsFor40x := -10;
  pointsFor50x := -20;
  enableDebug := false
|}.

(** The engine of [capOne] created at 1000000 ms, and its state after the
    request of a first address at that instant. *)
Definition capOneEngine : Engine :=
  default freshEngine (createPlastron capOne 1000000 1000000 1000000).

Definition capOneAfterFirst : Engine :=
  step capOne capOneEngine (Arrive 1000000 (requestFrom "192.168.1.1") zeroDraws).

(** A record seen at 1000000 ms with 3 requests in its current minute and 2
    in its current 10 seconds. *)
Definition busyRecord : IpData :=
  {| ip := "192.168.1.1"; index := 0; lastSeenMs := 1000000; points := 0;
     connections := 0; reqInCurrentMin := 3; reqInPrevMin := 7;
     reqInCurrent10Sec := 2; reqInPrev10Sec := 5 |}.

(** An engine whose store holds [busyRecord] alone. *)
Definition busyEngine : Engine :=
  {| monitoredIps := [Some "192.168.1.1"];
     ipData := {["192.168.1.1" := 0%nat]};
     heap := [busyRecord];
     globalStats := {| reqInCurrentSec := 3; reqInPrevSec := 0;
       prevSecStartMs := 1000000; currentSecStartMs := 1000000;
       negativeReqInCurrentSec := 0;
       gReqInCurrentMin := 3; gReqInPrevMin := 0;
       rateLimited429InCurrentMin := 0; rateLimited429InPrevMin := 0;
       currentMinStartMs := 1000000 |} |}.

(** ** Counters *)

(** The counters of a record are natural numbers. *)
Definition recordSane (d : IpData) : Prop :=
  0 ≤ connections d
  ∧ 0 ≤ reqInCurrentMin d ∧ 0 ≤ reqInPrevMin d
  ∧ 0 ≤ reqInCurrent10Sec d ∧ 0 ≤ reqInPrev10Sec d.

(** The global counters are natural numbers, and the requests of negative
    addresses counted in the current second are among its requests. *)
Definition globalSane (g : GlobalStats) : Prop :=
  0 ≤ negativeReqInCurrentSec g ≤ reqInCurrentSec g
  ∧ 0 ≤ reqInPrevSec g
  ∧ 0 ≤ gReqInCurrentMin g ∧ 0 ≤ gReqInPrevMin g
  ∧ 0 ≤ rateLimited429InCurrentMin g ∧ 0 ≤ rateLimited429InPrevMin g.

(** Some traffic on the engine of the default configuration: two addresses,
    a 404 for the first one, a manual penalty, and a completion reported
    twice. *)
Definition someTraffic : list Event :=
  [ Arrive 1000000 (requestFrom "192.168.1.1") zeroDraws;
    Arrive 1000500 (requestFrom "192.168.1.2") zeroThenHalf;
    Send 0 404;
    AddPoints (inl "192.168.1.2") (-700);
    Send 0 200;
    Arrive 1070000 (requestFrom "192.168.1.1") zeroDraws ].

(** ** Slots and records *)

(** The map and the slot array describe each other: a tracked address is a
    non-empty string whose record carries it together with the index of the
    slot that holds it, and an address held by a slot is tracked with a
    record of that index. *)
Definition consistent (e : Engine) : Prop :=
  (∀ a h, ipData e !! a = Some h →
     a ≠ EmptyString
     ∧ ∃ d, heap e !! h = Some d ∧ ip d = a
            ∧ monitoredIps e !! index d = Some (Some a))
  ∧ (∀ i a, monitoredIps e !! i = Some (Some a) →
       ∃ h d, ipData e !! a = Some h ∧ heap e !! h = Some d ∧ index d = i).

(** ** First and later requests *)

(** The slot [i] holds a non-empty address that has a record. *)
Definition occupantTracked {G} (e : EngineOf G) (i : nat) : bool :=
  match arrayGet (monitoredIps e) i with
  | Some old => truthy (Some old) && bool_decide (is_Some (ipData e !! old))
  | None => false
  end.

(** The default configuration with a table of two slots. *)
Definition twoSlots : Options := {|
  ipMonitorSize := 2;
  maxRequestRatePerSec := 0;
  maxRequestNegativeIPperSec := 0;
  maxSimultanousConnectionsPerIP := 25;
  maxSimultanousConnectionsNegativePerIP := 10;
  maxReqPerSecPerIP := 30;
  maxReqNegativePerSecPerIP := 10;
  rateLimitMessage := "Rate limit exceeded";
  ipSlowDownStartsAt := -100000;
  ipSlowDownMaxS := 5000;
  ipSlowDownMaxPunishmentAt := -500000;
  excessiveReqPerS := 50;
  excessiveReqPerMin := 200;
  pointsForExcessiveRequest := -100;
  pointsFor20x := 1;
  pointsFor30x := 0;
  pointsFor400 := -10000;
  pointsFor401 := -10000;
  pointsFor404 := -100;
  pointsFor40x := -10;
  pointsFor50x := -20;
  enableDebug := false
|}.

(** A table of two slots that tracks 192.168.1.1 in slot 0, seen long ago. *)
Definition twoSlotsEngine : Engine :=
  {| monitoredIps := [Some "192.168.1.1"; None];
     ipData := {["192.168.1.1" := 0%nat]};
     heap := [busyRecord];
     globalStats := {| reqInCurrentSec := 0; reqInPrevSec := 0;
       prevSecStartMs := 1000000; currentSecStartMs := 1000000;
       negativeReqInCurrentSec := 0;
       gReqInCurrentMin := 0; gReqInPrevMin := 0;
       rateLimited429InCurrentMin := 0; rateLimited429InPrevMin := 0;
       currentMinStartMs := 1000000 |} |}.

(** ** Runs of the older build *)

(** One event on an engine of the older build: its middleware, and the
    completion hook and [addPointsToIp], which are the same in both builds. *)
Definition distStep (o : Options) (e : EngineOf Dist.GlobalStats) (ev : Event)
  : EngineOf Dist.GlobalStats :=
  match ev with
  | Arrive nowMs req rnd => (Dist.middleware o e nowMs req rnd).1
  | Send h statusCode => sendHook o e h statusCode
  | AddPoints ipOrReq pts => (addPointsToIp e ipOrReq pts).1
  end.

Definition distRun (o : Options) (e : EngineOf Dist.GlobalStats)
    (evs : list Event) : EngineOf Dist.GlobalStats :=
  foldl (distStep o) e evs.

(** [createPlastron] of the older build: two clock readings. *)
Definition distCreatePlastron (o : Options) (t1 t2 : Z)
  : option (EngineOf Dist.GlobalStats) :=
  if String.eqb (rateLimitMessage o) EmptyString then None
  else Some {|
    monitoredIps := replicate (ipMonitorSize o) None;
    ipData := ∅;
    heap := [];
    globalStats := {|
      Dist.reqInCurrentSec := 0; Dist.reqInPrevSec := 0;
      Dist.prevSecStartMs := t1; Dist.currentSecStartMs := t2;
      Dist.negativeReqInCurrentSec := 0 |} |}.

(** ** The limits along a run *)



(** The open connections of a record stay within the larger base cap, or 1. *)
Definition connectionBound (o : Options) : Z :=
  Z.max 1 (Z.max (maxSimultanousConnectionsPerIP o)
                 (maxSimultanousConnectionsNegativePerIP o)).

Definition withinConnections (o : Options) (d : IpData) : Prop :=
  connections d ≤ connectionBound o.

(** One address that asks forty times within the same millisecond and never
    gets an answer. *)
Definition fortyArrivals : list Event :=
  replicate 40 (Arrive 1000000 (requestFrom "192.168.1.1") zeroDraws).

(** ** The report for happy-server *)

(** [worstIp = { ip, score: data.points }]. *)
Record WorstIp := {
  worst_ip : string;
  worst_score : Z
}.

(** The three variables of the loop over the entries of the map. *)
Record Tally := {
  positiveIps : nat;
  negativeIps : nat;
  worstIp : option WorstIp
}.

(** The body of [for (const [ip, data] of ipData)]. *)
Definition tallyEntry (t : Tally) (entry : string * IpData) : Tally :=
  let '(a, data) := entry in
  if points data >=? 0 then
    {| positiveIps := S (positiveIps t); negativeIps := negativeIps t;
       worstIp := worstIp t |}
  else
    {| positiveIps := positiveIps t; negativeIps := S (negativeIps t);
       worstIp :=
         match worstIp t with
         | Some w =>
           if points data <? worst_score w
           then Some {| worst_ip := a; worst_score := points data |}
           else Some w
         | None => Some {| worst_ip := a; worst_score := points data |}
         end |}.

Definition tally (entries : list (string * IpData)) : Tally :=
  foldl tallyEntry {| positiveIps := 0; negativeIps := 0; worstIp := None |}
        entries.

(** The object returned by the function registered as
    [happyServerExtension['plastron']]. *)
Record HappyReport := {
  report_status : string;
  report_totalMonitoredIps : nat;
  positiveScoreIps : nat;
  negativeScoreIps : nat;
  report_worstIp : option WorstIp;
  rateLimited429LastMinute : Z;
  totalRequestsLastMinute : Z;
  globalRequestsPerSecond : Q
}.

(** The entries of the map as the loop meets them: a JavaScript [Map] is
    walked in the order of insertion, which the model of the map does not
    keep, so that the order of the addresses is given by [order]. *)
Definition entries {G} (e : EngineOf G) (order : list string)
  : list (string * IpData) :=
  omap (λ a, pair a <$> getIpData e a) order.

(** [order] lists every tracked address once. *)
Definition enumerates {G} (e : EngineOf G) (order : list string) : Prop :=
  NoDup order ∧ ∀ a, a ∈ order ↔ is_Some (ipData e !! a).

(** The registered function, called at clock reading [nowMs]. *)
Definition happyServerReport (e : Engine) (order : list string) (nowMs : Z)
  : HappyReport :=
  let t := tally (entries e order) in
  let g := globalStats e in
  {| report_status := "ok";
     report_totalMonitoredIps := size (ipData e);
     positiveScoreIps := positiveIps t;
     negativeScoreIps := negativeIps t;
     report_worstIp := worstIp t;
     rateLimited429LastMinute :=
       rateLimited429InCurrentMin g + rateLimited429InPrevMin g;
     totalRequestsLastMinute := gReqInCurrentMin g + gReqInPrevMin g;
     globalRequestsPerSecond := calculateCurrentReqPerSec g nowMs |}.

(** ** Accounting of requests *)

(** The number of requests among the events. *)
Fixpoint arrivals (evs : list Event) : Z :=
  match evs with
  | [] => 0
  | Arrive _ _ _ :: evs => 1 + arrivals evs
  | _ :: evs => arrivals evs
  end.

(** The request [ev], if it is one, arrives in the minute window [m]. *)
Definition inMinute (m : Z) (ev : Event) : Prop :=
  match ev with
  | Arrive nowMs _ _ => boundary 60000 nowMs = m
  | _ => True
  end.

(** The minute counters of an engine that has seen [n] requests, all in the
    minute window [m] of its creation. *)
Definition minuteAccount (m n : Z) (g : GlobalStats) : Prop :=
  boundary 60000 (currentMinStartMs g) = m
  ∧ gReqInPrevMin g = 0 ∧ rateLimited429InPrevMin g = 0
  ∧ gReqInCurrentMin g + rateLimited429InCurrentMin g = n.

(** The configuration of the tests: the defaults with the two global limits
    set. *)
Definition testOptions : Options := {|
  ipMonitorSize := 10;
  maxRequestRatePerSec := 100;
  maxRequestNegativeIPperSec := 50;
  maxSimultanousConnectionsPerIP := 25;
  maxSimultanousConnectionsNegativePerIP := 10;
  maxReqPerSecPerIP := 30;
  maxReqNegativePerSecPerIP := 10;
  rateLimitMessage := "Rate limit exceeded";
  ipSlowDownStartsAt := -100000;
  ipSlowDownMaxS := 5000;
  ipSlowDownMaxPunishmentAt := -500000;
  excessiveReqPerS := 50;
  excessiveReqPerMin := 200;
  pointsForExcessiveRequest := -100;
  pointsFor20x := 1;
  pointsFor30x := 0;
  pointsFor400 := -10000;
  pointsFor401 := -10000;
  pointsFor404 := -100;
  pointsFor40x := -10;
  pointsFor50x := -20;
  enableDebug := false
|}.


(** ** Clock readings *)

(** The clock reading of the last request among the events, [last] if there
    is none. *)
Fixpoint lastClock (last : Z) (evs : list Event) : Z :=
  match evs with
  | [] => last
  | Arrive nowMs _ _ :: evs => lastClock nowMs evs
  | _ :: evs => lastClock last evs
  end.

(** The clock never runs backwards: every request reads a time that is not
    before the reading of the request before it, [last] for the first. *)
Fixpoint clockOrdered (last : Z) (evs : list Event) : Prop :=
  match evs with
  | [] => True
  | Arrive nowMs _ _ :: evs => last ≤ nowMs ∧ clockOrdered nowMs evs
  | _ :: evs => clockOrdered last evs
  end.

(** The three timestamps of the global counters lie in order before the
    reading [last]. *)
Definition stampsOrdered (last : Z) (g : GlobalStats) : Prop :=
  prevSecStartMs g ≤ currentSecStartMs g ≤ last
  ∧ currentMinStartMs g ≤ last.

(** * Properties *)

(** Case analysis on every test [if b then _ else _] of the goal, running
    [tac] after each case split. *)
Ltac each_test tac :=
  repeat match goal with
         | |- context [if ?b then _ else _] => destruct b; tac
         end.

(** Case analysis on the integer comparisons of the goal. *)
Ltac each_comparison :=
  repeat match goal with
         | |- context [Z.geb ?a ?b] => destruct (Z.geb_spec a b); try lia
         | |- context [Z.ltb ?a ?b] => destruct (Z.ltb_spec a b); try lia
         | |- context [Z.eqb ?a ?b] => destruct (Z.eqb_spec a b); try lia
         end.

(** ** The slot array *)

Lemma arraySet_length (arr : list (option string)) (i : nat) (v : option string) :
  length (arraySet arr i v) = Nat.max (length arr) (S i).
Proof.
  unfold arraySet. case_decide.
  - rewrite length_insert. lia.
  - rewrite !length_app, length_replicate. simpl. lia.
Qed.

Lemma arraySet_lookup (arr : list (option string)) (i : nat) (v : option string) :
  arraySet arr i v !! i = Some v.
Proof.
  unfold arraySet. case_decide.
  - now apply list_lookup_insert_eq.
  - rewrite app_assoc. apply list_lookup_middle.
    rewrite length_app, length_replicate. lia.
Qed.

Lemma arraySet_lookup_ne (arr : list (option string)) (i j : nat)
    (v w : option string) :
  i ≠ j → arr !! j = Some w → arraySet arr i v !! j = Some w.
Proof.
  intros Hne Hj. unfold arraySet. case_decide.
  - now rewrite list_lookup_insert_ne.
  - now apply lookup_app_l_Some.
Qed.

(** Writing a slot keeps every address held by another slot. *)
Lemma arraySet_elem (arr : list (option string)) (i : nat) (v : option string)
    (a : string) :
  Some a ∈ arr → arrayGet arr i ≠ Some a → Some a ∈ arraySet arr i v.
Proof.
  intros [j Hj]%list_elem_of_lookup Hi.
  apply list_elem_of_lookup. exists j.
  apply arraySet_lookup_ne; [|done].
  intros ->. apply Hi. unfold arrayGet. now rewrite Hj.
Qed.

(** ** The middleware, step by step *)

Lemma getOrCreate_globalStats (a : string) (e : Engine) (nowMs : Z) (rnd : nat → Q) :
  globalStats (getOrCreate a e nowMs rnd).1 = globalStats e.
Proof. unfold getOrCreate. now destruct (ipData e !! a). Qed.

(** What one pass through the checks does to the global counters: a 429
    answer counts one rejection, an admission counts one request. *)
Lemma admission_globalStats (o : Options) (e : Engine) (h : nat) (nowMs : Z) :
  globalStats (admission o e h nowMs).1
  = if accepted (admission o e h nowMs).2
    then countGlobal (points (heap e !!! h) <? 0) (globalStats e)
    else set_rateLimited429InCurrentMin
           (rateLimited429InCurrentMin (globalStats e) + 1) (globalStats e).
Proof.
  unfold admission, reject, createRateLimitResponse.
  each_test ltac:(simpl; try reflexivity).
Qed.

Lemma middleware_globalStats (o : Options) (e : Engine) (nowMs : Z)
    (req : Request) (rnd : nat → Q) :
  ∃ negative : bool,
    globalStats (middleware o e nowMs req rnd).1
    = if accepted (middleware o e nowMs req rnd).2
      then countGlobal negative (updateGlobalStats (globalStats e) nowMs)
      else set_rateLimited429InCurrentMin
             (rateLimited429InCurrentMin (updateGlobalStats (globalStats e) nowMs) + 1)
             (updateGlobalStats (globalStats e) nowMs).
Proof.
  unfold middleware.
  pose proof (getOrCreate_globalStats (getClientIp req)
    (with_globalStats (updateGlobalStats (globalStats e) nowMs) e) nowMs rnd) as Hg.
  destruct (getOrCreate _ _ _ _) as [e1 h]. simpl in Hg.
  eexists. rewrite admission_globalStats. simpl. rewrite Hg. reflexivity.
Qed.

Lemma admission_table (o : Options) (e : Engine) (h : nat) (nowMs : Z) :
  monitoredIps (admission o e h nowMs).1 = monitoredIps e
  ∧ ipData (admission o e h nowMs).1 = ipData e.
Proof.
  unfold admission, reject, createRateLimitResponse.
  each_test ltac:(simpl; try done).
Qed.

(** Every way out of the checks that is not an admission goes through
    [createRateLimitResponse]. *)
Lemma admission_rejected (o : Options) (e : Engine) (h : nat) (nowMs : Z)
    (r : Response) :
  (admission o e h nowMs).2 = Rejected r →
  ∃ why, (admission o e h nowMs).1
         = with_globalStats (createRateLimitResponse o (globalStats e) why).1 e
         ∧ r = (createRateLimitResponse o (globalStats e) why).2.
Proof.
  unfold admission, reject.
  each_test idtac; simpl; intros [= <-]; eexists; split; reflexivity.
Qed.

(** A rejected call answers with what [createRateLimitResponse] builds. *)
Lemma middleware_rejected (o : Options) (e : Engine) (nowMs : Z)
    (req : Request) (rnd : nat → Q) (r : Response) :
  (middleware o e nowMs req rnd).2 = Rejected r →
  ∃ g why, r = (createRateLimitResponse o g why).2.
Proof.
  unfold middleware. destruct (getOrCreate _ _ _ _) as [e1 h].
  intros (why & _ & ->)%admission_rejected. by eexists _, _.
Qed.

(** A request is admitted exactly when none of the four checks fires: the
    global rate check, the check of the global rate of negative addresses,
    the per-address rate check and the connection check. *)
Lemma rejection_paths (o : Options) (e : Engine) (h : nat) (nowMs : Z) :
  let d := heap e !!! h in
  let g := globalStats e in
  let globalRate :=
    (maxRequestRatePerSec o >? 0)
    && Qgeb (calculateCurrentReqPerSec g nowMs) (inject_Z (maxRequestRatePerSec o)) in
  let negativeRate :=
    (maxRequestNegativeIPperSec o >? 0) && (points d <? 0)
    && (negativeReqInCurrentSec g >=? maxRequestNegativeIPperSec o) in
  let addressRate :=
    Qgeb (calculate10SecReqPerSec d)
         (inject_Z (if points d >=? 0 then maxReqPerSecPerIP o
                    else maxReqNegativePerSecPerIP o)) in
  let connectionLimit :=
    connections d >=? calculateMaxConnections (points d) o in
  accepted (admission o e h nowMs).2
  = negb (globalRate || negativeRate || addressRate || connectionLimit).
Proof.
  intros d g globalRate negativeRate addressRate connectionLimit.
  unfold admission, reject. fold d g. fold globalRate negativeRate.
  destruct globalRate; [reflexivity|].
  destruct negativeRate; [reflexivity|].
  fold addressRate. destruct addressRate; [reflexivity|].
  fold connectionLimit. now destruct connectionLimit.
Qed.

Lemma admission_entry (o : Options) (e : Engine) (h : nat) (nowMs : Z)
    (h' : nat) (s : Q) :
  (admission o e h nowMs).2 = Accepted h' s →
  h' = h ∧ heap (admission o e h nowMs).1 = alter countEntry h (heap e).
Proof.
  unfold admission, reject.
  each_test idtac; simpl; intros [= <- _]; done.
Qed.

Lemma admission_heap_length (o : Options) (e : Engine) (h : nat) (nowMs : Z) :
  length (heap (admission o e h nowMs).1) = length (heap e).
Proof.
  unfold admission, reject.
  each_test idtac; simpl; try done; apply length_alter.
Qed.

(** An admitted request is delayed by [calculateSlowdown] of the score of its
    record, which had fewer open connections than [calculateMaxConnections]
    of that score allows. *)
Lemma admission_curve (o : Options) (e : Engine) (h : nat) (nowMs : Z)
    (h' : nat) (s : Q) :
  (admission o e h nowMs).2 = Accepted h' s →
  s = calculateSlowdown (points (heap e !!! h)) o
  ∧ connections (heap e !!! h) < calculateMaxConnections (points (heap e !!! h)) o.
Proof.
  unfold admission, reject.
  destruct (_ && Qgeb _ _); [discriminate|].
  destruct (_ && _ && _); [discriminate|].
  destruct (Qgeb _ _); [discriminate|].
  destruct (Z.geb_spec (connections (heap e !!! h))
              (calculateMaxConnections (points (heap e !!! h)) o));
    [discriminate|].
  simpl. intros [= _ <-]. split; [reflexivity|lia].
Qed.

(** A call for an address that has a record works on that record. *)
Lemma middleware_known (o : Options) (e : Engine) (nowMs : Z) (req : Request)
    (rnd : nat → Q) (h : nat) :
  ipData e !! getClientIp req = Some h →
  middleware o e nowMs req rnd
  = admission o
      (with_heap (alter (touch nowMs) h (heap e))
                 (with_globalStats (updateGlobalStats (globalStats e) nowMs) e))
      h nowMs.
Proof.
  intros Hh. unfold middleware, getOrCreate. simpl. now rewrite Hh.
Qed.

(** After a call the address of the request has a record, the one the
    request was admitted with if it was admitted. *)
Lemma middleware_entry (o : Options) (e : Engine) (nowMs : Z) (req : Request)
    (rnd : nat → Q) :
  ∃ h, ipData (middleware o e nowMs req rnd).1 !! getClientIp req = Some h
       ∧ ∀ h' s, (middleware o e nowMs req rnd).2 = Accepted h' s → h' = h.
Proof.
  unfold middleware.
  set (e0 := with_globalStats _ e).
  destruct (getOrCreate (getClientIp req) e0 nowMs rnd) as [e1 h] eqn:Hgoc.
  exists h. split.
  - destruct (admission_table o (with_heap (alter (touch nowMs) h (heap e1)) e1)
                h nowMs) as [_ ->]. simpl.
    unfold getOrCreate in Hgoc.
    destruct (ipData e0 !! getClientIp req) eqn:Hh.
    + now injection Hgoc as <- <-.
    + injection Hgoc as <- <-. simpl. apply lookup_insert_eq.
  - intros h' s Hadm. now apply admission_entry in Hadm.
Qed.

(** The checks, as [middleware] runs them. *)
Lemma middleware_admission (o : Options) (e : Engine) (nowMs : Z)
    (req : Request) (rnd : nat → Q) :
  ∃ e2 h,
    middleware o e nowMs req rnd = admission o e2 h nowMs
    ∧ globalStats e2 = updateGlobalStats (globalStats e) nowMs
    ∧ (ipData e !! getClientIp req = None →
       heap e2 !!! h = newIpData (getClientIp req) (index (heap e2 !!! h)) nowMs).
Proof.
  unfold middleware.
  set (e0 := with_globalStats _ e).
  pose proof (getOrCreate_globalStats (getClientIp req) e0 nowMs rnd) as Hg.
  destruct (getOrCreate (getClientIp req) e0 nowMs rnd) as [e1 h] eqn:Hgoc.
  eexists _, h. split; [reflexivity|]. split; [exact Hg|].
  intros Hnone. unfold getOrCreate in Hgoc. simpl in Hgoc. rewrite Hnone in Hgoc.
  injection Hgoc as <- <-. simpl.
  rewrite alter_app_r_alt by lia. rewrite Nat.sub_diag. simpl.
  rewrite lookup_total_app_r by lia. rewrite Nat.sub_diag. simpl.
  unfold touch, updateTimeWindows, updateMinuteWindow, update10SecWindow. simpl.
  now rewrite !Z.eqb_refl.
Qed.

Lemma touch_frame (nowMs : Z) (d : IpData) :
  points (touch nowMs d) = points d
  ∧ connections (touch nowMs d) = connections d.
Proof.
  unfold touch, updateTimeWindows, update10SecWindow, updateMinuteWindow.
  now repeat destruct (negb _).
Qed.

(** The references of the map stay inside the store. *)
Lemma step_referenced (o : Options) (e : Engine) (ev : Event) :
  referenced e → referenced (step o e ev).
Proof.
  intros Href. destruct ev as [nowMs req rnd|h statusCode|ipOrReq pts]; simpl.
  - unfold middleware.
    set (e0 := with_globalStats _ e).
    destruct (getOrCreate (getClientIp req) e0 nowMs rnd) as [e1 h] eqn:Hgoc.
    set (e2 := with_heap _ e1).
    assert (Href1 : referenced e1).
    { unfold getOrCreate in Hgoc.
      destruct (ipData e0 !! getClientIp req).
      - injection Hgoc as <- _. exact Href.
      - injection Hgoc as <- _. intros a k. simpl. rewrite length_app. simpl.
        destruct (decide (getClientIp req = a)) as [->|Hne].
        + rewrite lookup_insert_eq. intros [= <-]. lia.
        + rewrite lookup_insert_ne by done. intros Hk.
          assert (ipData e !! a = Some k) as Hk'.
          { destruct (arrayGet _ _) as [old|]; [|done].
            destruct (truthy _); [|done].
            apply lookup_delete_Some in Hk. tauto. }
          apply Href in Hk'. lia. }
    intros a k. destruct (admission_table o e2 h nowMs) as [_ ->].
    rewrite admission_heap_length. subst e2. simpl. rewrite length_alter.
    apply Href1.
  - intros a k. unfold sendHook. simpl. rewrite length_alter. apply Href.
  - unfold addPointsToIp. destruct (ipData e !! _); simpl; [|exact Href].
    intros a k. simpl. rewrite length_alter. apply Href.
Qed.

Lemma run_referenced (o : Options) (evs : list Event) (e : Engine) :
  referenced e → referenced (run o e evs).
Proof.
  revert e. induction evs as [|ev evs IH]; intros e Href; [exact Href|].
  apply IH, step_referenced, Href.
Qed.

Lemma createPlastron_referenced (o : Options) (t1 t2 t3 : Z) (e : Engine) :
  createPlastron o t1 t2 t3 = Some e → referenced e.
Proof.
  unfold createPlastron. destruct (String.eqb _ _); [done|].
  intros [= <-] a h. simpl. by rewrite lookup_empty.
Qed.

Lemma getOrCreate_entry (a : string) (e : Engine) (nowMs : Z) (rnd : nat → Q)
    (e1 : Engine) (h : nat) :
  referenced e → getOrCreate a e nowMs rnd = (e1, h) →
  ipData e1 !! a = Some h ∧ (h < length (heap e1))%nat.
Proof.
  intros Href. unfold getOrCreate.
  destruct (ipData e !! a) as [h0|] eqn:Hh.
  - intros [= <- <-]. split; [exact Hh|]. eapply Href, Hh.
  - intros [= <- <-]. simpl. split; [apply lookup_insert_eq|].
    rewrite length_app. simpl. lia.
Qed.

(** The record of an admitted request after the call is the record the
    checks saw with its counters incremented. *)
Lemma middleware_accepted (o : Options) (e : Engine) (nowMs : Z) (req : Request)
    (rnd : nat → Q) (h : nat) (s : Q) :
  referenced e →
  (middleware o e nowMs req rnd).2 = Accepted h s →
  ∃ d, getIpData (middleware o e nowMs req rnd).1 (getClientIp req)
       = Some (countEntry d)
       ∧ s = calculateSlowdown (points d) o
       ∧ connections d < calculateMaxConnections (points d) o.
Proof.
  intros Href. unfold middleware.
  set (e0 := with_globalStats _ e).
  destruct (getOrCreate (getClientIp req) e0 nowMs rnd) as [e1 h1] eqn:Hgoc.
  apply getOrCreate_entry in Hgoc as [Hh Hlt]; [|exact Href].
  set (e2 := with_heap _ e1). intros Hadm.
  destruct (admission_curve o e2 h1 nowMs h s Hadm) as [Hs Hc].
  destruct (admission_table o e2 h1 nowMs) as [_ Hmap].
  apply admission_entry in Hadm as [-> Hheap].
  exists (heap e2 !!! h1). split; [|done].
  unfold getIpData. rewrite Hmap, Hheap. subst e2. simpl. rewrite Hh. simpl.
  rewrite list_lookup_alter_eq.
  rewrite list_lookup_lookup_total_lt by (rewrite length_alter; exact Hlt).
  reflexivity.
Qed.

(** ** Punishment curve (§4.4) *)

Lemma slowdownRatio_saturated (o : Options) (pts : Z) :
  ipSlowDownMaxPunishmentAt o < ipSlowDownStartsAt o →
  pts ≤ ipSlowDownMaxPunishmentAt o →
  (slowdownRatio pts o == 1)%Q.
Proof.
  intros Hrange Hpts. unfold slowdownRatio.
  destruct (Z.eqb_spec (ipSlowDownStartsAt o - ipSlowDownMaxPunishmentAt o) 0)
    as [E|_]; [lia|].
  apply Q.min_l. rewrite Z.max_r by lia.
  apply Qle_shift_div_l.
  - change 0%Q with (inject_Z 0). rewrite <- Zlt_Qlt. lia.
  - rewrite Qmult_1_l, <- Zle_Qle. lia.
Qed.

Lemma calculateMaxConnections_baseCap (o : Options) (pts : Z) :
  pts < ipSlowDownStartsAt o →
  calculateMaxConnections pts o
  = Z.max 1 (Qfloor (inject_Z (baseCap pts o) * (1 - slowdownRatio pts o))).
Proof.
  intros Hpts. unfold calculateMaxConnections, baseCap.
  destruct (Z.geb_spec pts (ipSlowDownStartsAt o)); [lia|reflexivity].
Qed.

Lemma calculateSlowdown_below (o : Options) (pts : Z) :
  pts < ipSlowDownStartsAt o →
  calculateSlowdown pts o
  = Qmax 100 (slowdownRatio pts o * inject_Z (ipSlowDownMaxS o)).
Proof.
  intros Hpts. unfold calculateSlowdown.
  destruct (Z.geb_spec pts (ipSlowDownStartsAt o)); [lia|reflexivity].
Qed.

(** C1.  [ipSlowDownMaxS] is the longest delay ("the max duration of slowing
    down"), reached at a score of [ipSlowDownMaxPunishmentAt].  With a
    ceiling below 100 ms the code does not keep to it: for a score at or
    below [ipSlowDownMaxPunishmentAt] the ratio is exactly 1 and
    [Math.max(100, 1 * ipSlowDownMaxS)] is 100, more than the ceiling; and a
    request of a tracked address with such a score, if it is admitted, is
    delayed by these 100 ms. *)
Theorem saturated_delay_exceeds_ceiling (o : Options) (pts : Z) :
  ipSlowDownMaxPunishmentAt o < ipSlowDownStartsAt o →
  ipSlowDownMaxS o < 100 →
  pts ≤ ipSlowDownMaxPunishmentAt o →
  (calculateSlowdown pts o == 100)%Q
  ∧ (inject_Z (ipSlowDownMaxS o) < calculateSlowdown pts o)%Q
  ∧ ∀ (e : Engine) (nowMs : Z) (req : Request) (rnd : nat → Q)
      (h : nat) (d : IpData) (h' : nat) (s : Q),
      ipData e !! getClientIp req = Some h →
      heap e !! h = Some d →
      points d = pts →
      (middleware o e nowMs req rnd).2 = Accepted h' s →
      (s == 100)%Q.
Proof.
  intros Hrange Hceil Hpts.
  assert (Hdelay : (calculateSlowdown pts o == 100)%Q).
  { rewrite calculateSlowdown_below by lia.
    rewrite (slowdownRatio_saturated o pts Hrange Hpts), Qmult_1_l.
    apply Q.max_l. change 100%Q with (inject_Z 100). rewrite <- Zle_Qle. lia. }
  split; [exact Hdelay|]. split.
  - rewrite Hdelay. change 100%Q with (inject_Z 100). now rewrite <- Zlt_Qlt.
  - intros e nowMs req rnd h d h' s Hh Hd Hp Hadm.
    rewrite (middleware_known o e nowMs req rnd h Hh) in Hadm.
    apply admission_curve in Hadm as [-> _].
    cbn [heap with_heap with_globalStats].
    rewrite (list_lookup_total_correct _ h (touch nowMs d))
      by now rewrite list_lookup_alter_eq, Hd.
    destruct (touch_frame nowMs d) as [-> _]. now rewrite Hp.
Qed.

(** A ceiling of 50 ms and a score of exactly [ipSlowDownMaxPunishmentAt]:
    the request of the address of [punishedEngine] is admitted and delayed
    by 100 ms. *)
Lemma saturated_delay_exceeds_ceiling_witness :
  (calculateSlowdown (-500000) shortCeiling == 100)%Q
  ∧ (inject_Z (ipSlowDownMaxS shortCeiling)
     < calculateSlowdown (-500000) shortCeiling)%Q
  ∧ ∃ s, (middleware shortCeiling punishedEngine 1000000
                     (requestFrom "192.168.1.1") zeroDraws).2 = Accepted 0 s
         ∧ (s == 100)%Q.
Proof.
  destruct (saturated_delay_exceeds_ceiling shortCeiling (-500000))
    as (Hdelay & Hgt & Hreq); [simpl; lia..|].
  split; [exact Hdelay|]. split; [exact Hgt|].
  exists (calculateSlowdown (-500000) shortCeiling).
  assert (Hadm : (middleware shortCeiling punishedEngine 1000000
                             (requestFrom "192.168.1.1") zeroDraws).2
                 = Accepted 0 (calculateSlowdown (-500000) shortCeiling)).
  { vm_compute. reflexivity. }
  split; [exact Hadm|].
  exact (Hreq punishedEngine 1000000 (requestFrom "192.168.1.1") zeroDraws
              0%nat _ 0%nat _ eq_refl eq_refl eq_refl Hadm).
Defined.

(** ** Window tracker (§4.1) *)

Lemma updateTimeWindows_minute (d : IpData) (nowMs : Z) :
  reqInCurrentMin (updateTimeWindows d nowMs)
  = reqInCurrentMin (updateMinuteWindow d nowMs)
  ∧ reqInPrevMin (updateTimeWindows d nowMs)
    = reqInPrevMin (updateMinuteWindow d nowMs).
Proof.
  unfold updateTimeWindows, update10SecWindow.
  now destruct (negb _).
Qed.

Lemma updateMinuteWindow_frame (d : IpData) (nowMs : Z) :
  lastSeenMs (updateMinuteWindow d nowMs) = lastSeenMs d
  ∧ reqInCurrent10Sec (updateMinuteWindow d nowMs) = reqInCurrent10Sec d
  ∧ reqInPrev10Sec (updateMinuteWindow d nowMs) = reqInPrev10Sec d.
Proof. unfold updateMinuteWindow. now destruct (negb _). Qed.

Lemma updateTimeWindows_10Sec (d : IpData) (nowMs : Z) :
  reqInCurrent10Sec (updateTimeWindows d nowMs)
  = reqInCurrent10Sec (update10SecWindow d nowMs)
  ∧ reqInPrev10Sec (updateTimeWindows d nowMs)
    = reqInPrev10Sec (update10SecWindow d nowMs).
Proof.
  destruct (updateMinuteWindow_frame d nowMs) as (Hseen & Hcur & Hprev).
  unfold updateTimeWindows, update10SecWindow.
  rewrite Hseen. destruct (negb _); simpl; [|done].
  now rewrite Hcur.
Qed.

(** C2.  In a per-address window update, for the minute window and for the
    10-second window alike: when the boundary of the new timestamp is the
    boundary of [lastSeenMs] plus one, the previous counter takes the value
    the current counter had; when it is larger than that, the previous
    counter becomes 0; in both cases the current counter becomes 0; when the
    boundary is the same, both counters keep their values. *)
Theorem updateTimeWindows_rollover (d : IpData) (nowMs : Z) :
  let d' := updateTimeWindows d nowMs in
  ((boundary 60000 nowMs = boundary 60000 (lastSeenMs d) + 1 →
      reqInPrevMin d' = reqInCurrentMin d ∧ reqInCurrentMin d' = 0)
   ∧ (boundary 60000 nowMs > boundary 60000 (lastSeenMs d) + 1 →
      reqInPrevMin d' = 0 ∧ reqInCurrentMin d' = 0)
   ∧ (boundary 60000 nowMs = boundary 60000 (lastSeenMs d) →
      reqInPrevMin d' = reqInPrevMin d ∧ reqInCurrentMin d' = reqInCurrentMin d))
  ∧ ((boundary 10000 nowMs = boundary 10000 (lastSeenMs d) + 1 →
      reqInPrev10Sec d' = reqInCurrent10Sec d ∧ reqInCurrent10Sec d' = 0)
   ∧ (boundary 10000 nowMs > boundary 10000 (lastSeenMs d) + 1 →
      reqInPrev10Sec d' = 0 ∧ reqInCurrent10Sec d' = 0)
   ∧ (boundary 10000 nowMs = boundary 10000 (lastSeenMs d) →
      reqInPrev10Sec d' = reqInPrev10Sec d
      ∧ reqInCurrent10Sec d' = reqInCurrent10Sec d)).
Proof.
  intros d'. subst d'.
  destruct (updateTimeWindows_minute d nowMs) as [-> ->].
  destruct (updateTimeWindows_10Sec d nowMs) as [-> ->].
  unfold updateMinuteWindow, update10SecWindow.
  split; (split; [|split]); intros Hb;
    each_comparison; simpl; auto.
Qed.

(** The three cases on [busyRecord]: one minute (and several 10-second
    periods) later, five seconds later (one 10-second period, same minute),
    200 seconds later, and at the same instant. *)
Lemma updateTimeWindows_rollover_witness :
  (reqInPrevMin (updateTimeWindows busyRecord 1060000) = 3
   ∧ reqInCurrentMin (updateTimeWindows busyRecord 1060000) = 0)
  ∧ (reqInPrev10Sec (updateTimeWindows busyRecord 1005000) = 2
     ∧ reqInCurrent10Sec (updateTimeWindows busyRecord 1005000) = 0)
  ∧ (reqInPrevMin (updateTimeWindows busyRecord 1200000) = 0
     ∧ reqInCurrentMin (updateTimeWindows busyRecord 1200000) = 0)
  ∧ (reqInPrev10Sec (updateTimeWindows busyRecord 1200000) = 0
     ∧ reqInCurrent10Sec (updateTimeWindows busyRecord 1200000) = 0)
  ∧ (reqInPrevMin (updateTimeWindows busyRecord 1000000) = 7
     ∧ reqInCurrentMin (updateTimeWindows busyRecord 1000000) = 3)
  ∧ (reqInPrev10Sec (updateTimeWindows busyRecord 1000000) = 5
     ∧ reqInCurrent10Sec (updateTimeWindows busyRecord 1000000) = 2).
Proof.
  destruct (updateTimeWindows_rollover busyRecord 1060000)
    as ((Hmin1 & _ & _) & _).
  destruct (updateTimeWindows_rollover busyRecord 1005000)
    as (_ & (Hten1 & _ & _)).
  destruct (updateTimeWindows_rollover busyRecord 1200000)
    as ((_ & HminGap & _) & (_ & HtenGap & _)).
  destruct (updateTimeWindows_rollover busyRecord 1000000)
    as ((_ & _ & HminSame) & (_ & _ & HtenSame)).
  split; [apply Hmin1; reflexivity|].
  split; [apply Hten1; reflexivity|].
  split; [apply HminGap; reflexivity|].
  split; [apply HtenGap; reflexivity|].
  split; [apply HminSame; reflexivity|].
  apply HtenSame; reflexivity.
Defined.

(** ** Global counters *)

(** C3.  The rule of the windows asks for a previous counter of 0 once more
    than one period has elapsed.  [updateGlobalStats] has no such case,
    unlike [updateTimeWindows]: when the second of the new request lies more
    than one second after those of [prevSecStartMs] and [currentSecStartMs],
    the previous-second counter takes the count of the current second
    instead of 0; when its minute lies more than one minute after that of
    [currentMinStartMs], the previous-minute counters of requests and of 429
    answers take the counts of the current minute instead of 0.  The record
    of an address that is rolled over such a gap gets 0, as the rule says. *)
Theorem global_idle_gap_carried (g : GlobalStats) (d : IpData) (nowMs : Z) :
  (boundary 1000 (prevSecStartMs g) + 1 < boundary 1000 nowMs →
   boundary 1000 (currentSecStartMs g) + 1 < boundary 1000 nowMs →
   reqInPrevSec (updateGlobalStats g nowMs) = reqInCurrentSec g
   ∧ reqInCurrentSec (updateGlobalStats g nowMs) = 0)
  ∧ (boundary 60000 (currentMinStartMs g) + 1 < boundary 60000 nowMs →
     gReqInPrevMin (updateGlobalStats g nowMs) = gReqInCurrentMin g
     ∧ rateLimited429InPrevMin (updateGlobalStats g nowMs)
       = rateLimited429InCurrentMin g
     ∧ gReqInCurrentMin (updateGlobalStats g nowMs) = 0)
  ∧ (boundary 60000 (lastSeenMs d) + 1 < boundary 60000 nowMs →
     reqInPrevMin (updateTimeWindows d nowMs) = 0
     ∧ reqInCurrentMin (updateTimeWindows d nowMs) = 0).
Proof.
  split; [|split].
  - intros Hprev _.
    unfold updateGlobalStats, updateGlobalMin, updateGlobalSec.
    destruct (Z.eqb_spec (boundary 1000 nowMs) (boundary 1000 (prevSecStartMs g)));
      [lia|].
    cbn [negb]. now destruct (negb _).
  - intros Hmin.
    assert (E : currentMinStartMs (updateGlobalSec g nowMs) = currentMinStartMs g
                ∧ gReqInCurrentMin (updateGlobalSec g nowMs) = gReqInCurrentMin g
                ∧ rateLimited429InCurrentMin (updateGlobalSec g nowMs)
                  = rateLimited429InCurrentMin g).
    { unfold updateGlobalSec. now destruct (negb _). }
    destruct E as (Estart & Ecur & E429).
    unfold updateGlobalStats, updateGlobalMin. rewrite Estart.
    destruct (Z.eqb_spec (boundary 60000 nowMs)
                         (boundary 60000 (currentMinStartMs g))); [lia|].
    cbn [negb gReqInPrevMin rateLimited429InPrevMin gReqInCurrentMin]. done.
  - intros Hgap.
    unfold updateTimeWindows, updateMinuteWindow, update10SecWindow.
    destruct (Z.eqb_spec (boundary 60000 nowMs) (boundary 60000 (lastSeenMs d)));
      [lia|].
    destruct (Z.eqb_spec (boundary 60000 nowMs)
                         (boundary 60000 (lastSeenMs d) + 1)); [lia|].
    cbn [negb]. now destruct (negb _).
Qed.

(** Five requests of one address are admitted at 1000000 ms and its next
    request arrives 200 seconds later: the global counters of the previous
    second and of the previous minute are 5, the previous-minute counter of
    the record of the address is 0. *)
Lemma global_idle_gap_carried_witness :
  let e' := step (defaultOptions "busy") afterFive
              (Arrive 1200000 (requestFrom "192.168.1.1") zeroDraws) in
  reqInCurrentSec (globalStats afterFive) = 5
  ∧ gReqInCurrentMin (globalStats afterFive) = 5
  ∧ reqInPrevSec (globalStats e') = 5
  ∧ gReqInPrevMin (globalStats e') = 5
  ∧ ∃ d', getIpData e' "192.168.1.1" = Some d' ∧ reqInPrevMin d' = 0.
Proof.
  intros e'.
  pose (g5 := {| reqInCurrentSec := 5; reqInPrevSec := 0;
                 prevSecStartMs := 1000000; currentSecStartMs := 1000000;
                 negativeReqInCurrentSec := 0;
                 gReqInCurrentMin := 5; gReqInPrevMin := 0;
                 rateLimited429InCurrentMin := 0; rateLimited429InPrevMin := 0;
                 currentMinStartMs := 1000000 |}).
  pose (d5 := {| ip := "192.168.1.1"; index := 0; lastSeenMs := 1000000;
                 points := 0; connections := 5;
                 reqInCurrentMin := 5; reqInPrevMin := 0;
                 reqInCurrent10Sec := 5; reqInPrev10Sec := 0 |}).
  assert (Hg5 : globalStats afterFive = g5) by (vm_compute; reflexivity).
  assert (Hg' : globalStats e' = countGlobal false (updateGlobalStats g5 1200000))
    by (vm_compute; reflexivity).
  assert (Hd' : getIpData e' "192.168.1.1"
                = Some (countEntry (touch 1200000 d5)))
    by (vm_compute; reflexivity).
  destruct (global_idle_gap_carried g5 d5 1200000) as (Hsec & Hmin & Hrec).
  destruct Hsec as [Hsec _]; [vm_compute; reflexivity..|].
  destruct Hmin as (Hmin & _ & _); [vm_compute; reflexivity|].
  destruct Hrec as [Hrec _]; [vm_compute; reflexivity|].
  rewrite Hg5, Hg'. clearbody e'. clear Hg5 Hg'.
  split; [reflexivity|]. split; [reflexivity|].
  split; [exact Hsec|]. split; [exact Hmin|].
  exists (countEntry (touch 1200000 d5)). split; [exact Hd'|].
  exact Hrec.
Defined.

(** ** Reputation table (§4.2) *)

Lemma protected_spec (data : IpData) (nowMs : Z) :
  protected data nowMs
  ↔ negb (isInPreferredRange data) || negb (isRecentlyActive data nowMs) = false.
Proof.
  unfold protected, isInPreferredRange, isRecentlyActive.
  destruct (Z.geb_spec (points data) (-50000)),
           (Z.leb_spec (points data) 50000),
           (Z.ltb_spec (nowMs - lastSeenMs data) 300000); simpl;
    split; intros; try done; lia.
Qed.

(** The last round of the loop returns its probe whatever it finds. *)
Lemma findEvictableLoop_final (e : Engine) (nowMs : Z) (rnd : nat → Q) :
  findEvictableLoop 1 1 e nowMs rnd
  = drawIndex (rnd 1%nat) (length (monitoredIps e)).
Proof.
  simpl. destruct (negb (truthy _)); [done|].
  destruct (_ ≫= _); [|done].
  now rewrite orb_true_r.
Qed.

(** C4.  An unseen address is written into the slot that
    [findEvictableIndex] returns, and that slot is found with at most two
    probes, the draws [rnd 0] and [rnd 1].  The first probed slot is used
    when it is empty or its occupant has no record in the lookup map, and
    when the score of its occupant lies outside [-50000, 50000] or the
    occupant was not seen within the last 300000 ms.  When the first occupant
    is protected (score inside the band and seen within the window), it is
    skipped and the second probe, the final attempt, is used whatever that
    slot holds. *)
Theorem findEvictableIndex_policy (e : Engine) (nowMs : Z) (rnd : nat → Q) :
  let size := length (monitoredIps e) in
  let first := drawIndex (rnd 0%nat) size in
  let second := drawIndex (rnd 1%nat) size in
  (∀ a, let r := addIpToMonitoring a e nowMs rnd in
        monitoredIps r.1 !! findEvictableIndex e nowMs rnd = Some (Some a)
        ∧ heap r.1 !! r.2
          = Some (newIpData a (findEvictableIndex e nowMs rnd) nowMs))
  ∧ (slotRecord e first = None → findEvictableIndex e nowMs rnd = first)
  ∧ (∀ data, slotRecord e first = Some data →
       (points data < -50000 ∨ 50000 < points data
        ∨ 300000 ≤ nowMs - lastSeenMs data) →
       findEvictableIndex e nowMs rnd = first)
  ∧ (∀ data, slotRecord e first = Some data → protected data nowMs →
       findEvictableIndex e nowMs rnd = second).
Proof.
  intros size first second.
  split.
  { intros a r. subst r. unfold addIpToMonitoring. simpl. split.
    - apply arraySet_lookup.
    - apply list_lookup_middle. reflexivity. }
  unfold findEvictableIndex, maxAttempts.
  change (findEvictableLoop 2 0 e nowMs rnd) with
    (let randomIndex := first in
     let a := arrayGet (monitoredIps e) randomIndex in
     if negb (truthy a) then randomIndex
     else match a ≫= λ s, ipData e !! s with
          | None => randomIndex
          | Some h =>
            let data := heap e !!! h in
            if negb (isInPreferredRange data) || negb (isRecentlyActive data nowMs)
               || false
            then randomIndex
            else findEvictableLoop 1 1 e nowMs rnd
          end).
  rewrite findEvictableLoop_final. fold size. fold second.
  unfold slotRecord. cbv zeta.
  destruct (truthy (arrayGet (monitoredIps e) first)); simpl; [|by auto].
  destruct (arrayGet (monitoredIps e) first ≫= λ s, ipData e !! s) as [h|];
    simpl; [|by repeat split; intros; try done].
  rewrite orb_false_r.
  split; [done|split]; intros data [= <-] Hdata.
  - destruct (negb _ || negb _) eqn:E; [done|].
    apply protected_spec in E. unfold protected in E. lia.
  - apply protected_spec in Hdata. now rewrite Hdata.
Qed.

(** The three cases: an empty table; the table of [afterFive], whose slot 0
    holds an address with score 0 seen at 1000000 ms, probed five minutes
    later, and probed one millisecond later with second draw 1/2. *)
Lemma findEvictableIndex_policy_witness :
  findEvictableIndex freshEngine 1000000 zeroDraws = 0%nat
  ∧ findEvictableIndex afterFive 1300000 zeroDraws = 0%nat
  ∧ findEvictableIndex afterFive 1000001 zeroThenHalf = 500%nat.
Proof.
  split; [|split].
  - destruct (findEvictableIndex_policy freshEngine 1000000 zeroDraws)
      as (_ & Hempty & _).
    apply Hempty. reflexivity.
  - destruct (findEvictableIndex_policy afterFive 1300000 zeroDraws)
      as (_ & _ & Hstale & _).
    apply (Hstale (heap afterFive !!! 0%nat)).
    + reflexivity.
    + right; right. vm_compute. discriminate.
  - destruct (findEvictableIndex_policy afterFive 1000001 zeroThenHalf)
      as (_ & _ & _ & Hskip).
    apply (Hskip (heap afterFive !!! 0%nat)).
    + reflexivity.
    + vm_compute. repeat split; discriminate.
Defined.

(** ** Scoring (§4.3) *)

(** The score of a record changes by the points of the status plus the
    penalty for excessive use, computed from the record as it is when the
    response is sent. *)
Lemma score_points (o : Options) (statusCode : Z) (d : IpData) :
  points (score o statusCode d)
  = points d + (calculatePoints statusCode o + checkExcessiveUsage d o).
Proof. reflexivity. Qed.

(** [calculatePoints] classifies the status in this order: 2xx, 3xx, 400,
    401, 404, any other 4xx, 5xx, anything else 0; so 400, 401 and 404 get
    their own points although they lie in the 4xx range. *)
Lemma calculatePoints_order (o : Options) (statusCode : Z) :
  (200 ≤ statusCode < 300 → calculatePoints statusCode o = pointsFor20x o)
  ∧ (300 ≤ statusCode < 400 → calculatePoints statusCode o = pointsFor30x o)
  ∧ calculatePoints 400 o = pointsFor400 o
  ∧ calculatePoints 401 o = pointsFor401 o
  ∧ calculatePoints 404 o = pointsFor404 o
  ∧ (400 ≤ statusCode < 500 →
     statusCode ≠ 400 → statusCode ≠ 401 → statusCode ≠ 404 →
     calculatePoints statusCode o = pointsFor40x o)
  ∧ (500 ≤ statusCode < 600 → calculatePoints statusCode o = pointsFor50x o)
  ∧ (statusCode < 200 ∨ 600 ≤ statusCode → calculatePoints statusCode o = 0).
Proof.
  unfold calculatePoints.
  repeat split; try reflexivity; intros;
    each_comparison; simpl; try lia.
Qed.

(** C5.  Scoring is to happen exactly once for every completed request.
    The code scores in a wrapper that [processRequest] puts on [res.send]
    and never takes off, so it scores once per call of [res.send], whatever
    the number of calls is.  For an admitted request of a tracked address:
    as long as the handler has not called [res.send] - also when it has
    finished the response by other means, such as [res.end] - the score is
    unchanged and the connection stays counted as open; and after two calls
    of [res.send] the score has changed twice, by the points of both
    statuses and two penalties. *)
Theorem send_scores_every_call (o : Options) (e : Engine) (nowMs : Z)
    (req : Request) (rnd : nat → Q) (h : nat) (d : IpData) (h' : nat) (s : Q)
    (first second : Z) :
  ipData e !! getClientIp req = Some h →
  heap e !! h = Some d →
  (middleware o e nowMs req rnd).2 = Accepted h' s →
  let a := getClientIp req in
  let e1 := (middleware o e nowMs req rnd).1 in
  let counted := countEntry (touch nowMs d) in
  (getIpData e1 a = Some counted
   ∧ points counted = points d
   ∧ connections counted = connections d + 1)
  ∧ ∃ d2,
      getIpData (sendHook o (sendHook o e1 h' first) h' second) a = Some d2
      ∧ points d2
        = points d
          + (calculatePoints first o + checkExcessiveUsage counted o)
          + (calculatePoints second o
             + checkExcessiveUsage (score o first counted) o).
Proof.
  intros Hh Hd Hadm a e1 counted.
  assert (Hh' : h' = h).
  { rewrite (middleware_known o e nowMs req rnd h Hh) in Hadm.
    now apply admission_entry in Hadm as [-> _]. }
  subst h'.
  assert (Hmap : ipData e1 !! a = Some h).
  { subst e1. rewrite (middleware_known o e nowMs req rnd h Hh).
    now destruct (admission_table o
      (with_heap (alter (touch nowMs) h (heap e))
         (with_globalStats (updateGlobalStats (globalStats e) nowMs) e))
      h nowMs) as [_ ->]. }
  assert (Hheap : heap e1 !! h = Some counted).
  { subst e1. rewrite (middleware_known o e nowMs req rnd h Hh) in Hadm |- *.
    apply admission_entry in Hadm as [_ ->].
    cbn [heap with_heap with_globalStats].
    now rewrite !list_lookup_alter_eq, Hd. }
  destruct (touch_frame nowMs d) as [Hp Hc].
  split.
  - split; [|split].
    + unfold getIpData. now rewrite Hmap.
    + exact Hp.
    + change (connections counted) with (connections (touch nowMs d) + 1).
      now rewrite Hc.
  - exists (score o second (score o first counted)). split.
    + unfold getIpData, sendHook. cbn [ipData heap with_heap].
      rewrite Hmap. simpl. now rewrite !list_lookup_alter_eq, Hheap.
    + rewrite !score_points.
      change (points counted) with (points (touch nowMs d)). rewrite Hp. lia.
Qed.

(** A request of the address of [busyEngine] is admitted.  Before any call
    of [res.send] its score is 0 and one connection is open; after two calls
    with status 404 its score is -200. *)
Lemma send_scores_every_call_witness :
  let r := middleware (defaultOptions "busy") busyEngine 1005000
             (requestFrom "192.168.1.1") zeroDraws in
  r.2 = Accepted 0 0
  ∧ (∃ d1, getIpData r.1 "192.168.1.1" = Some d1
           ∧ points d1 = 0 ∧ connections d1 = 1)
  ∧ ∃ d2, getIpData (sendHook (defaultOptions "busy")
                       (sendHook (defaultOptions "busy") r.1 0 404) 0 404)
                    "192.168.1.1" = Some d2
          ∧ points d2 = -200.
Proof.
  intros r.
  assert (Hadm : r.2 = Accepted 0 0) by (vm_compute; reflexivity).
  destruct (send_scores_every_call (defaultOptions "busy") busyEngine 1005000
              (requestFrom "192.168.1.1") zeroDraws 0%nat busyRecord 0%nat 0%Q
              404 404 eq_refl eq_refl Hadm)
    as ((Hget & Hp & Hc) & d2 & Hget2 & Hp2).
  split; [exact Hadm|]. split.
  - eexists. split; [exact Hget|]. split; [exact Hp|exact Hc].
  - exists d2. split; [exact Hget2|]. rewrite Hp2. vm_compute. reflexivity.
Defined.

(** ** Occupancy of the table *)

Lemma truthy_Some (a : string) : truthy (Some a) = true ↔ a ≠ EmptyString.
Proof.
  simpl. destruct (String.eqb_spec a EmptyString); simpl; split; intros; done.
Qed.

Lemma getClientIp_truthy (req : Request) : truthy (Some (getClientIp req)) = true.
Proof.
  unfold getClientIp, orElse.
  destruct (truthy (req_ip req)) eqn:E1.
  - destruct (req_ip req); [done|discriminate].
  - destruct (truthy (req_socket req ≫= remoteAddress)) eqn:E2.
    + destruct (req_socket req ≫= remoteAddress); [done|discriminate].
    + reflexivity.
Qed.

(** A draw of [0, 1) yields an index of the array. *)
Lemma drawIndex_lt (u : Q) (size : nat) :
  unitInterval u → (0 < size)%nat → (drawIndex u size < size)%nat.
Proof.
  intros [Hlo Hhi] Hsize. unfold drawIndex.
  assert (Hq : (0 < inject_Z (Z.of_nat size))%Q).
  { change 0%Q with (inject_Z 0). rewrite <- Zlt_Qlt. lia. }
  assert (H0 : 0 ≤ Qfloor (u * inject_Z (Z.of_nat size))).
  { change 0 with (Qfloor 0). apply Qfloor_resp_le.
    apply Qmult_le_0_compat; [done|]. now apply Qlt_le_weak. }
  assert (H1 : Qfloor (u * inject_Z (Z.of_nat size)) < Z.of_nat size).
  { rewrite Zlt_Qlt.
    apply Qle_lt_trans with (u * inject_Z (Z.of_nat size))%Q;
      [apply Qfloor_le|].
    rewrite <- (Qmult_1_l (inject_Z (Z.of_nat size))) at 2.
    now apply Qmult_lt_compat_r. }
  lia.
Qed.

(** On an array without slots every draw yields index 0. *)
Lemma drawIndex_0 (u : Q) : drawIndex u 0 = 0%nat.
Proof.
  unfold drawIndex.
  assert (E : (u * inject_Z (Z.of_nat 0) == 0)%Q) by (simpl; ring).
  now rewrite E.
Qed.

(** Each round of the loop, and the fallback, returns the index it drew. *)
Lemma findEvictableLoop_draw (fuel attempts : nat) (e : Engine) (nowMs : Z)
    (rnd : nat → Q) :
  ∃ k, findEvictableLoop fuel attempts e nowMs rnd
       = drawIndex (rnd k) (length (monitoredIps e)).
Proof.
  revert attempts. induction fuel as [|fuel IH]; intros attempts; simpl.
  - by eexists.
  - destruct (negb (truthy _)); [by eexists|].
    destruct (_ ≫= _); [|by eexists].
    destruct (_ || _); [by eexists|]. apply IH.
Qed.

Lemma findEvictableIndex_range (e : Engine) (nowMs : Z) (rnd : nat → Q) :
  (∀ k, unitInterval (rnd k)) →
  (findEvictableIndex e nowMs rnd < Nat.max 1 (length (monitoredIps e)))%nat.
Proof.
  intros Hrnd. unfold findEvictableIndex.
  destruct (findEvictableLoop_draw maxAttempts 0 e nowMs rnd) as [k ->].
  destruct (length (monitoredIps e)) as [|n] eqn:E.
  - rewrite drawIndex_0. lia.
  - pose proof (drawIndex_lt (rnd k) (S n) (Hrnd k)). lia.
Qed.

(** The number of tracked addresses is at most the number of slots. *)
Lemma slotted_size (e : Engine) :
  slotted e → (size (ipData e) ≤ length (monitoredIps e))%nat.
Proof.
  intros Hinv.
  rewrite <- size_dom. unfold size, set_size. simpl.
  rewrite <- (length_fmap Some).
  apply submseteq_length, NoDup_submseteq.
  - apply (NoDup_fmap_2 _), NoDup_elements.
  - intros x (a & -> & Ha)%list_elem_of_fmap.
    apply elem_of_elements, elem_of_dom in Ha. now apply Hinv.
Qed.

(** [addIpToMonitoring] keeps the invariant: the evicted occupant leaves the
    map before its slot is overwritten. *)
Lemma addIpToMonitoring_slotted (a : string) (e : Engine) (nowMs : Z)
    (rnd : nat → Q) :
  a ≠ EmptyString → slotted e → slotted (addIpToMonitoring a e nowMs rnd).1.
Proof.
  intros Ha Hinv k. unfold addIpToMonitoring. simpl.
  set (i := findEvictableIndex e nowMs rnd).
  destruct (decide (k = a)) as [->|Hne].
  - intros _. split; [done|].
    apply list_elem_of_lookup. exists i. apply arraySet_lookup.
  - rewrite lookup_insert_ne by done. intros Hk.
    assert (Hold : is_Some (ipData e !! k) ∧ arrayGet (monitoredIps e) i ≠ Some k).
    { destruct (arrayGet (monitoredIps e) i) as [old|] eqn:Hget; [|done].
      destruct (truthy (Some old)) eqn:Ht.
      - destruct (decide (old = k)) as [->|Hok].
        + rewrite lookup_delete_eq in Hk. by destruct Hk.
        + rewrite lookup_delete_ne in Hk by done. split; [done|congruence].
      - split; [done|]. intros [= ->].
        apply Hinv in Hk as [Hk _]. apply truthy_Some in Hk. congruence. }
    destruct Hold as [Hk' Hslot]. destruct (Hinv k Hk') as [Hk0 Hin].
    split; [done|]. now apply arraySet_elem.
Qed.

Lemma addIpToMonitoring_length (a : string) (e : Engine) (nowMs : Z)
    (rnd : nat → Q) :
  (∀ k, unitInterval (rnd k)) →
  length (monitoredIps (addIpToMonitoring a e nowMs rnd).1)
  = Nat.max 1 (length (monitoredIps e)).
Proof.
  intros Hrnd. unfold addIpToMonitoring. simpl. rewrite arraySet_length.
  pose proof (findEvictableIndex_range e nowMs rnd Hrnd).
  destruct (length (monitoredIps e)); lia.
Qed.

(** One event keeps the invariant and lets the array grow to one slot at
    most. *)
Lemma step_slotted (o : Options) (e : Engine) (ev : Event) :
  validEvent ev → slotted e →
  slotted (step o e ev)
  ∧ (length (monitoredIps (step o e ev))
     ≤ Nat.max 1 (length (monitoredIps e)))%nat.
Proof.
  intros Hev Hinv. destruct ev as [nowMs req rnd|h statusCode|ipOrReq pts]; simpl.
  - unfold middleware.
    set (e0 := with_globalStats _ e).
    destruct (getOrCreate (getClientIp req) e0 nowMs rnd) as [e1 h] eqn:Hgoc.
    destruct (admission_table o (with_heap (alter (touch nowMs) h (heap e1)) e1)
                h nowMs) as [Hslots Hmap].
    unfold slotted. rewrite Hslots, Hmap. simpl.
    unfold getOrCreate in Hgoc.
    destruct (ipData e0 !! getClientIp req).
    + injection Hgoc as <- _. split; [exact Hinv|simpl; lia].
    + assert (E : e1 = (addIpToMonitoring (getClientIp req) e0 nowMs rnd).1)
        by now rewrite Hgoc.
      rewrite E. split.
      * apply addIpToMonitoring_slotted; [|exact Hinv].
        apply truthy_Some, getClientIp_truthy.
      * rewrite addIpToMonitoring_length by exact Hev. simpl. lia.
  - split; [exact Hinv|lia].
  - unfold addPointsToIp. destruct (ipData e !! _); simpl; (split; [exact Hinv|lia]).
Qed.

Lemma run_slotted (o : Options) (evs : list Event) (e : Engine) :
  Forall validEvent evs → slotted e →
  slotted (run o e evs)
  ∧ (length (monitoredIps (run o e evs))
     ≤ Nat.max 1 (length (monitoredIps e)))%nat.
Proof.
  intros Hevs. revert e. induction Hevs as [|ev evs Hev _ IH]; intros e Hinv.
  - split; [exact Hinv|simpl; lia].
  - destruct (step_slotted o e ev Hev Hinv) as [Hinv' Hlen].
    destruct (IH _ Hinv') as [Hrun Hlen'].
    split; [exact Hrun|]. unfold run in *. simpl. lia.
Qed.

Lemma createPlastron_slotted (o : Options) (t1 t2 t3 : Z) (e : Engine) :
  createPlastron o t1 t2 t3 = Some e →
  slotted e ∧ length (monitoredIps e) = ipMonitorSize o.
Proof.
  unfold createPlastron. destruct (String.eqb _ _); [done|].
  intros [= <-]. split.
  - intros a [h Hh]. simpl in Hh. by rewrite lookup_empty in Hh.
  - simpl. apply length_replicate.
Qed.

(** Whatever arrives, is sent or is adjusted, an engine tracks at most as
    many addresses as it has slots, and it has [ipMonitorSize] slots, or one
    when [ipMonitorSize] is 0. *)
Lemma occupancy_bounded (o : Options) (t1 t2 t3 : Z) (e : Engine)
    (evs : list Event) :
  createPlastron o t1 t2 t3 = Some e →
  Forall validEvent evs →
  (totalMonitoredIps (run o e evs) ≤ Nat.max 1 (ipMonitorSize o))%nat.
Proof.
  intros Hcreate Hevs.
  destruct (createPlastron_slotted o t1 t2 t3 e Hcreate) as [Hinv Hlen].
  destruct (run_slotted o evs e Hevs Hinv) as [Hrun Hlen'].
  pose proof (slotted_size _ Hrun). unfold totalMonitoredIps. lia.
Qed.

(** C6 at a table without slots.  With [ipMonitorSize = 0] the first request
    writes slot 0 of the empty array, which grows to one slot, and one
    address is tracked: more than [ipMonitorSize]. *)
Theorem zero_capacity_occupancy :
  createPlastron noSlots 1000000 1000000 1000000 = Some noSlotsEngine
  ∧ ipMonitorSize noSlots = 0%nat
  ∧ monitoredIps noSlotsEngine = []
  ∧ monitoredIps (run noSlots noSlotsEngine
                      [Arrive 1000000 (requestFrom "192.168.1.1") zeroDraws])
    = [Some "192.168.1.1"]
  ∧ totalMonitoredIps (run noSlots noSlotsEngine
                           [Arrive 1000000 (requestFrom "192.168.1.1") zeroDraws])
    = 1%nat.
Proof. vm_compute. repeat split. Qed.

(** ** Rejections (§4.5) *)

(** C7.  A middleware call that rejects the request, whichever check fired,
    answers with status 429 and a JSON body whose [error] field is the
    configured rejection message, and adds one to the counter of rejections
    of the current minute ([rateLimited429InCurrentMin]) that the call found
    after rolling the global windows. *)
Theorem rejection_response (o : Options) (e : Engine) (nowMs : Z)
    (req : Request) (rnd : nat → Q) (r : Response) :
  (middleware o e nowMs req rnd).2 = Rejected r →
  status r = 429
  ∧ error (json r) = rateLimitMessage o
  ∧ rateLimited429InCurrentMin (globalStats (middleware o e nowMs req rnd).1)
    = rateLimited429InCurrentMin (updateGlobalStats (globalStats e) nowMs) + 1.
Proof.
  intros Hrej.
  destruct (middleware_globalStats o e nowMs req rnd) as [neg Hg].
  rewrite Hrej in Hg. simpl in Hg. rewrite Hg. clear Hg.
  apply middleware_rejected in Hrej as (g & why & ->).
  split; [reflexivity|]. split; reflexivity.
Qed.

(** The second request of the same second under a global limit of one
    request per second. *)
Lemma rejection_response_witness :
  ∃ r, (middleware capOne capOneAfterFirst 1000000
                   (requestFrom "192.168.1.2") zeroDraws).2 = Rejected r
       ∧ status r = 429
       ∧ error (json r) = "Rate limit exceeded"
       ∧ rateLimited429InCurrentMin
           (globalStats (middleware capOne capOneAfterFirst 1000000
                                    (requestFrom "192.168.1.2") zeroDraws).1)
         = 0 + 1.
Proof.
  eexists. split; [reflexivity|].
  apply (rejection_response capOne capOneAfterFirst 1000000
           (requestFrom "192.168.1.2") zeroDraws).
  reflexivity.
Defined.

(** ** Manual adjustment *)

(** C8.  [addPointsToIp] on an address that has a record adds the points to
    the score of that record, leaves the rest of the record and the set of
    tracked addresses as they are, and returns [true]; on an address without
    a record it returns [false] and changes nothing: no record is created
    and the number of tracked addresses is the same. *)
Theorem addPointsToIp_spec (e : Engine) (ipOrReq : string + Request) (pts : Z) :
  let a := addressOf ipOrReq in
  let r := addPointsToIp e ipOrReq pts in
  (∀ d, getIpData e a = Some d →
     r.2 = true
     ∧ getIpData r.1 a = Some (set_points (points d + pts) d)
     ∧ ipData r.1 = ipData e
     ∧ totalMonitoredIps r.1 = totalMonitoredIps e)
  ∧ (ipData e !! a = None →
     r.2 = false
     ∧ r.1 = e
     ∧ getIpData r.1 a = None
     ∧ totalMonitoredIps r.1 = totalMonitoredIps e).
Proof.
  intros a r. subst r. unfold addPointsToIp. fold a. split.
  - intros d Hd. unfold getIpData in *.
    destruct (ipData e !! a) as [h|] eqn:Hh; [|done]. simpl in *.
    rewrite Hh. simpl. rewrite list_lookup_alter_eq, Hd. done.
  - intros Hnone. rewrite Hnone. simpl. unfold getIpData. now rewrite Hnone.
Qed.

(** On [busyEngine]: 10000 points for the tracked address, and for an
    address that was never seen. *)
Lemma addPointsToIp_spec_witness :
  ((addPointsToIp busyEngine (inl "192.168.1.1") 10000).2 = true
   ∧ points <$> getIpData (addPointsToIp busyEngine (inl "192.168.1.1") 10000).1
                          "192.168.1.1" = Some 10000
   ∧ totalMonitoredIps (addPointsToIp busyEngine (inl "192.168.1.1") 10000).1
     = 1%nat)
  ∧ ((addPointsToIp busyEngine (inl "10.0.0.7") 10000).2 = false
     ∧ getIpData (addPointsToIp busyEngine (inl "10.0.0.7") 10000).1 "10.0.0.7"
       = None
     ∧ totalMonitoredIps (addPointsToIp busyEngine (inl "10.0.0.7") 10000).1
       = 1%nat).
Proof.
  split.
  - destruct (addPointsToIp_spec busyEngine (inl "192.168.1.1") 10000)
      as [Hsome _].
    destruct (Hsome busyRecord) as (Hret & Hget & _ & Hsize);
      [vm_compute; reflexivity|].
    split; [exact Hret|]. split; [|exact Hsize].
    change (addressOf (inl "192.168.1.1")) with "192.168.1.1"%string in Hget.
    rewrite Hget. reflexivity.
  - destruct (addPointsToIp_spec busyEngine (inl "10.0.0.7") 10000)
      as [_ Hnone].
    destruct Hnone as (Hret & _ & Hget & Hsize); [vm_compute; reflexivity|].
    split; [exact Hret|]. split; [exact Hget|exact Hsize].
Defined.

(** ** The global limit *)

(** [Math.ceil(t / period)] as integer division. *)
Lemma boundary_div (period t : Z) :
  0 < period → boundary period t = - ((- t) / period).
Proof.
  intros Hp. unfold boundary, Qceiling.
  destruct period as [|p|p]; try lia.
  unfold Qdiv, Qinv, Qmult, Qopp, inject_Z, Qfloor. simpl.
  now rewrite Z.mul_1_r.
Qed.

(** Two timestamps of the same window are less than a period apart. *)
Lemma boundary_close (period t t' : Z) :
  0 < period → boundary period t = boundary period t' → t - t' < period.
Proof.
  intros Hp. rewrite !boundary_div by done. intros Hb.
  pose proof (Z.div_mod (- t) period ltac:(lia)).
  pose proof (Z.div_mod (- t') period ltac:(lia)).
  pose proof (Z.mod_pos_bound (- t) period Hp).
  pose proof (Z.mod_pos_bound (- t') period Hp).
  nia.
Qed.

(** The second fields after [updateGlobalStats] are those written by its
    1-second half. *)
Lemma updateGlobalStats_sec (g : GlobalStats) (nowMs : Z) :
  reqInCurrentSec (updateGlobalStats g nowMs)
  = reqInCurrentSec (updateGlobalSec g nowMs)
  ∧ reqInPrevSec (updateGlobalStats g nowMs)
    = reqInPrevSec (updateGlobalSec g nowMs)
  ∧ prevSecStartMs (updateGlobalStats g nowMs)
    = prevSecStartMs (updateGlobalSec g nowMs)
  ∧ currentSecStartMs (updateGlobalStats g nowMs)
    = currentSecStartMs (updateGlobalSec g nowMs).
Proof. unfold updateGlobalStats, updateGlobalMin. now destruct (negb _). Qed.

(** Without a request in the two second windows the estimate is 0. *)
Lemma rate_zero (g : GlobalStats) (nowMs cap : Z) :
  reqInCurrentSec g + reqInPrevSec g = 0 → 0 < cap →
  Qgeb (calculateCurrentReqPerSec g nowMs) (inject_Z cap) = false.
Proof.
  intros Hsum Hcap. unfold Qgeb, calculateCurrentReqPerSec. rewrite Hsum.
  apply not_true_is_false. rewrite Qle_bool_iff.
  unfold Qdiv. rewrite Qmult_0_l.
  change 0%Q with (inject_Z 0). rewrite <- Zle_Qle. lia.
Qed.

(** With one request in the two second windows, the older of which began at
    most a second ago, the estimate is one request per second. *)
Lemma rate_one (g : GlobalStats) (nowMs : Z) :
  reqInCurrentSec g + reqInPrevSec g = 1 →
  nowMs - prevSecStartMs g ≤ 1000 →
  Qgeb (calculateCurrentReqPerSec g nowMs) (inject_Z 1) = true.
Proof.
  intros Hsum Hclose. unfold Qgeb, calculateCurrentReqPerSec. rewrite Hsum.
  apply Qle_bool_iff.
  assert (E : (Qmax 1 (inject_Z (nowMs - prevSecStartMs g) / 1000) == 1)%Q).
  { apply Q.max_l. apply Qle_shift_div_r; [reflexivity|].
    change (1 * 1000)%Q with (inject_Z 1000). rewrite <- Zle_Qle. lia. }
  rewrite E. apply Qle_refl.
Qed.


(** A record without a request in its two 10-second windows is below every
    positive per-address limit. *)
Lemma address_rate_zero (d : IpData) (cap : Z) :
  reqInCurrent10Sec d + reqInPrev10Sec d = 0 → 0 < cap →
  Qgeb (calculate10SecReqPerSec d) (inject_Z cap) = false.
Proof.
  intros Hsum Hcap. unfold Qgeb, calculate10SecReqPerSec. rewrite Hsum.
  apply not_true_is_false. rewrite Qle_bool_iff.
  unfold Qdiv. rewrite Qmult_0_l.
  change 0%Q with (inject_Z 0). rewrite <- Zle_Qle. lia.
Qed.

(** When the global rate check fires, the request is rejected. *)
Lemma middleware_global_check (o : Options) (e : Engine) (nowMs : Z)
    (req : Request) (rnd : nat → Q) :
  (maxRequestRatePerSec o >? 0) = true →
  Qgeb (calculateCurrentReqPerSec (updateGlobalStats (globalStats e) nowMs) nowMs)
       (inject_Z (maxRequestRatePerSec o)) = true →
  accepted (middleware o e nowMs req rnd).2 = false.
Proof.
  intros Hon Hover.
  destruct (middleware_admission o e nowMs req rnd) as (e2 & h & -> & Hg & _).
  rewrite rejection_paths, Hg, Hon, Hover. reflexivity.
Qed.

(** C9.  On an engine that was just created with [maxRequestRatePerSec = 1]
    and whose per-address limits let a new address in, two requests of two
    distinct addresses whose timestamps fall in the same second: the first
    is admitted, the second is rejected with status 429 and the configured
    rejection message. *)
Theorem global_cap_one (o : Options) (t1 t2 t3 : Z) (e0 : Engine)
    (now1 now2 : Z) (req1 req2 : Request) (rnd1 rnd2 : nat → Q) :
  createPlastron o t1 t2 t3 = Some e0 →
  maxRequestRatePerSec o = 1 →
  0 < maxReqPerSecPerIP o →
  0 < calculateMaxConnections 0 o →
  getClientIp req1 ≠ getClientIp req2 →
  boundary 1000 now1 = boundary 1000 now2 →
  let r1 := middleware o e0 now1 req1 rnd1 in
  let r2 := middleware o r1.1 now2 req2 rnd2 in
  accepted r1.2 = true
  ∧ ∃ resp, r2.2 = Rejected resp
            ∧ status resp = 429
            ∧ error (json resp) = rateLimitMessage o.
Proof.
  intros Hcreate Hcap Hrate Hconn _ Hsame r1 r2.
  unfold createPlastron in Hcreate.
  destruct (String.eqb _ _); [done|]. injection Hcreate as <-.
  set (e0 := {| monitoredIps := _ |}) in *.
  (* the first request *)
  assert (Hsec1 : ∀ g, g = updateGlobalStats (globalStats e0) now1 →
            (reqInCurrentSec g = 0 ∧ reqInPrevSec g = 0)
            ∧ (boundary 1000 now1 = boundary 1000 (prevSecStartMs g)
               ∨ currentSecStartMs g = now1)).
  { intros g ->.
    destruct (updateGlobalStats_sec (globalStats e0) now1) as (-> & -> & -> & ->).
    unfold updateGlobalSec. simpl.
    destruct (Z.eqb_spec (boundary 1000 now1) (boundary 1000 t1)); simpl; auto. }
  assert (Hadm : accepted r1.2 = true).
  { subst r1.
    destruct (middleware_admission o e0 now1 req1 rnd1)
      as (e2 & h & -> & Hg & Hnew).
    specialize (Hnew (lookup_empty _)).
    destruct (Hsec1 _ eq_refl) as [[Hcur Hprev] _].
    rewrite rejection_paths. cbv zeta. rewrite Hnew, Hg.
    rewrite (rate_zero _ now1 (maxRequestRatePerSec o)) by lia.
    change (points (newIpData _ _ _)) with 0.
    change (connections (newIpData _ _ _)) with 0.
    change (0 <? 0) with false. change (0 >=? 0) with true. cbv iota.
    rewrite address_rate_zero by (done || lia).
    rewrite !andb_false_r. simpl.
    destruct (Z.geb_spec 0 (calculateMaxConnections 0 o)); [lia|done]. }
  split; [exact Hadm|].
  (* the second request *)
  assert (Hrej : accepted r2.2 = false).
  { subst r2. apply middleware_global_check; [rewrite Hcap; reflexivity|].
    rewrite Hcap.
    destruct (middleware_globalStats o e0 now1 req1 rnd1) as [neg Hg1].
    fold r1 in Hg1. rewrite Hadm in Hg1. rewrite Hg1.
    destruct (Hsec1 _ eq_refl) as [[Hcur Hprev] Hstart].
    set (g1 := updateGlobalStats (globalStats e0) now1) in *.
    destruct (updateGlobalStats_sec (countGlobal neg g1) now2)
      as (Ecur & Eprev & Estart & _).
    apply rate_one.
    - rewrite Ecur, Eprev. unfold updateGlobalSec.
      destruct (negb _); simpl; lia.
    - rewrite Estart. unfold updateGlobalSec.
      destruct (Z.eqb_spec (boundary 1000 now2)
                  (boundary 1000 (prevSecStartMs (countGlobal neg g1))))
        as [Heq|Hne]; simpl.
      + pose proof (boundary_close 1000 now2 (prevSecStartMs g1)); simpl in *; lia.
      + destruct Hstart as [Hstart| ->]; [simpl in Hne; congruence|].
        pose proof (boundary_close 1000 now2 now1). lia. }
  destruct r2.2 as [resp|] eqn:Hout; [|done].
  exists resp. split; [reflexivity|].
  apply middleware_rejected in Hout as (g & why & ->). done.
Qed.

(** The scenario of the test suite: the engine of [capOne] created at
    1000000 ms and two addresses at that instant. *)
Lemma global_cap_one_witness :
  accepted (middleware capOne capOneEngine 1000000
                       (requestFrom "192.168.1.1") zeroDraws).2 = true
  ∧ ∃ resp, (middleware capOne
               (middleware capOne capOneEngine 1000000
                           (requestFrom "192.168.1.1") zeroDraws).1
               1000000 (requestFrom "192.168.1.2") zeroDraws).2 = Rejected resp
            ∧ status resp = 429
            ∧ error (json resp) = "Rate limit exceeded".
Proof.
  apply (global_cap_one capOne 1000000 1000000 1000000 capOneEngine
           1000000 1000000 (requestFrom "192.168.1.1")
           (requestFrom "192.168.1.2") zeroDraws zeroDraws).
  - reflexivity.
  - reflexivity.
  - reflexivity.
  - reflexivity.
  - discriminate.
  - reflexivity.
Defined.

(** ** Requests without an address *)

(** C10.  A request with neither [req.ip] nor [req.socket.remoteAddress] is
    keyed under the address ["*error*"].  On an engine reached from its
    creation by any events, two such requests, whoever sent them, are served
    by one and the same record: the second call creates no record, is admitted
    (if it is) with the record of the first, and counts its connection on top
    of the connections counted there, under the one score of that record. *)
Theorem unattributable_requests_share (o : Options) (t1 t2 t3 : Z)
    (e0 : Engine) (evs : list Event) (now1 now2 : Z) (req1 req2 : Request)
    (rnd1 rnd2 : nat → Q) :
  createPlastron o t1 t2 t3 = Some e0 →
  truthy (req_ip req1) = false →
  truthy (req_socket req1 ≫= remoteAddress) = false →
  truthy (req_ip req2) = false →
  truthy (req_socket req2 ≫= remoteAddress) = false →
  let e := run o e0 evs in
  let r1 := middleware o e now1 req1 rnd1 in
  let r2 := middleware o r1.1 now2 req2 rnd2 in
  getClientIp req1 = errorAddress
  ∧ getClientIp req2 = errorAddress
  ∧ ∃ h, ipData r1.1 !! errorAddress = Some h
         ∧ (∀ h1 s1, r1.2 = Accepted h1 s1 → h1 = h)
         ∧ ipData r2.1 = ipData r1.1
         ∧ totalMonitoredIps r2.1 = totalMonitoredIps r1.1
         ∧ (∀ h2 s2, r2.2 = Accepted h2 s2 →
              h2 = h
              ∧ connections (heap r2.1 !!! h) = connections (heap r1.1 !!! h) + 1
              ∧ points (heap r2.1 !!! h) = points (heap r1.1 !!! h)).
Proof.
  intros Hcreate Hip1 Hsock1 Hip2 Hsock2 e r1 r2.
  assert (Ha1 : getClientIp req1 = errorAddress).
  { unfold getClientIp, orElse. now rewrite Hip1, Hsock1. }
  assert (Ha2 : getClientIp req2 = errorAddress).
  { unfold getClientIp, orElse. now rewrite Hip2, Hsock2. }
  split; [exact Ha1|]. split; [exact Ha2|].
  destruct (middleware_entry o e now1 req1 rnd1) as (h & Hh & Hadm1).
  fold r1 in Hh, Hadm1. rewrite Ha1 in Hh.
  exists h. split; [exact Hh|]. split; [exact Hadm1|].
  assert (Href : referenced r1.1).
  { apply (step_referenced o e (Arrive now1 req1 rnd1)).
    apply run_referenced. eapply createPlastron_referenced, Hcreate. }
  assert (E : r2 = admission o
      (with_heap (alter (touch now2) h (heap r1.1))
         (with_globalStats (updateGlobalStats (globalStats r1.1) now2) r1.1))
      h now2).
  { apply middleware_known. now rewrite Ha2. }
  rewrite E.
  match goal with |- context [admission o ?st h now2] => set (e2 := st) end.
  destruct (admission_table o e2 h now2) as [_ Hmap].
  split; [exact Hmap|]. split; [unfold totalMonitoredIps; now rewrite Hmap|].
  intros h2 s2 Hadm2. apply admission_entry in Hadm2 as [-> Hheap].
  split; [reflexivity|]. rewrite Hheap. subst e2. simpl.
  pose proof (Href _ _ Hh) as Hlt.
  rewrite list_lookup_total_alter_eq by (rewrite length_alter; exact Hlt).
  rewrite list_lookup_total_alter_eq by exact Hlt.
  destruct (touch_frame now2 (heap r1.1 !!! h)) as [Hp Hc].
  unfold countEntry. cbn [connections points]. now rewrite Hp, Hc.
Qed.

(** Two requests without an address on the engine of the default
    configuration, at 1000000 ms and two seconds later: one record, admitted
    twice, with two open connections. *)
Lemma unattributable_requests_share_witness :
  getClientIp anonymousRequest = "*error*"
  ∧ ∃ h, ipData (middleware (defaultOptions "busy") freshEngine 1000000
                            anonymousRequest zeroDraws).1 !! "*error*" = Some h
         ∧ totalMonitoredIps
             (middleware (defaultOptions "busy")
                (middleware (defaultOptions "busy") freshEngine 1000000
                            anonymousRequest zeroDraws).1
                1002000 anonymousRequest zeroThenHalf).1 = 1%nat.
Proof.
  destruct (unattributable_requests_share (defaultOptions "busy")
              1000000 1000000 1000000 freshEngine [] 1000000 1002000
              anonymousRequest anonymousRequest zeroDraws zeroThenHalf)
    as (Ha & _ & h & Hh & _ & _ & Hsize & _);
    [reflexivity|reflexivity|reflexivity|reflexivity|reflexivity|].
  split; [exact Ha|]. exists h. split; [exact Hh|].
  change (run (defaultOptions "busy") freshEngine []) with freshEngine in Hsize.
  rewrite Hsize. vm_compute. reflexivity.
Defined.

(** ** The older build *)

Lemma findEvictableLoop_stats {G G'} (g : G') (fuel attempts : nat)
    (e : EngineOf G) (nowMs : Z) (rnd : nat → Q) :
  findEvictableLoop fuel attempts (with_globalStats g e) nowMs rnd
  = findEvictableLoop fuel attempts e nowMs rnd.
Proof.
  revert attempts. induction fuel as [|fuel IH]; intros attempts; simpl; [done|].
  destruct (negb (truthy _)); [done|].
  destruct (_ ≫= _); [|done].
  destruct (_ || _); [done|]. apply IH.
Qed.

Lemma getOrCreate_stats {G G'} (g : G') (a : string) (e : EngineOf G)
    (nowMs : Z) (rnd : nat → Q) :
  getOrCreate a (with_globalStats g e) nowMs rnd
  = (with_globalStats g (getOrCreate a e nowMs rnd).1,
     (getOrCreate a e nowMs rnd).2).
Proof.
  unfold getOrCreate. simpl. destruct (ipData e !! a); [done|].
  unfold addIpToMonitoring, findEvictableIndex.
  rewrite findEvictableLoop_stats. reflexivity.
Qed.

Lemma forget_updateGlobalStats (g : GlobalStats) (nowMs : Z) :
  forget (updateGlobalStats g nowMs) = Dist.updateGlobalStats (forget g) nowMs.
Proof.
  unfold updateGlobalStats, updateGlobalMin, updateGlobalSec,
    Dist.updateGlobalStats. simpl.
  now repeat destruct (negb _).
Qed.

Lemma forget_admission (o : Options) (e : Engine) (h : nat) (nowMs : Z) :
  Dist.admission o (forgetEngine e) h nowMs
  = (forgetEngine (admission o e h nowMs).1, plain (admission o e h nowMs).2).
Proof.
  unfold Dist.admission, admission, Dist.reject, reject,
    createRateLimitResponse, forgetEngine.
  change (Dist.calculateCurrentReqPerSec (globalStats (with_globalStats
            (forget (globalStats e)) e)) nowMs)
    with (calculateCurrentReqPerSec (globalStats e) nowMs).
  simpl.
  each_test ltac:(simpl; try reflexivity).
Qed.

(** The older build is the current one without the minute counters, the
    counter of rejections and the [reason] of the debug mode: on states that
    agree on the rest, a middleware call of either build gives the same
    verdict and states that agree again. *)
Lemma forget_middleware (o : Options) (e : Engine) (nowMs : Z) (req : Request)
    (rnd : nat → Q) :
  Dist.middleware o (forgetEngine e) nowMs req rnd
  = (forgetEngine (middleware o e nowMs req rnd).1,
     plain (middleware o e nowMs req rnd).2).
Proof.
  unfold Dist.middleware, middleware.
  change (globalStats (forgetEngine e)) with (forget (globalStats e)).
  rewrite <- forget_updateGlobalStats.
  change (with_globalStats (forget (updateGlobalStats (globalStats e) nowMs))
            (forgetEngine e))
    with (with_globalStats (forget (updateGlobalStats (globalStats e) nowMs))
            (with_globalStats (updateGlobalStats (globalStats e) nowMs) e)).
  rewrite getOrCreate_stats.
  destruct (getOrCreate _ (with_globalStats (updateGlobalStats _ _) e) _ _)
    as [e1 h] eqn:Hgoc. simpl.
  assert (Hg : globalStats e1 = updateGlobalStats (globalStats e) nowMs).
  { pose proof (getOrCreate_globalStats (getClientIp req)
      (with_globalStats (updateGlobalStats (globalStats e) nowMs) e) nowMs rnd)
      as H. now rewrite Hgoc in H. }
  rewrite <- Hg.
  rewrite <- (forget_admission o (with_heap (alter (touch nowMs) h (heap e1)) e1)
                h nowMs).
  reflexivity.
Qed.

(** In the older build every rejection answers with status 429 and the
    configured message, and leaves the global counters as the roll of the
    call left them. *)
Lemma dist_rejection_response (o : Options) (e : EngineOf Dist.GlobalStats)
    (h : nat) (nowMs : Z) (r : Response) :
  (Dist.admission o e h nowMs).2 = Rejected r →
  status r = 429 ∧ error (json r) = rateLimitMessage o
  ∧ (Dist.admission o e h nowMs).1 = e.
Proof.
  unfold Dist.admission, Dist.reject.
  each_test idtac; simpl; intros [= <-]; done.
Qed.

(** * Further properties of the engine *)

(** ** Counters stay natural numbers *)

Lemma touch_sane (nowMs : Z) (d : IpData) : recordSane d → recordSane (touch nowMs d).
Proof.
  unfold recordSane, touch, updateTimeWindows, update10SecWindow,
    updateMinuteWindow.
  intros (Hc & Hm & Hpm & Ht & Hpt).
  repeat destruct (negb _); simpl; repeat destruct (_ =? _); simpl; lia.
Qed.

Lemma countEntry_sane (d : IpData) : recordSane d → recordSane (countEntry d).
Proof. unfold recordSane, countEntry. simpl. lia. Qed.

Lemma score_sane (o : Options) (statusCode : Z) (d : IpData) :
  recordSane d → recordSane (score o statusCode d).
Proof. unfold recordSane, score. simpl. lia. Qed.

Lemma updateGlobalStats_sane (g : GlobalStats) (nowMs : Z) :
  globalSane g → globalSane (updateGlobalStats g nowMs).
Proof.
  unfold globalSane, updateGlobalStats, updateGlobalMin, updateGlobalSec.
  intros Hg. repeat destruct (negb _); simpl; lia.
Qed.

Lemma getOrCreate_sane (a : string) (e : Engine) (nowMs : Z) (rnd : nat → Q) :
  Forall recordSane (heap e) →
  Forall recordSane (heap (getOrCreate a e nowMs rnd).1).
Proof.
  intros Hheap. unfold getOrCreate. destruct (ipData e !! a); [exact Hheap|].
  simpl. apply Forall_app. split; [exact Hheap|].
  apply Forall_singleton. unfold recordSane. simpl. lia.
Qed.

Lemma admission_sane (o : Options) (e : Engine) (h : nat) (nowMs : Z) :
  Forall recordSane (heap e) → globalSane (globalStats e) →
  Forall recordSane (heap (admission o e h nowMs).1)
  ∧ globalSane (globalStats (admission o e h nowMs).1).
Proof.
  intros Hheap Hg. rewrite admission_globalStats.
  destruct (accepted (admission o e h nowMs).2) eqn:Hacc.
  - destruct (admission o e h nowMs).2 as [|h' s] eqn:Hout; [discriminate|].
    apply admission_entry in Hout as [_ ->]. split.
    + apply Forall_alter; [exact Hheap|]. intros d _. apply countEntry_sane.
    + unfold globalSane, countGlobal in *. simpl. destruct (_ <? _); lia.
  - split.
    + revert Hacc. unfold admission, reject.
      each_test idtac; simpl; (exact (λ _, Hheap) || discriminate).
    + unfold globalSane in *. simpl. lia.
Qed.

Lemma step_sane (o : Options) (e : Engine) (ev : Event) :
  Forall recordSane (heap e) → globalSane (globalStats e) →
  Forall recordSane (heap (step o e ev))
  ∧ globalSane (globalStats (step o e ev)).
Proof.
  intros Hheap Hg. destruct ev as [nowMs req rnd|h statusCode|ipOrReq pts]; simpl.
  - unfold middleware.
    set (e0 := with_globalStats _ e).
    pose proof (getOrCreate_sane (getClientIp req) e0 nowMs rnd Hheap) as Hh1.
    pose proof (getOrCreate_globalStats (getClientIp req) e0 nowMs rnd) as Hg1.
    destruct (getOrCreate (getClientIp req) e0 nowMs rnd) as [e1 h]. simpl in *.
    apply admission_sane; simpl.
    + apply Forall_alter; [exact Hh1|]. intros d _. apply touch_sane.
    + rewrite Hg1. now apply updateGlobalStats_sane.
  - split; [|exact Hg]. apply Forall_alter; [exact Hheap|].
    intros d _. apply score_sane.
  - unfold addPointsToIp. destruct (ipData e !! _); simpl; [|done].
    split; [|exact Hg]. apply Forall_alter; [exact Hheap|].
    intros d _. unfold recordSane. simpl. tauto.
Qed.

(** X1.  Whatever requests arrive, responses are sent (also more often than
    requests were admitted) and scores are adjusted on an engine since its
    creation, no counter is ever negative: the open connections and the four
    window counters of every record, also of evicted ones, and the global
    counters; and the requests of negative addresses counted in the current
    second never exceed the requests counted in it. *)
Theorem counters_stay_natural (o : Options) (t1 t2 t3 : Z) (e0 : Engine)
    (evs : list Event) :
  createPlastron o t1 t2 t3 = Some e0 →
  Forall recordSane (heap (run o e0 evs))
  ∧ globalSane (globalStats (run o e0 evs)).
Proof.
  intros Hcreate.
  assert (H0 : Forall recordSane (heap e0) ∧ globalSane (globalStats e0)).
  { unfold createPlastron in Hcreate. destruct (String.eqb _ _); [done|].
    injection Hcreate as <-. split; [constructor|].
    unfold globalSane. simpl. lia. }
  clear Hcreate. revert e0 H0.
  induction evs as [|ev evs IH]; intros e0 [Hheap Hg]; [done|].
  apply IH, step_sane; done.
Qed.

(** The counters after [someTraffic]. *)
Lemma counters_stay_natural_witness :
  Forall recordSane (heap (run (defaultOptions "busy") freshEngine someTraffic))
  ∧ globalSane (globalStats (run (defaultOptions "busy") freshEngine someTraffic)).
Proof.
  apply (counters_stay_natural (defaultOptions "busy") 1000000 1000000 1000000
           freshEngine someTraffic).
  reflexivity.
Defined.

(** ** Slots and records describe each other *)

Lemma arraySet_lookup_inv (arr : list (option string)) (i j : nat)
    (v : option string) (a : string) :
  i ≠ j → arraySet arr i v !! j = Some (Some a) → arr !! j = Some (Some a).
Proof.
  intros Hne. unfold arraySet. case_decide.
  - now rewrite list_lookup_insert_ne.
  - rewrite lookup_app_Some. intros [Hj|[Hlen Hj]]; [exact Hj|].
    apply lookup_snoc_Some in Hj as [[_ Hj]|[Hj _]].
    + apply lookup_replicate in Hj as [? _]. discriminate.
    + rewrite length_replicate in Hj. lia.
Qed.

Lemma admission_heap (o : Options) (e : Engine) (h : nat) (nowMs : Z) :
  heap (admission o e h nowMs).1
  = if accepted (admission o e h nowMs).2 then alter countEntry h (heap e)
    else heap e.
Proof.
  destruct (admission o e h nowMs).2 as [r|h' s] eqn:Hout; simpl.
  - now apply admission_rejected in Hout as (why & -> & _).
  - now apply admission_entry in Hout as [_ ->].
Qed.

(** Writing into a record without changing its address and index keeps the
    correspondence. *)
Lemma consistent_alter (e e' : Engine) (f : IpData → IpData) (h : nat) :
  (∀ d, ip (f d) = ip d ∧ index (f d) = index d) →
  monitoredIps e' = monitoredIps e → ipData e' = ipData e →
  heap e' = alter f h (heap e) →
  consistent e → consistent e'.
Proof.
  intros Hf Hslots Hmap Hheap [Hrec Hslot].
  unfold consistent. rewrite Hslots, Hmap, Hheap. split.
  - intros a k Hk. destruct (Hrec a k Hk) as (Ha & d & Hd & Hip & Hidx).
    split; [exact Ha|]. destruct (Hf d) as [Hfip Hfidx].
    destruct (decide (h = k)) as [->|Hne].
    + exists (f d). rewrite list_lookup_alter_eq, Hd, Hfip, Hfidx. done.
    + exists d. now rewrite list_lookup_alter_ne.
  - intros i a Hi. destruct (Hslot i a Hi) as (k & d & Hk & Hd & Hidx).
    destruct (Hf d) as [Hfip Hfidx].
    destruct (decide (h = k)) as [->|Hne].
    + exists k, (f d). rewrite list_lookup_alter_eq, Hd, Hfidx. done.
    + exists k, d. now rewrite list_lookup_alter_ne.
Qed.

Lemma consistent_same (e e' : Engine) :
  monitoredIps e' = monitoredIps e → ipData e' = ipData e → heap e' = heap e →
  consistent e → consistent e'.
Proof. unfold consistent. now intros -> -> ->. Qed.

(** Tracking a new address: the occupant of the chosen slot leaves the map,
    the address takes the slot. *)
Lemma addIpToMonitoring_consistent (a : string) (e : Engine) (nowMs : Z)
    (rnd : nat → Q) :
  a ≠ EmptyString → ipData e !! a = None → consistent e →
  consistent (addIpToMonitoring a e nowMs rnd).1.
Proof.
  intros Ha Hnew [Hrec Hslot]. unfold addIpToMonitoring, consistent.
  cbn [fst monitoredIps ipData heap].
  set (i := findEvictableIndex e nowMs rnd).
  set (m1 := match arrayGet (monitoredIps e) i with
             | Some old => if truthy (arrayGet (monitoredIps e) i)
                           then delete old (ipData e) else ipData e
             | None => ipData e
             end).
  assert (Hm1 : ∀ k h, m1 !! k = Some h →
            ipData e !! k = Some h ∧ monitoredIps e !! i ≠ Some (Some k)).
  { intros k h Hk. subst m1. unfold arrayGet in *.
    destruct (monitoredIps e !! i) as [[old|]|] eqn:Hi; simpl in *;
      [|done..].
    destruct (String.eqb_spec old EmptyString) as [->|Hold]; simpl in *.
    - split; [exact Hk|]. intros [= <-]. now apply Hrec in Hk as [Hk _].
    - apply lookup_delete_Some in Hk as [Hne Hk]. split; [exact Hk|congruence]. }
  assert (Hm1' : ∀ k h, ipData e !! k = Some h →
            monitoredIps e !! i ≠ Some (Some k) → m1 !! k = Some h).
  { intros k h Hk Hi. subst m1. unfold arrayGet.
    destruct (monitoredIps e !! i) as [[old|]|] eqn:Hslots; simpl; [|done..].
    destruct (negb _); [|done].
    rewrite lookup_delete_ne; [done|congruence]. }
  split.
  - intros k h. destruct (decide (a = k)) as [<-|Hne].
    + rewrite lookup_insert_eq. intros [= <-]. split; [exact Ha|].
      exists (newIpData a i nowMs). split; [|split; [reflexivity|]].
      * apply list_lookup_middle. reflexivity.
      * apply arraySet_lookup.
    + rewrite lookup_insert_ne by done. intros Hk.
      destruct (Hm1 k h Hk) as [Hk' Hi].
      destruct (Hrec k h Hk') as (Hk0 & d & Hd & Hip & Hidx).
      split; [exact Hk0|]. exists d. split; [|split; [exact Hip|]].
      * now apply lookup_app_l_Some.
      * apply arraySet_lookup_ne; [|exact Hidx].
        intros Heq. apply Hi. now rewrite Heq.
  - intros j b Hj. destruct (decide (i = j)) as [<-|Hne].
    + rewrite arraySet_lookup in Hj. injection Hj as <-.
      exists (length (heap e)), (newIpData a i nowMs).
      rewrite lookup_insert_eq. split; [reflexivity|]. split; [|reflexivity].
      apply list_lookup_middle. reflexivity.
    + apply arraySet_lookup_inv in Hj; [|exact Hne].
      destruct (Hslot j b Hj) as (h & d & Hh & Hd & Hidx).
      exists h, d. split; [|split; [now apply lookup_app_l_Some|exact Hidx]].
      rewrite lookup_insert_ne by congruence.
      apply Hm1'; [exact Hh|]. intros Hi.
      destruct (Hslot i b Hi) as (h' & d' & Hh' & Hd' & Hidx').
      congruence.
Qed.

Lemma step_consistent (o : Options) (e : Engine) (ev : Event) :
  consistent e → consistent (step o e ev).
Proof.
  intros Hinv. destruct ev as [nowMs req rnd|h statusCode|ipOrReq pts]; simpl.
  - unfold middleware.
    set (e0 := with_globalStats _ e).
    assert (Hinv0 : consistent e0) by now apply (consistent_same e).
    assert (Hinv1 : consistent (getOrCreate (getClientIp req) e0 nowMs rnd).1).
    { unfold getOrCreate.
      destruct (ipData e0 !! getClientIp req) eqn:Hh; [exact Hinv0|].
      apply addIpToMonitoring_consistent; [|exact Hh|exact Hinv0].
      apply truthy_Some, getClientIp_truthy. }
    destruct (getOrCreate (getClientIp req) e0 nowMs rnd) as [e1 h]. simpl in *.
    set (e2 := with_heap _ e1).
    assert (Hinv2 : consistent e2).
    { apply (consistent_alter e1 e2 (touch nowMs) h); try done.
      intros d. unfold touch, updateTimeWindows, update10SecWindow,
        updateMinuteWindow. now repeat destruct (negb _). }
    destruct (admission_table o e2 h nowMs) as [Hslots Hmap].
    pose proof (admission_heap o e2 h nowMs) as Hheap.
    destruct (accepted _).
    + now apply (consistent_alter e2 _ countEntry h).
    + now apply (consistent_same e2).
  - now apply (consistent_alter e _ (score o statusCode) h).
  - unfold addPointsToIp. destruct (ipData e !! _) as [h|]; simpl; [|exact Hinv].
    now apply (consistent_alter e _ (λ data, set_points (points data + pts) data) h).
Qed.

(** X2.  On an engine reached from its creation by any events, the map and
    the slot array describe each other.  The record found for an address
    carries that address and the index of the slot that holds it; an address
    held by a slot is tracked, by a record with the index of that slot; hence
    two tracked addresses never share a slot. *)
Theorem slots_match_records (o : Options) (t1 t2 t3 : Z) (e0 : Engine)
    (evs : list Event) :
  createPlastron o t1 t2 t3 = Some e0 →
  let e := run o e0 evs in
  (∀ a d, getIpData e a = Some d →
     ip d = a ∧ monitoredIps e !! index d = Some (Some a))
  ∧ (∀ i a, monitoredIps e !! i = Some (Some a) →
       ∃ d, getIpData e a = Some d ∧ index d = i)
  ∧ (∀ a b da db, getIpData e a = Some da → getIpData e b = Some db →
       index da = index db → a = b).
Proof.
  intros Hcreate e.
  assert (Hinv : consistent e).
  { subst e. assert (H0 : consistent e0).
    { unfold createPlastron in Hcreate. destruct (String.eqb _ _); [done|].
      injection Hcreate as <-. split; simpl.
      - intros a h Hh. by rewrite lookup_empty in Hh.
      - intros i a [Hi _]%lookup_replicate. discriminate. }
    clear Hcreate. revert e0 H0.
    induction evs as [|ev evs IH]; intros e0 H0; [exact H0|].
    apply IH, step_consistent, H0. }
  destruct Hinv as [Hrec Hslot].
  assert (Hget : ∀ a d, getIpData e a = Some d →
            ip d = a ∧ monitoredIps e !! index d = Some (Some a)).
  { intros a d. unfold getIpData.
    destruct (ipData e !! a) as [h|] eqn:Hh; [|done]. simpl. intros Hd.
    destruct (Hrec a h Hh) as (_ & d' & Hd' & Hip & Hidx).
    assert (d' = d) as -> by congruence. done. }
  split; [exact Hget|]. split.
  - intros i a Hi. destruct (Hslot i a Hi) as (h & d & Hh & Hd & Hidx).
    exists d. unfold getIpData. rewrite Hh. simpl. done.
  - intros a b da db Ha Hb Hidx.
    apply Hget in Ha as [_ Ha]. apply Hget in Hb as [_ Hb]. congruence.
Qed.

(** The engine after [someTraffic]: the record of 192.168.1.2, and slot 0. *)
Lemma slots_match_records_witness :
  (∀ d, getIpData (run (defaultOptions "busy") freshEngine someTraffic)
                  "192.168.1.2" = Some d →
        ip d = "192.168.1.2")
  ∧ ∃ d, getIpData (run (defaultOptions "busy") freshEngine someTraffic)
                   "192.168.1.1" = Some d
         ∧ index d = 0%nat.
Proof.
  destruct (slots_match_records (defaultOptions "busy") 1000000 1000000 1000000
              freshEngine someTraffic eq_refl) as (Hrec & Hslot & _).
  split.
  - intros d Hd. exact (proj1 (Hrec _ d Hd)).
  - apply (Hslot 0%nat "192.168.1.1"). vm_compute. reflexivity.
Defined.

(** ** The evicted slot lies inside the array *)

(** X3.  With draws of [0, 1) and an array of at least one slot,
    [findEvictableIndex] returns an index of the array, so that tracking a
    new address overwrites a slot and never changes the number of slots. *)
Theorem evicted_slot_in_range (a : string) (e : Engine) (nowMs : Z)
    (rnd : nat → Q) :
  (∀ k, unitInterval (rnd k)) →
  (0 < length (monitoredIps e))%nat →
  (findEvictableIndex e nowMs rnd < length (monitoredIps e))%nat
  ∧ length (monitoredIps (addIpToMonitoring a e nowMs rnd).1)
    = length (monitoredIps e).
Proof.
  intros Hrnd Hsize.
  pose proof (findEvictableIndex_range e nowMs rnd Hrnd) as Hlt.
  split; [lia|].
  rewrite addIpToMonitoring_length by exact Hrnd. lia.
Qed.

Lemma zeroThenHalf_unit (k : nat) : unitInterval (zeroThenHalf k).
Proof. destruct k; split; reflexivity || discriminate. Qed.

(** The table of [afterFive], probed with the draws 0 and 1/2. *)
Lemma evicted_slot_in_range_witness :
  (findEvictableIndex afterFive 1000001 zeroThenHalf < 1000)%nat
  ∧ length (monitoredIps
              (addIpToMonitoring "10.0.0.7" afterFive 1000001 zeroThenHalf).1)
    = 1000%nat.
Proof.
  destruct (evicted_slot_in_range "10.0.0.7" afterFive 1000001 zeroThenHalf
              zeroThenHalf_unit) as [Hlt Hlen].
  - vm_compute. lia.
  - split.
    + replace 1000%nat with (length (monitoredIps afterFive))
        by (vm_compute; reflexivity).
      exact Hlt.
    + rewrite Hlen. vm_compute. reflexivity.
Defined.

(** ** The punishment curve is monotone and bounded *)

Lemma range_positive (o : Options) :
  ipSlowDownMaxPunishmentAt o < ipSlowDownStartsAt o →
  (0 < inject_Z (ipSlowDownStartsAt o - ipSlowDownMaxPunishmentAt o))%Q.
Proof. intros H. change 0%Q with (inject_Z 0). rewrite <- Zlt_Qlt. lia. Qed.

Lemma scale_le (z x y : Q) : (0 <= z)%Q → (x <= y)%Q → (z * x <= z * y)%Q.
Proof.
  intros Hz Hxy. rewrite !(Qmult_comm z). now apply Qmult_le_compat_r.
Qed.

(** Below the start the ratio lies in [0, 1] and grows as the score falls. *)
Lemma slowdownRatio_bounds (o : Options) (pts : Z) :
  ipSlowDownMaxPunishmentAt o < ipSlowDownStartsAt o →
  (0 <= slowdownRatio pts o)%Q ∧ (slowdownRatio pts o <= 1)%Q.
Proof.
  intros Hrange. unfold slowdownRatio.
  destruct (Z.eqb_spec (ipSlowDownStartsAt o - ipSlowDownMaxPunishmentAt o) 0);
    [lia|].
  split; [|apply Q.le_min_l].
  apply Q.min_glb; [discriminate|].
  apply Qle_shift_div_l; [now apply range_positive|].
  rewrite Qmult_0_l. change 0%Q with (inject_Z 0). rewrite <- Zle_Qle. lia.
Qed.

Lemma slowdownRatio_antitone (o : Options) (p q : Z) :
  ipSlowDownMaxPunishmentAt o < ipSlowDownStartsAt o →
  p ≤ q →
  (slowdownRatio q o <= slowdownRatio p o)%Q.
Proof.
  intros Hrange Hpq. unfold slowdownRatio.
  destruct (Z.eqb_spec (ipSlowDownStartsAt o - ipSlowDownMaxPunishmentAt o) 0);
    [lia|].
  apply Q.min_le_compat_l. unfold Qdiv.
  apply Qmult_le_compat_r.
  - rewrite <- Zle_Qle. lia.
  - apply Qlt_le_weak, Qinv_lt_0_compat. now apply range_positive.
Qed.

(** X4.  With [ipSlowDownMaxPunishmentAt] below [ipSlowDownStartsAt] and a
    ceiling [ipSlowDownMaxS] that is not negative, the delay never grows when
    the score grows; it is 0 from [ipSlowDownStartsAt] upwards and lies
    between 100 ms and [max(100, ipSlowDownMaxS)] below it. *)
Theorem calculateSlowdown_antitone (o : Options) (p q : Z) :
  ipSlowDownMaxPunishmentAt o < ipSlowDownStartsAt o →
  0 ≤ ipSlowDownMaxS o →
  p ≤ q →
  (calculateSlowdown q o <= calculateSlowdown p o)%Q
  ∧ (ipSlowDownStartsAt o ≤ p → calculateSlowdown p o = 0%Q)
  ∧ (p < ipSlowDownStartsAt o →
     (100 <= calculateSlowdown p o)%Q
     ∧ (calculateSlowdown p o <= Qmax 100 (inject_Z (ipSlowDownMaxS o)))%Q).
Proof.
  intros Hrange Hceil Hpq.
  assert (HS : (0 <= inject_Z (ipSlowDownMaxS o))%Q).
  { change 0%Q with (inject_Z 0). now rewrite <- Zle_Qle. }
  assert (Hbelow : ∀ x, x < ipSlowDownStartsAt o →
            (100 <= calculateSlowdown x o)%Q
            ∧ (calculateSlowdown x o <= Qmax 100 (inject_Z (ipSlowDownMaxS o)))%Q).
  { intros x Hx. rewrite calculateSlowdown_below by exact Hx. split.
    - apply Q.le_max_l.
    - apply Q.max_le_compat_l.
      destruct (slowdownRatio_bounds o x Hrange) as [_ H1].
      rewrite <- (Qmult_1_l (inject_Z (ipSlowDownMaxS o))) at 2.
      now apply Qmult_le_compat_r. }
  split; [|split].
  - unfold calculateSlowdown at 1.
    destruct (Z.geb_spec q (ipSlowDownStartsAt o)) as [Hq|Hq].
    + unfold calculateSlowdown.
      destruct (Z.geb_spec p (ipSlowDownStartsAt o)); [apply Qle_refl|].
      apply Qle_trans with 100%Q; [discriminate|apply Q.le_max_l].
    + rewrite calculateSlowdown_below by lia.
      apply Q.max_le_compat_l, Qmult_le_compat_r; [|exact HS].
      now apply slowdownRatio_antitone.
  - intros Hp. unfold calculateSlowdown.
    destruct (Z.geb_spec p (ipSlowDownStartsAt o)); [done|lia].
  - apply Hbelow.
Qed.

(** The default curve between the scores -400000 and -200000. *)
Lemma calculateSlowdown_antitone_witness :
  (calculateSlowdown (-200000) (defaultOptions "busy")
   <= calculateSlowdown (-400000) (defaultOptions "busy"))%Q
  ∧ (100 <= calculateSlowdown (-400000) (defaultOptions "busy"))%Q
  ∧ (calculateSlowdown (-400000) (defaultOptions "busy") <= 5000)%Q.
Proof.
  destruct (calculateSlowdown_antitone (defaultOptions "busy")
              (-400000) (-200000)) as (Hmono & _ & Hbounds);
    [simpl; lia..|].
  destruct Hbounds as [Hlo Hhi]; [simpl; lia|].
  split; [exact Hmono|]. split; [exact Hlo|exact Hhi].
Defined.

(** X5.  With [ipSlowDownMaxPunishmentAt < ipSlowDownStartsAt <= 0] and base
    caps [1 <= negative cap <= positive cap], the connection cap never
    shrinks when the score grows, and it always lies between 1 and the base
    cap selected by the sign of the score. *)
Theorem calculateMaxConnections_monotone (o : Options) (p q : Z) :
  ipSlowDownMaxPunishmentAt o < ipSlowDownStartsAt o →
  ipSlowDownStartsAt o ≤ 0 →
  1 ≤ maxSimultanousConnectionsNegativePerIP o →
  maxSimultanousConnectionsNegativePerIP o ≤ maxSimultanousConnectionsPerIP o →
  p ≤ q →
  calculateMaxConnections p o ≤ calculateMaxConnections q o
  ∧ 1 ≤ calculateMaxConnections p o ≤ baseCap p o.
Proof.
  intros Hrange Hstart Hneg Hpos Hpq.
  set (neg := maxSimultanousConnectionsNegativePerIP o) in *.
  assert (HN : (0 <= inject_Z neg)%Q).
  { change 0%Q with (inject_Z 0). rewrite <- Zle_Qle. lia. }
  assert (Hbelow : ∀ x, x < ipSlowDownStartsAt o →
            calculateMaxConnections x o
            = Z.max 1 (Qfloor (inject_Z neg * (1 - slowdownRatio x o)))
            ∧ 1 ≤ calculateMaxConnections x o ≤ neg).
  { intros x Hx. rewrite calculateMaxConnections_baseCap by exact Hx.
    unfold baseCap. destruct (Z.geb_spec x 0); [lia|]. fold neg.
    split; [reflexivity|]. split; [lia|].
    apply Z.max_lub; [lia|].
    rewrite <- (Qfloor_Z neg) at 2. apply Qfloor_resp_le.
    destruct (slowdownRatio_bounds o x Hrange) as [H0 _].
    rewrite <- (Qmult_1_r (inject_Z neg)) at 2.
    apply scale_le; [exact HN|]. lra. }
  assert (Habove : ∀ x, ipSlowDownStartsAt o ≤ x →
            calculateMaxConnections x o = baseCap x o).
  { intros x Hx. unfold calculateMaxConnections, baseCap.
    destruct (Z.geb_spec x (ipSlowDownStartsAt o)); [done|lia]. }
  assert (Hbase : ∀ x, neg ≤ baseCap x o ∧ (x < 0 → baseCap x o = neg)).
  { intros x. unfold baseCap. destruct (Z.geb_spec x 0); fold neg; split; lia. }
  split.
  - destruct (Z.lt_ge_cases q (ipSlowDownStartsAt o)) as [Hq|Hq].
    + destruct (Hbelow p ltac:(lia)) as [-> _].
      destruct (Hbelow q Hq) as [-> _].
      apply Z.max_le_compat_l, Qfloor_resp_le.
      apply scale_le; [exact HN|].
      pose proof (slowdownRatio_antitone o p q Hrange Hpq). lra.
    + rewrite (Habove q Hq).
      destruct (Z.lt_ge_cases p (ipSlowDownStartsAt o)) as [Hp|Hp].
      * destruct (Hbelow p Hp) as [_ [_ Hle]].
        destruct (Hbase q) as [Hq' _]. lia.
      * rewrite (Habove p Hp). unfold baseCap.
        destruct (Z.geb_spec p 0), (Z.geb_spec q 0); fold neg; lia.
  - destruct (Z.lt_ge_cases p (ipSlowDownStartsAt o)) as [Hp|Hp].
    + destruct (Hbelow p Hp) as [_ [Hlo Hhi]].
      destruct (Hbase p) as [_ Hb]. rewrite Hb by lia. lia.
    + rewrite (Habove p Hp). destruct (Hbase p) as [Hb _]. lia.
Qed.

(** The default caps between the scores -400000 and 5. *)
Lemma calculateMaxConnections_monotone_witness :
  calculateMaxConnections (-400000) (defaultOptions "busy")
  ≤ calculateMaxConnections 5 (defaultOptions "busy")
  ∧ 1 ≤ calculateMaxConnections (-400000) (defaultOptions "busy") ≤ 10.
Proof.
  apply (calculateMaxConnections_monotone (defaultOptions "busy") (-400000) 5);
    simpl; lia.
Defined.

(** ** The checks in whole numbers *)

Lemma Qle_div_iff (a b m : Q) : (0 < m)%Q → (a <= b / m)%Q ↔ (a * m <= b)%Q.
Proof.
  intros Hm. split; [|now apply Qle_shift_div_l].
  intros H. apply Qmult_le_compat_r with (z := m) in H; [|now apply Qlt_le_weak].
  eapply Qle_trans; [exact H|].
  rewrite Qmult_comm, Qmult_div_r; [apply Qle_refl|].
  intros E. rewrite E in Hm. discriminate.
Qed.

(** The per-address estimate reaches a limit when the two 10-second windows
    hold ten times the limit. *)
Lemma address_rate_criterion (d : IpData) (cap : Z) :
  Qgeb (calculate10SecReqPerSec d) (inject_Z cap) = true
  ↔ 10 * cap ≤ reqInCurrent10Sec d + reqInPrev10Sec d.
Proof.
  unfold Qgeb, calculate10SecReqPerSec. rewrite Qle_bool_iff.
  rewrite Qle_div_iff by reflexivity.
  change 10%Q with (inject_Z 10). rewrite <- inject_Z_mult, <- Zle_Qle. lia.
Qed.

(** The global estimate reaches a limit when the two second windows hold the
    limit once per second elapsed since [prevSecStartMs], one second at
    least. *)
Lemma global_rate_criterion (g : GlobalStats) (nowMs cap : Z) :
  Qgeb (calculateCurrentReqPerSec g nowMs) (inject_Z cap) = true
  ↔ cap * Z.max 1000 (nowMs - prevSecStartMs g)
    ≤ 1000 * (reqInCurrentSec g + reqInPrevSec g).
Proof.
  unfold Qgeb, calculateCurrentReqPerSec. rewrite Qle_bool_iff.
  set (n := reqInCurrentSec g + reqInPrevSec g).
  set (d := nowMs - prevSecStartMs g).
  assert (Hpos : (0 < Qmax 1 (inject_Z d / 1000))%Q).
  { apply Qlt_le_trans with 1%Q; [reflexivity|apply Q.le_max_l]. }
  rewrite Qle_div_iff by exact Hpos.
  destruct (Z.le_gt_cases d 1000) as [Hd|Hd].
  - rewrite Z.max_l by lia.
    assert (E : (Qmax 1 (inject_Z d / 1000) == 1)%Q).
    { apply Q.max_l. apply Qle_shift_div_r; [reflexivity|].
      change (1 * 1000)%Q with (inject_Z 1000). now rewrite <- Zle_Qle. }
    rewrite E, Qmult_1_r, <- Zle_Qle. lia.
  - rewrite Z.max_r by lia.
    assert (E : (Qmax 1 (inject_Z d / 1000) == inject_Z d / 1000)%Q).
    { apply Q.max_r. apply Qle_shift_div_l; [reflexivity|].
      change (1 * 1000)%Q with (inject_Z 1000). rewrite <- Zle_Qle. lia. }
    rewrite E.
    assert (E2 : (inject_Z cap * (inject_Z d / 1000)
                  == inject_Z (cap * d) / inject_Z 1000)%Q).
    { rewrite inject_Z_mult. unfold Qdiv. now rewrite Qmult_assoc. }
    rewrite E2. clear E E2. split.
    + intros H.
      assert (H' : (inject_Z (cap * d) <= inject_Z n * inject_Z 1000)%Q).
      { apply (Qmult_le_compat_r _ _ (inject_Z 1000)) in H; [|discriminate].
        eapply Qle_trans; [|exact H].
        rewrite Qmult_comm, Qmult_div_r; [apply Qle_refl|discriminate]. }
      rewrite <- inject_Z_mult, <- Zle_Qle in H'. lia.
    + intros H. apply Qle_shift_div_r; [reflexivity|].
      rewrite <- inject_Z_mult, <- Zle_Qle. lia.
Qed.

(** X6.  While the global limit is off or the clock reading lies no more
    than one second after [prevSecStartMs] - so that the global rate is the
    plain count of the two second windows - a request passes the checks of
    the middleware exactly when, in whole numbers: the global limit is off
    ([maxRequestRatePerSec <= 0]) or the two second windows hold fewer
    requests than the limit; the limit for negative addresses is off, or the
    score is not negative, or fewer requests of negative addresses were
    counted this second than the limit; the two 10-second windows of the
    record hold fewer than ten times the per-address limit selected by the
    sign of the score; and the record has fewer open connections than
    [calculateMaxConnections] allows. *)
Theorem admission_criterion (o : Options) (e : Engine) (h : nat) (nowMs : Z) :
  let d := heap e !!! h in
  let g := globalStats e in
  maxRequestRatePerSec o ≤ 0 ∨ nowMs - prevSecStartMs g ≤ 1000 →
  accepted (admission o e h nowMs).2 = true
  ↔ (maxRequestRatePerSec o ≤ 0
     ∨ reqInCurrentSec g + reqInPrevSec g < maxRequestRatePerSec o)
    ∧ (maxRequestNegativeIPperSec o ≤ 0 ∨ 0 ≤ points d
       ∨ negativeReqInCurrentSec g < maxRequestNegativeIPperSec o)
    ∧ reqInCurrent10Sec d + reqInPrev10Sec d
      < 10 * (if points d >=? 0 then maxReqPerSecPerIP o
              else maxReqNegativePerSecPerIP o)
    ∧ connections d < calculateMaxConnections (points d) o.
Proof.
  intros d g Hexact. rewrite rejection_paths. fold d g.
  rewrite negb_true_iff, !orb_false_iff, !andb_false_iff.
  rewrite <- !not_true_iff_false, global_rate_criterion, address_rate_criterion.
  rewrite !Z.gtb_lt, !Z.ltb_lt, Z.geb_le, Z.geb_le.
  split.
  - intros (((Hg & Hn) & Ha) & Hc). repeat split; lia.
  - intros (Hg & Hn & Ha & Hc). repeat split; lia.
Qed.

(** A request for the record of [busyEngine], half a second after
    [prevSecStartMs], under the limits of the tests: 3 requests are fewer
    than 100, 7 fewer than 300, and no connection is open. *)
Lemma admission_criterion_witness :
  accepted (admission testOptions busyEngine 0 1000500).2 = true.
Proof.
  destruct (admission_criterion testOptions busyEngine 0 1000500)
    as [_ Hpass]; [right; vm_compute; discriminate|].
  apply Hpass. cbv zeta.
  split; [right; vm_compute; reflexivity|].
  split; [right; left; vm_compute; discriminate|].
  split; [vm_compute; reflexivity|vm_compute; reflexivity].
Defined.

(** ** The penalty for excessive use in whole numbers *)

Lemma Qgtb_div (n c thr : Z) :
  0 < c → Qgtb (inject_Z n / inject_Z c) (inject_Z thr) = (c * thr <? n).
Proof.
  intros Hc. unfold Qgtb.
  assert (HcQ : (0 < inject_Z c)%Q).
  { change 0%Q with (inject_Z 0). now rewrite <- Zlt_Qlt. }
  destruct (Z.ltb_spec (c * thr) n) as [Hlt|Hge].
  - apply negb_true_iff, not_true_iff_false. rewrite Qle_bool_iff.
    intros H. apply Qle_shift_div_r in H || idtac.
    apply (Qmult_le_compat_r _ _ (inject_Z c)) in H; [|now apply Qlt_le_weak].
    assert (H' : (inject_Z n <= inject_Z thr * inject_Z c)%Q).
    { eapply Qle_trans; [|exact H].
      rewrite Qmult_comm, Qmult_div_r; [apply Qle_refl|].
      intros E. rewrite E in HcQ. discriminate. }
    rewrite <- inject_Z_mult, <- Zle_Qle in H'. lia.
  - apply negb_false_iff, Qle_bool_iff, Qle_shift_div_r; [exact HcQ|].
    rewrite <- inject_Z_mult, <- Zle_Qle. lia.
Qed.

(** X7.  [checkExcessiveUsage] adds [pointsForExcessiveRequest] once when the
    two 10-second windows of the record hold more than
    [10 * excessiveReqPerS] requests, and once more when its two minute
    windows hold more than [60 * excessiveReqPerMin] requests: the minute
    threshold is compared with requests per second averaged over a minute.
    The penalty is therefore 0, once or twice that amount. *)
Theorem checkExcessiveUsage_criterion (d : IpData) (o : Options) :
  checkExcessiveUsage d o
  = (if 10 * excessiveReqPerS o <? reqInCurrent10Sec d + reqInPrev10Sec d
     then pointsForExcessiveRequest o else 0)
    + (if 60 * excessiveReqPerMin o <? reqInCurrentMin d + reqInPrevMin d
       then pointsForExcessiveRequest o else 0).
Proof.
  unfold checkExcessiveUsage, calculate10SecReqPerSec.
  change 10%Q with (inject_Z 10). change 60%Q with (inject_Z 60).
  rewrite !Qgtb_div by lia.
  destruct (_ <? _), (_ <? _); lia.
Qed.

(** ** What a call does to the record of the caller *)

(** X8.  A call for an address that has a record rolls the windows of that
    record and stamps [lastSeenMs], whatever the verdict; only an admission
    then counts the request in the current windows and opens a connection.
    A rejected request leaves the score and the open connections as they
    were, and no call for a known address changes the set of tracked
    addresses or the slots. *)
Theorem known_address_call (o : Options) (e : Engine) (nowMs : Z)
    (req : Request) (rnd : nat → Q) (h : nat) (d : IpData) :
  ipData e !! getClientIp req = Some h →
  heap e !! h = Some d →
  let r := middleware o e nowMs req rnd in
  getIpData r.1 (getClientIp req)
  = Some (if accepted r.2 then countEntry (touch nowMs d) else touch nowMs d)
  ∧ lastSeenMs (touch nowMs d) = nowMs
  ∧ points (touch nowMs d) = points d
  ∧ connections (touch nowMs d) = connections d
  ∧ ipData r.1 = ipData e
  ∧ monitoredIps r.1 = monitoredIps e.
Proof.
  intros Hh Hd r. subst r. rewrite (middleware_known o e nowMs req rnd h Hh).
  set (e2 := with_heap _ _).
  destruct (admission_table o e2 h nowMs) as [Hslots Hmap].
  destruct (touch_frame nowMs d) as [Hp Hc].
  split; [|by repeat split].
  unfold getIpData. rewrite Hmap. subst e2. cbn [ipData with_heap with_globalStats].
  rewrite Hh. simpl. rewrite admission_heap. cbn [heap with_heap with_globalStats].
  destruct (accepted _).
  - now rewrite list_lookup_alter_eq, list_lookup_alter_eq, Hd.
  - now rewrite list_lookup_alter_eq, Hd.
Qed.

(** The tracked address of [busyEngine] five seconds after it was seen. *)
Lemma known_address_call_witness :
  getIpData (middleware (defaultOptions "busy") busyEngine 1005000
                        (requestFrom "192.168.1.1") zeroDraws).1 "192.168.1.1"
  = Some (countEntry (touch 1005000 busyRecord))
  ∧ ipData (middleware (defaultOptions "busy") busyEngine 1005000
                       (requestFrom "192.168.1.1") zeroDraws).1
    = ipData busyEngine.
Proof.
  destruct (known_address_call (defaultOptions "busy") busyEngine 1005000
              (requestFrom "192.168.1.1") zeroDraws 0%nat busyRecord)
    as (Hget & _ & _ & _ & Hmap & _); [reflexivity|reflexivity|].
  split; [|exact Hmap].
  change (getClientIp (requestFrom "192.168.1.1")) with "192.168.1.1"%string in Hget.
  rewrite Hget. reflexivity.
Defined.

(** ** What a call does for an address that has no record *)

Lemma findEvictableIndex_stats {G G'} (g : G') (e : EngineOf G) (nowMs : Z)
    (rnd : nat → Q) :
  findEvictableIndex (with_globalStats g e) nowMs rnd
  = findEvictableIndex e nowMs rnd.
Proof. apply findEvictableLoop_stats. Qed.

(** X9.  A call for an address without a record always creates one, in the
    slot [findEvictableIndex] returns, whatever the verdict of the call: a
    rejected request, too, takes a slot.  The record is new (score 0), with
    the request counted and one open connection if it was admitted.  An
    address that held the slot before is no longer tracked, and the number of
    tracked addresses grows by one exactly when the slot held no tracked
    address. *)
Theorem unseen_address_call (o : Options) (e : Engine) (nowMs : Z)
    (req : Request) (rnd : nat → Q) :
  ipData e !! getClientIp req = None →
  let a := getClientIp req in
  let i := findEvictableIndex e nowMs rnd in
  let r := middleware o e nowMs req rnd in
  getIpData r.1 a
  = Some (if accepted r.2 then countEntry (newIpData a i nowMs)
          else newIpData a i nowMs)
  ∧ monitoredIps r.1 = arraySet (monitoredIps e) i (Some a)
  ∧ (∀ old, arrayGet (monitoredIps e) i = Some old → old ≠ EmptyString →
       old ≠ a → getIpData r.1 old = None)
  ∧ totalMonitoredIps r.1
    = (if occupantTracked e i then totalMonitoredIps e
       else S (totalMonitoredIps e)).
Proof.
  intros Hnew a i r.
  destruct (middleware_admission o e nowMs req rnd) as (e2 & h & Hmid & _ & Hrec).
  specialize (Hrec Hnew).
  assert (Hr : r = admission o
      (with_heap (alter (touch nowMs) (length (heap e))
                    (heap e ++ [newIpData a i nowMs]))
         (addIpToMonitoring a
            (with_globalStats (updateGlobalStats (globalStats e) nowMs) e)
            nowMs rnd).1)
      (length (heap e)) nowMs).
  { subst r a i. unfold middleware, getOrCreate.
    cbn [ipData with_globalStats]. rewrite Hnew.
    unfold addIpToMonitoring. rewrite findEvictableIndex_stats.
    reflexivity. }
  rewrite Hr. set (e3 := with_heap _ _).
  destruct (admission_table o e3 (length (heap e)) nowMs) as [Hslots Hmap].
  assert (Hheap3 : heap e3 = heap e ++ [newIpData a i nowMs]).
  { subst e3. cbn [heap with_heap].
    rewrite alter_app_r_alt by lia. rewrite Nat.sub_diag. simpl.
    unfold touch, updateTimeWindows, updateMinuteWindow, update10SecWindow.
    simpl. now rewrite !Z.eqb_refl. }
  assert (Hmap3 : ipData e3
            = <[a := length (heap e)]>
                (match arrayGet (monitoredIps e) i with
                 | Some old => if truthy (arrayGet (monitoredIps e) i)
                               then delete old (ipData e) else ipData e
                 | None => ipData e
                 end)).
  { subst e3. unfold addIpToMonitoring.
    cbn [ipData with_heap with_globalStats fst monitoredIps].
    rewrite findEvictableIndex_stats. reflexivity. }
  assert (Hslots3 : monitoredIps e3 = arraySet (monitoredIps e) i (Some a)).
  { subst e3. unfold addIpToMonitoring.
    cbn [monitoredIps with_heap with_globalStats fst].
    rewrite findEvictableIndex_stats. reflexivity. }
  split; [|split; [|split]].
  - unfold getIpData. rewrite Hmap, Hmap3, lookup_insert_eq. simpl.
    rewrite admission_heap, Hheap3. destruct (accepted _).
    + rewrite alter_app_r_alt by lia. rewrite Nat.sub_diag. simpl.
      now rewrite list_lookup_middle.
    + now rewrite list_lookup_middle.
  - now rewrite Hslots, Hslots3.
  - intros old Hold Hne Hoa. unfold getIpData.
    rewrite Hmap, Hmap3, lookup_insert_ne by done. rewrite Hold.
    assert (Ht : truthy (Some old) = true) by now apply truthy_Some.
    rewrite Ht, lookup_delete_eq. reflexivity.
  - unfold totalMonitoredIps. rewrite Hmap, Hmap3. unfold occupantTracked.
    destruct (arrayGet (monitoredIps e) i) as [old|] eqn:Hold.
    + destruct (truthy (Some old)) eqn:Ht; cbn [andb].
      * case_bool_decide as Hin.
        -- destruct Hin as [k Hk].
           rewrite map_size_insert_None
             by (apply lookup_delete_None; right; exact Hnew).
           rewrite map_size_delete_Some by eauto.
           assert (size (ipData e) ≠ 0%nat).
           { intros E. apply map_size_empty_iff in E. rewrite E in Hk.
             by rewrite lookup_empty in Hk. }
           lia.
        -- rewrite map_size_insert_None
             by (apply lookup_delete_None; right; exact Hnew).
           rewrite delete_id; [done|].
           apply eq_None_not_Some. exact Hin.
      * now rewrite map_size_insert_None by exact Hnew.
    + now rewrite map_size_insert_None by exact Hnew.
Qed.

(** A second address on [twoSlotsEngine]: probing slot 0, whose occupant was
    seen more than five minutes ago, evicts it; probing slot 1 takes the
    empty slot. *)
Lemma unseen_address_call_witness :
  totalMonitoredIps (middleware twoSlots twoSlotsEngine 2000000
                                (requestFrom "192.168.1.2") zeroDraws).1
  = 1%nat
  ∧ getIpData (middleware twoSlots twoSlotsEngine 2000000
                          (requestFrom "192.168.1.2") zeroDraws).1 "192.168.1.1"
    = None
  ∧ totalMonitoredIps (middleware twoSlots twoSlotsEngine 2000000
                                  (requestFrom "192.168.1.2") (λ _, 1 # 2)%Q).1
    = 2%nat.
Proof.
  destruct (unseen_address_call twoSlots twoSlotsEngine 2000000
              (requestFrom "192.168.1.2") zeroDraws)
    as (_ & _ & Hold & Hsize); [reflexivity|].
  destruct (unseen_address_call twoSlots twoSlotsEngine 2000000
              (requestFrom "192.168.1.2") (λ _, 1 # 2)%Q)
    as (_ & _ & _ & Hsize'); [reflexivity|].
  split; [rewrite Hsize; vm_compute; reflexivity|].
  split; [|rewrite Hsize'; vm_compute; reflexivity].
  apply Hold; [vm_compute; reflexivity|discriminate..].
Defined.

(** ** Admission and completion *)

(** X10.  When a request of a tracked address is admitted and its response is
    sent, the connection it opened is closed again: the record has as many
    open connections as before the request (which is never negative), and
    its score has changed by the points of the status plus the penalty for
    excessive use, computed with the request counted in the windows. *)
Theorem admit_then_send (o : Options) (e : Engine) (nowMs : Z)
    (req : Request) (rnd : nat → Q) (h : nat) (d : IpData) (h' : nat) (s : Q)
    (statusCode : Z) :
  ipData e !! getClientIp req = Some h →
  heap e !! h = Some d →
  0 ≤ connections d →
  (middleware o e nowMs req rnd).2 = Accepted h' s →
  let counted := countEntry (touch nowMs d) in
  h' = h
  ∧ ∃ d', getIpData (sendHook o (middleware o e nowMs req rnd).1 h' statusCode)
                    (getClientIp req) = Some d'
          ∧ connections d' = connections d
          ∧ points d'
            = points d + (calculatePoints statusCode o
                          + checkExcessiveUsage counted o)
          ∧ reqInCurrent10Sec d' = reqInCurrent10Sec counted
          ∧ reqInCurrentMin d' = reqInCurrentMin counted.
Proof.
  intros Hh Hd Hconn Hadm counted.
  destruct (known_address_call o e nowMs req rnd h d Hh Hd)
    as (Hget & _ & Hp & Hc & Hmap & _).
  rewrite Hadm in Hget. cbn [accepted] in Hget.
  destruct (middleware_entry o e nowMs req rnd) as (k & Hk & Hsame).
  rewrite Hmap, Hh in Hk. injection Hk as <-.
  pose proof (Hsame h' s Hadm) as ->.
  split; [reflexivity|].
  exists (score o statusCode counted).
  split; [|split; [|split; [|split]]].
  - unfold getIpData in *. cbn [ipData heap sendHook with_heap].
    rewrite Hmap, Hh in *. simpl in *.
    now rewrite list_lookup_alter_eq, Hget.
  - unfold score, counted, countEntry, set_connections, set_points.
    cbn [connections]. rewrite Hc. lia.
  - unfold score, counted, set_connections, set_points. cbn [points].
    unfold countEntry at 1. cbn [points]. now rewrite Hp.
  - reflexivity.
  - reflexivity.
Qed.

(** A request of the address of [busyEngine] that ends with a 404. *)
Lemma admit_then_send_witness :
  ∃ d', getIpData (sendHook (defaultOptions "busy")
                     (middleware (defaultOptions "busy") busyEngine 1005000
                                 (requestFrom "192.168.1.1") zeroDraws).1
                     0 404) "192.168.1.1" = Some d'
        ∧ connections d' = 0
        ∧ points d' = 0 + (-100 + 0).
Proof.
  destruct (admit_then_send (defaultOptions "busy") busyEngine 1005000
              (requestFrom "192.168.1.1") zeroDraws 0%nat busyRecord 0%nat 0%Q
              404)
    as (_ & d' & Hget & Hc & Hp & _);
    [reflexivity|reflexivity|simpl; lia|vm_compute; reflexivity|].
  exists d'. split; [exact Hget|]. split; [exact Hc|].
  rewrite Hp. vm_compute. reflexivity.
Defined.

(** ** Updates at one and the same timestamp *)

(** X11.  Once a record is stamped with a timestamp, updating its windows
    again at that timestamp changes nothing: several requests of an address
    at the same instant roll its windows once. *)
Theorem touch_idempotent (nowMs : Z) (d : IpData) :
  updateTimeWindows (touch nowMs d) nowMs = touch nowMs d
  ∧ touch nowMs (touch nowMs d) = touch nowMs d.
Proof.
  assert (E : updateTimeWindows (touch nowMs d) nowMs = touch nowMs d).
  { assert (Hseen : lastSeenMs (touch nowMs d) = nowMs) by reflexivity.
    revert Hseen. generalize (touch nowMs d). intros t Hseen.
    unfold updateTimeWindows, updateMinuteWindow.
    rewrite Hseen, Z.eqb_refl. cbn [negb].
    unfold update10SecWindow. now rewrite Hseen, Z.eqb_refl. }
  split; [exact E|].
  unfold touch at 1. rewrite E. reflexivity.
Qed.

Lemma updateGlobalMin_idempotent (g : GlobalStats) (nowMs : Z) :
  updateGlobalMin (updateGlobalMin g nowMs) nowMs = updateGlobalMin g nowMs.
Proof.
  unfold updateGlobalMin.
  destruct (negb (boundary 60000 nowMs
                  =? boundary 60000 (currentMinStartMs g))) eqn:E; simpl.
  - now rewrite Z.eqb_refl.
  - now rewrite E.
Qed.

Lemma updateGlobalSec_Min (g : GlobalStats) (nowMs : Z) :
  updateGlobalSec (updateGlobalMin g nowMs) nowMs
  = updateGlobalMin (updateGlobalSec g nowMs) nowMs.
Proof.
  unfold updateGlobalSec, updateGlobalMin.
  destruct (negb (boundary 60000 nowMs
                  =? boundary 60000 (currentMinStartMs g))) eqn:Em;
    destruct (negb (boundary 1000 nowMs
                    =? boundary 1000 (prevSecStartMs g))) eqn:Es;
    simpl; rewrite ?Em, ?Es; reflexivity.
Qed.

Lemma updateGlobalSec_stable (g : GlobalStats) (nowMs : Z) :
  updateGlobalSec (updateGlobalSec (updateGlobalSec g nowMs) nowMs) nowMs
  = updateGlobalSec (updateGlobalSec g nowMs) nowMs.
Proof.
  unfold updateGlobalSec.
  destruct (negb (boundary 1000 nowMs
                  =? boundary 1000 (prevSecStartMs g))) eqn:E1; simpl.
  - destruct (negb (boundary 1000 nowMs
                    =? boundary 1000 (currentSecStartMs g))) eqn:E2; simpl.
    + now rewrite Z.eqb_refl.
    + now rewrite E2.
  - now rewrite !E1.
Qed.

Lemma updateGlobalStats_twice (g : GlobalStats) (nowMs : Z) :
  updateGlobalStats (updateGlobalStats g nowMs) nowMs
  = updateGlobalMin (updateGlobalSec (updateGlobalSec g nowMs) nowMs) nowMs.
Proof.
  unfold updateGlobalStats.
  now rewrite updateGlobalSec_Min, updateGlobalMin_idempotent.
Qed.

(** X12.  The second window of the global counters compares the new second
    with the second of [prevSecStartMs], the start of the window before the
    current one.  Hence, when a request arrives in a second that is neither
    that of [prevSecStartMs] nor that of [currentSecStartMs], the window
    rolls at this request and rolls again at the next request of the same
    timestamp: the count carried from the earlier second is dropped, and the
    previous-second counter then holds what the first request counted.  From
    the second roll on, further updates at that timestamp change nothing. *)
Theorem global_window_rolls_twice (g : GlobalStats) (nowMs : Z) (negative : bool) :
  (boundary 1000 nowMs ≠ boundary 1000 (prevSecStartMs g) →
   boundary 1000 nowMs ≠ boundary 1000 (currentSecStartMs g) →
   let g1 := countGlobal negative (updateGlobalStats g nowMs) in
   let g2 := updateGlobalStats g1 nowMs in
   reqInPrevSec (updateGlobalStats g nowMs) = reqInCurrentSec g
   ∧ reqInPrevSec g2 = 1
   ∧ reqInCurrentSec g2 = 0
   ∧ prevSecStartMs g2 = nowMs
   ∧ currentSecStartMs g2 = nowMs)
  ∧ updateGlobalStats
      (updateGlobalStats (updateGlobalStats g nowMs) nowMs) nowMs
    = updateGlobalStats (updateGlobalStats g nowMs) nowMs.
Proof.
  split.
  - intros Hprev Hcur g1 g2.
    destruct (updateGlobalStats_sec g nowMs) as (Ec & Ep & Eps & Ecs).
    destruct (updateGlobalStats_sec g1 nowMs) as (Ec2 & Ep2 & Eps2 & Ecs2).
    unfold g2. rewrite Ep, Ep2, Ec2, Eps2, Ecs2. clear g2 Ep2 Ec2 Eps2 Ecs2.
    assert (Hg1 : reqInCurrentSec g1 = reqInCurrentSec (updateGlobalSec g nowMs) + 1
                  ∧ prevSecStartMs g1 = prevSecStartMs (updateGlobalSec g nowMs)
                  ∧ currentSecStartMs g1
                    = currentSecStartMs (updateGlobalSec g nowMs)).
    { unfold g1, countGlobal.
      cbn [reqInCurrentSec prevSecStartMs currentSecStartMs].
      now rewrite Ec, Eps, Ecs. }
    destruct Hg1 as (Hc1 & Hps1 & Hcs1). clearbody g1.
    assert (Hsec : updateGlobalSec g nowMs
                   = {| reqInPrevSec := reqInCurrentSec g;
                        reqInCurrentSec := 0;
                        negativeReqInCurrentSec := 0;
                        prevSecStartMs := currentSecStartMs g;
                        currentSecStartMs := nowMs;
                        gReqInCurrentMin := gReqInCurrentMin g;
                        gReqInPrevMin := gReqInPrevMin g;
                        rateLimited429InCurrentMin := rateLimited429InCurrentMin g;
                        rateLimited429InPrevMin := rateLimited429InPrevMin g;
                        currentMinStartMs := currentMinStartMs g |}).
    { unfold updateGlobalSec.
      destruct (Z.eqb_spec (boundary 1000 nowMs)
                  (boundary 1000 (prevSecStartMs g))); [done|reflexivity]. }
    rewrite Hsec in *. simpl in Hc1, Hps1, Hcs1. simpl.
    unfold updateGlobalSec. rewrite Hps1.
    destruct (Z.eqb_spec (boundary 1000 nowMs)
                (boundary 1000 (currentSecStartMs g))); [done|]. simpl.
    rewrite Hc1, Hcs1. done.
  - rewrite (updateGlobalStats_twice g). unfold updateGlobalStats.
    now rewrite updateGlobalSec_Min, updateGlobalMin_idempotent,
      updateGlobalSec_stable.
Qed.

(** The counters of [afterFive] (five requests at 1000000 ms) at a request
    ten seconds later and at the next one of that instant. *)
Lemma global_window_rolls_twice_witness :
  reqInPrevSec (updateGlobalStats (globalStats afterFive) 1010000) = 5
  ∧ reqInPrevSec
      (updateGlobalStats
         (countGlobal false (updateGlobalStats (globalStats afterFive) 1010000))
         1010000) = 1.
Proof.
  destruct (global_window_rolls_twice (globalStats afterFive) 1010000 false)
    as [Hroll _].
  destruct Hroll as (H1 & H2 & _);
    [vm_compute; discriminate|vm_compute; discriminate|].
  split; [rewrite H1; reflexivity|exact H2].
Defined.

(** ** The two builds agree *)

Lemma forget_step (o : Options) (e : Engine) (ev : Event) :
  distStep o (forgetEngine e) ev = forgetEngine (step o e ev).
Proof.
  destruct ev as [nowMs req rnd|h statusCode|ipOrReq pts]; simpl.
  - now rewrite forget_middleware.
  - reflexivity.
  - unfold addPointsToIp. simpl. now destruct (ipData e !! _).
Qed.

(** X13.  The older build [dist/plastron.js] and the current build give the
    same verdicts and keep the same table, records and second counters: an
    engine of the older build created with the same options and clock
    readings and fed the same events is, at every moment, the engine of the
    current build without its minute counters and its counter of rejections,
    and each middleware call of the older build answers as the call of the
    current build does, the [reason] of the debug mode apart. *)
Theorem builds_agree (o : Options) (t1 t2 t3 : Z) (evs : list Event)
    (nowMs : Z) (req : Request) (rnd : nat → Q) :
  distCreatePlastron o t1 t2 = forgetEngine <$> createPlastron o t1 t2 t3
  ∧ ∀ e : Engine,
      distRun o (forgetEngine e) evs = forgetEngine (run o e evs)
      ∧ Dist.middleware o (distRun o (forgetEngine e) evs) nowMs req rnd
        = (forgetEngine (middleware o (run o e evs) nowMs req rnd).1,
           plain (middleware o (run o e evs) nowMs req rnd).2).
Proof.
  split.
  - unfold distCreatePlastron, createPlastron.
    now destruct (String.eqb _ _).
  - assert (Hrun : ∀ e : Engine,
              distRun o (forgetEngine e) evs = forgetEngine (run o e evs)).
    { induction evs as [|ev evs IH]; intros e; [reflexivity|].
      unfold distRun, run in *. simpl. rewrite forget_step. apply IH. }
    intros e. split; [apply Hrun|].
    rewrite Hrun. apply forget_middleware.
Qed.

(** ** The first request of an address *)

(** The state in which the checks run for an address without a record. *)
Lemma middleware_unseen (o : Options) (e : Engine) (nowMs : Z) (req : Request)
    (rnd : nat → Q) :
  ipData e !! getClientIp req = None →
  ∃ e3 : Engine,
    middleware o e nowMs req rnd = admission o e3 (length (heap e)) nowMs
    ∧ globalStats e3 = updateGlobalStats (globalStats e) nowMs
    ∧ ipData e3 !! getClientIp req = Some (length (heap e))
    ∧ heap e3
      = heap e ++ [newIpData (getClientIp req) (findEvictableIndex e nowMs rnd)
                             nowMs].
Proof.
  intros Hnew. eexists. split; [|split; [|split]].
  - unfold middleware, getOrCreate. cbn [ipData with_globalStats].
    rewrite Hnew. reflexivity.
  - reflexivity.
  - cbn [ipData with_heap addIpToMonitoring fst]. apply lookup_insert_eq.
  - cbn [heap with_heap addIpToMonitoring fst with_globalStats].
    rewrite alter_app_r_alt by lia. rewrite Nat.sub_diag. cbn [alter list_alter].
    rewrite findEvictableIndex_stats.
    unfold touch, updateTimeWindows, updateMinuteWindow, update10SecWindow.
    simpl. now rewrite !Z.eqb_refl.
Qed.

(** X14.  The first request of an address that has no record is admitted
    whenever the global rate check does not fire and the limits for a score
    of 0 are positive, whether or not the table is full: the capacity bounds
    what is tracked, not which new addresses are admitted.  The request is
    delayed as a score of 0 is. *)
Theorem unseen_address_admitted (o : Options) (e : Engine) (nowMs : Z)
    (req : Request) (rnd : nat → Q) :
  ipData e !! getClientIp req = None →
  (maxRequestRatePerSec o ≤ 0
   ∨ 1000 * (reqInCurrentSec (updateGlobalStats (globalStats e) nowMs)
             + reqInPrevSec (updateGlobalStats (globalStats e) nowMs))
     < maxRequestRatePerSec o
       * Z.max 1000 (nowMs - prevSecStartMs
                               (updateGlobalStats (globalStats e) nowMs))) →
  0 < maxReqPerSecPerIP o →
  0 < calculateMaxConnections 0 o →
  (middleware o e nowMs req rnd).2
  = Accepted (length (heap e)) (calculateSlowdown 0 o).
Proof.
  intros Hnew Hglobal Hrate Hconn.
  destruct (middleware_unseen o e nowMs req rnd Hnew)
    as (e3 & -> & Hg & _ & Hheap).
  assert (Hd : heap e3 !!! length (heap e)
               = newIpData (getClientIp req) (findEvictableIndex e nowMs rnd)
                           nowMs).
  { rewrite Hheap, lookup_total_app_r by lia. now rewrite Nat.sub_diag. }
  assert (Hacc : accepted (admission o e3 (length (heap e)) nowMs).2 = true).
  { rewrite rejection_paths. cbv zeta. rewrite Hd, Hg.
    change (points (newIpData _ _ _)) with 0.
    change (connections (newIpData _ _ _)) with 0.
    change (0 <? 0) with false. change (0 >=? 0) with true. cbv iota.
    rewrite address_rate_zero by (done || lia).
    rewrite !andb_false_r.
    assert (Hg' : (maxRequestRatePerSec o >? 0)
                  && Qgeb (calculateCurrentReqPerSec
                             (updateGlobalStats (globalStats e) nowMs) nowMs)
                          (inject_Z (maxRequestRatePerSec o)) = false).
    { apply andb_false_iff. destruct Hglobal as [Hoff|Hlow].
      - left. rewrite Z.gtb_ltb. apply Z.ltb_ge. exact Hoff.
      - right. apply not_true_iff_false. rewrite global_rate_criterion. lia. }
    rewrite Hg'. simpl.
    destruct (Z.geb_spec 0 (calculateMaxConnections 0 o)); [lia|done]. }
  destruct (admission o e3 (length (heap e)) nowMs).2 as [|h s] eqn:Hout;
    [discriminate|].
  destruct (admission_curve o e3 _ nowMs h s Hout) as [-> _].
  apply admission_entry in Hout as [-> _].
  now rewrite Hd.
Qed.

(** A second address asks on [twoSlotsEngine], under the default limits. *)
Lemma unseen_address_admitted_witness :
  (middleware twoSlots twoSlotsEngine 2000000
              (requestFrom "192.168.1.2") zeroDraws).2
  = Accepted 1 (calculateSlowdown 0 twoSlots).
Proof.
  apply (unseen_address_admitted twoSlots twoSlotsEngine 2000000
           (requestFrom "192.168.1.2") zeroDraws).
  - reflexivity.
  - left. simpl. lia.
  - simpl. lia.
  - vm_compute. reflexivity.
Defined.

(** ** Completions of evicted requests *)

(** X15.  A record created for a new address gets a reference that no
    request admitted before holds, so a response sent later for an earlier
    request - also one of the same address, admitted before the address was
    evicted - never changes the new record. *)
Theorem stale_completion (o : Options) (e : Engine) (nowMs : Z)
    (req : Request) (rnd : nat → Q) (h0 : nat) (statusCode : Z) :
  ipData e !! getClientIp req = None →
  (h0 < length (heap e))%nat →
  let r := middleware o e nowMs req rnd in
  ipData r.1 !! getClientIp req = Some (length (heap e))
  ∧ getIpData (sendHook o r.1 h0 statusCode) (getClientIp req)
    = getIpData r.1 (getClientIp req)
  ∧ is_Some (getIpData r.1 (getClientIp req)).
Proof.
  intros Hnew Hold r. subst r.
  destruct (middleware_unseen o e nowMs req rnd Hnew)
    as (e3 & -> & _ & Hh & Hheap).
  destruct (admission_table o e3 (length (heap e)) nowMs) as [_ Hmap].
  split; [now rewrite Hmap|]. split.
  - unfold getIpData. cbn [ipData heap sendHook with_heap].
    rewrite Hmap, Hh. simpl. apply list_lookup_alter_ne. lia.
  - unfold getIpData. rewrite Hmap, Hh. simpl.
    apply lookup_lt_is_Some. rewrite admission_heap_length, Hheap, length_app.
    simpl. lia.
Qed.

(** On [twoSlotsEngine], whose record 0 belongs to 192.168.1.1: a second
    address comes and the response of an earlier request of the first is
    sent. *)
Lemma stale_completion_witness :
  getIpData (sendHook twoSlots
               (middleware twoSlots twoSlotsEngine 2000000
                           (requestFrom "192.168.1.2") zeroDraws).1 0 404)
            "192.168.1.2"
  = getIpData (middleware twoSlots twoSlotsEngine 2000000
                          (requestFrom "192.168.1.2") zeroDraws).1
              "192.168.1.2".
Proof.
  destruct (stale_completion twoSlots twoSlotsEngine 2000000
              (requestFrom "192.168.1.2") zeroDraws 0%nat 404)
    as (_ & Hsame & _); [reflexivity|simpl; lia|].
  exact Hsame.
Defined.

(** ** The per-address limits hold along every run *)

(** A property of records that the operations on records keep is kept by every
    event; the increments of an admission only need to keep it for a record
    that passed the per-address checks. *)
Lemma step_records (o : Options) (P : IpData → Prop) :
  (∀ a i nowMs, P (newIpData a i nowMs)) →
  (∀ nowMs d, P d → P (touch nowMs d)) →
  (∀ statusCode d, P d → P (score o statusCode d)) →
  (∀ pts d, P d → P (set_points pts d)) →
  (∀ d, P d →
     Qgeb (calculate10SecReqPerSec d)
          (inject_Z (if points d >=? 0 then maxReqPerSecPerIP o
                     else maxReqNegativePerSecPerIP o)) = false →
     connections d < calculateMaxConnections (points d) o →
     P (countEntry d)) →
  ∀ (e : Engine) (ev : Event),
    Forall P (heap e) → Forall P (heap (step o e ev)).
Proof.
  intros Hnew Htouch Hscore Hpts Hcount e ev Hheap.
  destruct ev as [nowMs req rnd|h statusCode|ipOrReq pts]; simpl.
  - unfold middleware.
    set (e0 := with_globalStats _ e).
    assert (Hh1 : Forall P (heap (getOrCreate (getClientIp req) e0 nowMs rnd).1)).
    { unfold getOrCreate. destruct (ipData e0 !! _); [exact Hheap|].
      simpl. apply Forall_app. split; [exact Hheap|].
      apply Forall_singleton, Hnew. }
    destruct (getOrCreate (getClientIp req) e0 nowMs rnd) as [e1 h].
    simpl in Hh1.
    set (e2 := with_heap _ e1).
    assert (Hh2 : Forall P (heap e2)).
    { apply Forall_alter; [exact Hh1|]. intros d _. apply Htouch. }
    clearbody e2. clear Hh1 Hheap.
    destruct (admission o e2 h nowMs).2 as [r|h' s] eqn:Hout.
    + destruct (admission_rejected o e2 h nowMs r Hout) as (why & -> & _).
      exact Hh2.
    + pose proof (rejection_paths o e2 h nowMs) as Hpaths. cbv zeta in Hpaths.
      rewrite Hout in Hpaths. simpl in Hpaths. symmetry in Hpaths.
      apply negb_true_iff in Hpaths.
      apply orb_false_iff in Hpaths as [Hpaths Hconn].
      apply orb_false_iff in Hpaths as [_ Hrate].
      apply admission_entry in Hout as [_ ->].
      apply Forall_alter; [exact Hh2|]. intros d Hd HP.
      apply list_lookup_total_correct in Hd. rewrite Hd in Hrate, Hconn.
      apply Hcount; [exact HP|exact Hrate|].
      destruct (Z.geb_spec (connections d)
                  (calculateMaxConnections (points d) o)); [done|lia].
  - apply Forall_alter; [exact Hheap|]. intros d _. apply Hscore.
  - unfold addPointsToIp. destruct (ipData e !! _); simpl; [|done].
    apply Forall_alter; [exact Hheap|]. intros d _. apply Hpts.
Qed.

Lemma run_records (o : Options) (P : IpData → Prop) :
  (∀ (e : Engine) (ev : Event),
     Forall P (heap e) → Forall P (heap (step o e ev))) →
  ∀ (evs : list Event) (e : Engine),
    Forall P (heap e) → Forall P (heap (run o e evs)).
Proof.
  intros Hstep evs. induction evs as [|ev evs IH]; intros e He; [exact He|].
  apply IH, Hstep, He.
Qed.

Lemma createPlastron_heap (o : Options) (t1 t2 t3 : Z) (e : Engine) :
  createPlastron o t1 t2 t3 = Some e → heap e = [].
Proof.
  unfold createPlastron. destruct (String.eqb _ _); [done|]. now intros [= <-].
Qed.



(** The cap of a score never exceeds the larger base cap, or 1. *)
Lemma calculateMaxConnections_le (o : Options) (pts : Z) :
  ipSlowDownMaxPunishmentAt o ≤ ipSlowDownStartsAt o →
  calculateMaxConnections pts o ≤ connectionBound o.
Proof.
  intros Hrange. unfold calculateMaxConnections, connectionBound.
  set (base := if pts >=? 0 then _ else _).
  assert (Hbase : base ≤ Z.max (maxSimultanousConnectionsPerIP o)
                               (maxSimultanousConnectionsNegativePerIP o)).
  { subst base. destruct (pts >=? 0); lia. }
  destruct (pts >=? ipSlowDownStartsAt o); [lia|].
  apply Z.max_lub; [lia|].
  assert (Hratio : (0 <= slowdownRatio pts o)%Q ∧ (slowdownRatio pts o <= 1)%Q).
  { destruct (Z.eq_dec (ipSlowDownMaxPunishmentAt o) (ipSlowDownStartsAt o))
      as [E|E].
    - unfold slowdownRatio. rewrite E, Z.sub_diag. simpl. split; discriminate.
    - apply slowdownRatio_bounds. lia. }
  destruct Hratio as [H0 H1].
  destruct (Z.le_gt_cases 0 base) as [Hb|Hb].
  - apply Z.le_trans with base; [|lia].
    rewrite <- (Qfloor_Z base) at 2. apply Qfloor_resp_le.
    rewrite <- (Qmult_1_r (inject_Z base)) at 2.
    apply scale_le; [|lra].
    change 0%Q with (inject_Z 0). now rewrite <- Zle_Qle.
  - apply Z.le_trans with 0; [|lia].
    change 0 with (Qfloor (inject_Z 0)). apply Qfloor_resp_le.
    assert (Hneg : (inject_Z base <= 0)%Q).
    { change 0%Q with (inject_Z 0). rewrite <- Zle_Qle. lia. }
    change (inject_Z 0) with 0%Q. nra.
Qed.

(** X17.  With [ipSlowDownMaxPunishmentAt] not above [ipSlowDownStartsAt],
    no record ever holds more open connections than the larger of the two
    base caps (or 1, the floor of the cap), whatever the requests, responses
    and score adjustments. *)
Theorem connections_kept (o : Options) (t1 t2 t3 : Z) (e0 : Engine)
    (evs : list Event) :
  ipSlowDownMaxPunishmentAt o ≤ ipSlowDownStartsAt o →
  createPlastron o t1 t2 t3 = Some e0 →
  Forall (withinConnections o) (heap (run o e0 evs)).
Proof.
  intros Hrange Hcreate. apply run_records.
  - apply step_records.
    + intros a i nowMs. unfold withinConnections, connectionBound. simpl. lia.
    + intros nowMs d. unfold withinConnections.
      now destruct (touch_frame nowMs d) as [_ ->].
    + intros statusCode d. unfold withinConnections, connectionBound, score.
      simpl. lia.
    + intros pts d H. exact H.
    + intros d Hd _ Hconn. unfold withinConnections in *. simpl.
      pose proof (calculateMaxConnections_le o (points d) Hrange). lia.
  - rewrite (createPlastron_heap o t1 t2 t3 e0 Hcreate). constructor.
Qed.

(** The forty unanswered requests of [fortyArrivals] leave no more than the
    default cap of 25 connections open. *)
Lemma connections_kept_witness :
  Forall (withinConnections (defaultOptions "busy"))
         (heap (run (defaultOptions "busy") freshEngine fortyArrivals)).
Proof.
  apply (connections_kept (defaultOptions "busy") 1000000 1000000 1000000
           freshEngine fortyArrivals).
  - simpl. lia.
  - reflexivity.
Defined.

(** ** The report for happy-server *)

Lemma tally_snoc (l : list (string * IpData)) (x : string * IpData) :
  tally (l ++ [x]) = tallyEntry (tally l) x.
Proof. unfold tally. now rewrite foldl_app. Qed.

(** What the loop has found after the entries [l]. *)
Lemma tally_spec (l : list (string * IpData)) :
  (positiveIps (tally l) + negativeIps (tally l))%nat = length l
  ∧ (negativeIps (tally l) = 0%nat ↔ worstIp (tally l) = None)
  ∧ (worstIp (tally l) = None → ∀ a d, (a, d) ∈ l → 0 ≤ points d)
  ∧ (∀ w, worstIp (tally l) = Some w →
       worst_score w < 0
       ∧ (∃ d, (worst_ip w, d) ∈ l ∧ points d = worst_score w)
       ∧ ∀ a d, (a, d) ∈ l → worst_score w ≤ points d).
Proof.
  induction l as [|[a d] l (Hlen & Hnone & Hpos & Hworst)] using rev_ind.
  - cbn. split; [reflexivity|]. split; [done|]. split.
    + intros _ a d Hin. now apply elem_of_nil in Hin.
    + intros w Hw. discriminate.
  - rewrite tally_snoc, length_app. cbn [length tallyEntry].
    destruct (Z.geb_spec (points d) 0) as [Hd|Hd]; cbn [positiveIps negativeIps worstIp].
    + split; [lia|]. split; [exact Hnone|]. split.
      * intros Hn b d' Hin. apply elem_of_app in Hin as [Hin|Hin].
        -- now apply (Hpos Hn b).
        -- apply list_elem_of_singleton in Hin as [= -> ->]. exact Hd.
      * intros w Hw. destruct (Hworst w Hw) as (Hneg & (d' & Hin & Hsc) & Hmin).
        split; [exact Hneg|]. split.
        -- exists d'. split; [|exact Hsc]. apply elem_of_app. now left.
        -- intros b d'' Hin'. apply elem_of_app in Hin' as [Hin'|Hin'].
           ++ now apply (Hmin b).
           ++ apply list_elem_of_singleton in Hin' as [= -> ->]. lia.
    + split; [lia|]. split.
      { split; [lia|]. now destruct (worstIp (tally l)) as [w|];
          [destruct (_ <? _)|]. }
      split.
      { now destruct (worstIp (tally l)) as [w|]; [destruct (_ <? _)|]. }
      intros w' Hw'.
      destruct (worstIp (tally l)) as [w|] eqn:Hw.
      * destruct (Hworst w eq_refl) as (Hneg & (d' & Hin & Hsc) & Hmin).
        destruct (Z.ltb_spec (points d) (worst_score w)) as [Hlt|Hge];
          injection Hw' as <-; cbn [worst_ip worst_score].
        -- split; [exact Hd|]. split.
           ++ exists d. split; [|reflexivity]. apply elem_of_app. right.
              now apply list_elem_of_singleton.
           ++ intros b d'' Hin'. apply elem_of_app in Hin' as [Hin'|Hin'].
              ** specialize (Hmin b d'' Hin'). lia.
              ** apply list_elem_of_singleton in Hin' as [= -> ->]. lia.
        -- split; [exact Hneg|]. split.
           ++ exists d'. split; [|exact Hsc]. apply elem_of_app. now left.
           ++ intros b d'' Hin'. apply elem_of_app in Hin' as [Hin'|Hin'].
              ** now apply (Hmin b).
              ** apply list_elem_of_singleton in Hin' as [= -> ->]. exact Hge.
      * injection Hw' as <-; cbn [worst_ip worst_score].
        split; [exact Hd|]. split.
        -- exists d. split; [|reflexivity]. apply elem_of_app. right.
           now apply list_elem_of_singleton.
        -- intros b d'' Hin'. apply elem_of_app in Hin' as [Hin'|Hin'].
           ++ specialize (Hpos eq_refl b d'' Hin'). lia.
           ++ apply list_elem_of_singleton in Hin' as [= -> ->]. lia.
Qed.

(** The entries of an engine whose references all resolve. *)
Lemma entries_spec (e : Engine) (order : list string) :
  referenced e →
  (∀ a, a ∈ order → is_Some (ipData e !! a)) →
  length (entries e order) = length order
  ∧ ∀ a d, (a, d) ∈ entries e order ↔ a ∈ order ∧ getIpData e a = Some d.
Proof.
  intros Href Hin. split.
  - unfold entries. induction order as [|a order IH]; [done|].
    assert (Ha : is_Some (getIpData e a)).
    { destruct (Hin a) as [h Hh]; [left|]. unfold getIpData. rewrite Hh.
      simpl. apply lookup_lt_is_Some, (Href a h Hh). }
    destruct Ha as [d Hd]. cbn [omap list_omap]. rewrite Hd. simpl. f_equal.
    apply IH. intros b Hb. apply Hin. now right.
  - intros a d. unfold entries. rewrite list_elem_of_omap. split.
    + intros (b & Hb & Heq). destruct (getIpData e b) as [d'|] eqn:Hd; [|done].
      injection Heq as -> ->. done.
    + intros [Ha Hd]. exists a. split; [exact Ha|]. now rewrite Hd.
Qed.

Lemma enumerates_length (e : Engine) (order : list string) :
  enumerates e order → length order = size (ipData e).
Proof.
  intros [Hnodup Hin].
  rewrite <- (length_map_to_list (ipData e)),
    <- (length_fmap fst (map_to_list (ipData e))).
  apply Permutation_length, NoDup_Permutation.
  - exact Hnodup.
  - apply NoDup_fst_map_to_list.
  - intros a. rewrite Hin, list_elem_of_fmap. split.
    + intros [h Hh]. exists (a, h). split; [done|].
      now apply elem_of_map_to_list.
    + intros ([b h] & -> & Hbh). apply elem_of_map_to_list in Hbh. now exists h.
Qed.

(** X18.  On an engine reached from its creation by any events, the report
    for happy-server splits the tracked addresses into those of a score of
    at least 0 and those below 0; it names a worst address exactly when some
    tracked score is negative, and that address is tracked, its reported
    score is its current negative score, and no tracked address has a lower
    one. *)
Theorem happy_report (o : Options) (t1 t2 t3 : Z) (e0 : Engine)
    (evs : list Event) (order : list string) (nowMs : Z) :
  createPlastron o t1 t2 t3 = Some e0 →
  let e := run o e0 evs in
  enumerates e order →
  let rep := happyServerReport e order nowMs in
  report_totalMonitoredIps rep = (positiveScoreIps rep + negativeScoreIps rep)%nat
  ∧ (report_worstIp rep = None ↔ negativeScoreIps rep = 0%nat)
  ∧ (report_worstIp rep = None ↔
     ∀ a d, getIpData e a = Some d → 0 ≤ points d)
  ∧ (∀ w, report_worstIp rep = Some w →
       worst_score w < 0
       ∧ (∃ d, getIpData e (worst_ip w) = Some d ∧ points d = worst_score w)
       ∧ ∀ a d, getIpData e a = Some d → worst_score w ≤ points d).
Proof.
  intros Hcreate e Henum rep.
  assert (Href : referenced e).
  { apply run_referenced, (createPlastron_referenced o t1 t2 t3), Hcreate. }
  destruct (entries_spec e order Href) as [Hlen Hentries].
  { intros a Ha. now apply (proj2 Henum). }
  assert (Htracked : ∀ a d, getIpData e a = Some d → (a, d) ∈ entries e order).
  { intros a d Hd. apply Hentries. split; [|exact Hd].
    apply (proj2 Henum). unfold getIpData in Hd.
    destruct (ipData e !! a); [done|discriminate]. }
  destruct (tally_spec (entries e order)) as (Hsum & Hnone & Hpos & Hworst).
  subst rep. unfold happyServerReport.
  cbn [report_totalMonitoredIps positiveScoreIps negativeScoreIps report_worstIp].
  split; [|split; [|split]].
  - rewrite Hsum, Hlen. symmetry. now apply enumerates_length.
  - symmetry. exact Hnone.
  - split.
    + intros Hn a d Hd. apply (Hpos Hn a), Htracked, Hd.
    + intros Hall. destruct (worstIp (tally (entries e order))) as [w|] eqn:Hw;
        [|reflexivity].
      destruct (Hworst w eq_refl) as (Hneg & (d & Hin & Hsc) & _).
      apply Hentries in Hin as [_ Hd]. specialize (Hall _ _ Hd). lia.
  - intros w Hw. destruct (Hworst w Hw) as (Hneg & (d & Hin & Hsc) & Hmin).
    split; [exact Hneg|]. split.
    + exists d. split; [|exact Hsc]. now apply Hentries in Hin as [_ Hd].
    + intros a d' Hd'. apply (Hmin a), Htracked, Hd'.
Qed.

(** After [someTraffic] the two addresses are tracked, both with a negative
    score: 192.168.1.2, at -700, is the worst. *)
Lemma happy_report_witness :
  let rep := happyServerReport (run (defaultOptions "busy") freshEngine someTraffic)
               ["192.168.1.1"; "192.168.1.2"] 1070000 in
  report_totalMonitoredIps rep
  = (positiveScoreIps rep + negativeScoreIps rep)%nat
  ∧ ∀ w, report_worstIp rep = Some w → worst_score w < 0.
Proof.
  destruct (happy_report (defaultOptions "busy") 1000000 1000000 1000000
              freshEngine someTraffic ["192.168.1.1"; "192.168.1.2"] 1070000)
    as (Hsum & _ & _ & Hworst).
  - reflexivity.
  - assert (E : ipData (run (defaultOptions "busy") freshEngine someTraffic)
                = {[ "192.168.1.1" := 0%nat; "192.168.1.2" := 1%nat ]}).
    { vm_compute. reflexivity. }
    split.
    + apply NoDup_cons. split; [|apply NoDup_singleton].
      intros Hin. now apply list_elem_of_singleton in Hin.
    + intros a. rewrite E, !elem_of_cons, elem_of_nil. split.
      * intros [->|[->|[]]]; vm_compute; eauto.
      * intros [h Hh]. apply lookup_insert_Some in Hh as [[<- _]|[_ Hh]];
          [now left|].
        apply lookup_singleton_Some in Hh as [<- _]. right. now left.
  - split; [exact Hsum|]. intros w Hw. exact (proj1 (Hworst w Hw)).
Defined.

(** ** The global limit for negative addresses *)






(** ** Every request is counted once *)

Lemma updateGlobalStats_account (m n : Z) (g : GlobalStats) (nowMs : Z) :
  boundary 60000 nowMs = m →
  minuteAccount m n g → minuteAccount m n (updateGlobalStats g nowMs).
Proof.
  intros Hnow (Hm & Hp & Hr & Hn).
  assert (Hsec : ∀ f : GlobalStats → Z,
            (f = currentMinStartMs ∨ f = gReqInPrevMin
             ∨ f = rateLimited429InPrevMin ∨ f = gReqInCurrentMin
             ∨ f = rateLimited429InCurrentMin) →
            f (updateGlobalSec g nowMs) = f g).
  { intros f Hf. unfold updateGlobalSec.
    destruct (negb _); [|reflexivity].
    destruct Hf as [->|[->|[->|[->| ->]]]]; reflexivity. }
  unfold updateGlobalStats, updateGlobalMin.
  rewrite (Hsec currentMinStartMs) by tauto. rewrite Hnow, Hm, Z.eqb_refl.
  cbn [negb]. unfold minuteAccount.
  rewrite (Hsec currentMinStartMs), (Hsec gReqInPrevMin),
    (Hsec rateLimited429InPrevMin), (Hsec gReqInCurrentMin),
    (Hsec rateLimited429InCurrentMin) by tauto.
  done.
Qed.

Lemma step_account (o : Options) (m n : Z) (e : Engine) (ev : Event) :
  inMinute m ev →
  minuteAccount m n (globalStats e) →
  minuteAccount m (n + arrivals [ev]) (globalStats (step o e ev)).
Proof.
  intros Hev Hg. destruct ev as [nowMs req rnd|h statusCode|ipOrReq pts];
    cbn [arrivals step inMinute] in *.
  - destruct (middleware_globalStats o e nowMs req rnd) as [negative ->].
    apply (updateGlobalStats_account m n _ nowMs Hev) in Hg.
    destruct Hg as (Hm & Hp & Hr & Hn). unfold minuteAccount.
    destruct (accepted _); simpl; repeat split; (done || lia).
  - rewrite Z.add_0_r. exact Hg.
  - rewrite Z.add_0_r. unfold addPointsToIp. now destruct (ipData e !! _).
Qed.

Lemma arrivals_cons (ev : Event) (evs : list Event) :
  arrivals (ev :: evs) = arrivals [ev] + arrivals evs.
Proof. destruct ev; simpl; lia. Qed.

Lemma run_account (o : Options) (m : Z) (evs : list Event) (n : Z) (e : Engine) :
  Forall (inMinute m) evs →
  minuteAccount m n (globalStats e) →
  minuteAccount m (n + arrivals evs) (globalStats (run o e evs)).
Proof.
  revert n e. induction evs as [|ev evs IH]; intros n e Hevs Hg.
  - simpl. now rewrite Z.add_0_r.
  - apply Forall_cons in Hevs as [Hev Hevs].
    rewrite arrivals_cons, Z.add_assoc. apply IH; [exact Hevs|].
    now apply step_account.
Qed.

(** X20.  While the requests arrive in the minute window in which the engine
    was created, every request is counted exactly once: the requests the
    report for happy-server gives as served in the last minute and those it
    gives as answered with 429 add up to the number of requests made. *)
Theorem requests_counted_once (o : Options) (t1 t2 t3 : Z) (e0 : Engine)
    (evs : list Event) (order : list string) (nowMs : Z) :
  createPlastron o t1 t2 t3 = Some e0 →
  Forall (inMinute (boundary 60000 t3)) evs →
  let rep := happyServerReport (run o e0 evs) order nowMs in
  totalRequestsLastMinute rep + rateLimited429LastMinute rep = arrivals evs.
Proof.
  intros Hcreate Hevs rep.
  assert (H0 : minuteAccount (boundary 60000 t3) 0 (globalStats e0)).
  { unfold createPlastron in Hcreate. destruct (String.eqb _ _); [done|].
    injection Hcreate as <-. unfold minuteAccount. simpl. done. }
  destruct (run_account o _ evs 0 e0 Hevs H0) as (_ & Hp & Hr & Hn).
  subst rep. unfold happyServerReport.
  cbn [totalRequestsLastMinute rateLimited429LastMinute]. lia.
Qed.

(** Of the forty requests of [fortyArrivals], 25 are served and 15 are
    answered with 429. *)
Lemma requests_counted_once_witness :
  let rep := happyServerReport
               (run (defaultOptions "busy") freshEngine fortyArrivals)
               ["192.168.1.1"] 1000000 in
  totalRequestsLastMinute rep + rateLimited429LastMinute rep = 40.
Proof.
  apply (requests_counted_once (defaultOptions "busy") 1000000 1000000 1000000
           freshEngine fortyArrivals ["192.168.1.1"] 1000000).
  - reflexivity.
  - apply Forall_replicate. reflexivity.
Defined.

(** ** Addresses do not interfere *)

Lemma run_consistent (o : Options) (evs : list Event) (e : Engine) :
  consistent e → consistent (run o e evs).
Proof.
  revert e. induction evs as [|ev evs IH]; intros e He; [exact He|].
  apply IH, step_consistent, He.
Qed.

Lemma createPlastron_consistent (o : Options) (t1 t2 t3 : Z) (e : Engine) :
  createPlastron o t1 t2 t3 = Some e → consistent e.
Proof.
  unfold createPlastron. destruct (String.eqb _ _); [done|].
  intros [= <-]. split; simpl.
  - intros a h Hh. by rewrite lookup_empty in Hh.
  - intros i a [Hi _]%lookup_replicate. discriminate.
Qed.

(** Two addresses never share a record. *)
Lemma consistent_handles (e : Engine) (a b : string) (h : nat) :
  consistent e → ipData e !! a = Some h → ipData e !! b = Some h → a = b.
Proof.
  intros [Hrec _] Ha Hb.
  destruct (Hrec a h Ha) as (_ & d & Hd & Hip & _).
  destruct (Hrec b h Hb) as (_ & d' & Hd' & Hip' & _).
  congruence.
Qed.

(** Writing into the record [h] is not seen through another reference. *)
Lemma getIpData_alter (e e' : Engine) (f : IpData → IpData) (h : nat)
    (b : string) :
  ipData e' = ipData e → heap e' = alter f h (heap e) →
  ipData e !! b ≠ Some h →
  getIpData e' b = getIpData e b.
Proof.
  intros Hmap Hheap Hb. unfold getIpData. rewrite Hmap, Hheap.
  destruct (ipData e !! b) as [hb|]; [|reflexivity]. simpl.
  apply list_lookup_alter_ne. congruence.
Qed.

(** X21.  On an engine reached from its creation by any events, nothing
    done for one address changes the record found for another address [b]:
    not a request of another address, unless that address is new and takes
    the slot of [b], after which [b] has no record; not the completion of a
    request admitted with another record; not a score adjustment of another
    address. *)
Theorem addresses_isolated (o : Options) (t1 t2 t3 : Z) (e0 : Engine)
    (evs : list Event) (b : string) :
  createPlastron o t1 t2 t3 = Some e0 →
  let e := run o e0 evs in
  (∀ nowMs req rnd,
     b ≠ getClientIp req →
     getIpData (middleware o e nowMs req rnd).1 b = getIpData e b
     ∨ (ipData e !! getClientIp req = None
        ∧ arrayGet (monitoredIps e) (findEvictableIndex e nowMs rnd) = Some b
        ∧ getIpData (middleware o e nowMs req rnd).1 b = None))
  ∧ (∀ h statusCode,
       ipData e !! b ≠ Some h →
       getIpData (sendHook o e h statusCode) b = getIpData e b)
  ∧ (∀ ipOrReq pts,
       b ≠ addressOf ipOrReq →
       getIpData (addPointsToIp e ipOrReq pts).1 b = getIpData e b).
Proof.
  intros Hcreate e.
  assert (Hinv : consistent e).
  { apply run_consistent, (createPlastron_consistent o t1 t2 t3), Hcreate. }
  clearbody e. clear Hcreate. split; [|split].
  - intros nowMs req rnd Hb.
    destruct (ipData e !! getClientIp req) as [h|] eqn:Hh.
    + left. rewrite (middleware_known o e nowMs req rnd h Hh).
      set (e2 := with_heap _ _).
      assert (Hbh : ipData e !! b ≠ Some h).
      { intros Hbh. apply Hb. exact (consistent_handles e b _ h Hinv Hbh Hh). }
      destruct (admission_table o e2 h nowMs) as [_ Hmap].
      pose proof (admission_heap o e2 h nowMs) as Hheap.
      transitivity (getIpData e2 b).
      * destruct (accepted _).
        -- now apply (getIpData_alter e2 _ countEntry h).
        -- unfold getIpData. now rewrite Hmap, Hheap.
      * now apply (getIpData_alter e e2 (touch nowMs) h).
    + unfold middleware, getOrCreate. cbn [ipData with_globalStats].
      rewrite Hh. cbn [addIpToMonitoring].
      rewrite findEvictableIndex_stats.
      cbn [monitoredIps ipData heap with_globalStats].
      set (i := findEvictableIndex e nowMs rnd).
      set (e2 := with_heap _ _).
      destruct (admission_table o e2 (length (heap e)) nowMs) as [_ Hmap].
      pose proof (admission_heap o e2 (length (heap e)) nowMs) as Hheap.
      assert (Hkeep : ∀ hb, ipData e !! b = Some hb →
                heap (admission o e2 (length (heap e)) nowMs).1 !! hb
                = heap e !! hb).
      { intros hb Hhb.
        assert (Hlt : (hb < length (heap e))%nat).
        { destruct Hinv as [Hrec _].
          destruct (Hrec b hb Hhb) as (_ & d & Hd & _).
          now apply lookup_lt_Some in Hd. }
        rewrite Hheap.
        assert (Htouch : heap e2 !! hb = heap e !! hb).
        { subst e2. cbn [heap with_heap].
          rewrite list_lookup_alter_ne by lia. now apply lookup_app_l. }
        destruct (accepted _); [|exact Htouch].
        rewrite list_lookup_alter_ne by lia. exact Htouch. }
      assert (Hin : ∀ m : gmap string nat, m !! b = ipData e !! b →
                ipData e2 = <[getClientIp req := length (heap e)]> m →
                getIpData (admission o e2 (length (heap e)) nowMs).1 b
                = getIpData e b).
      { intros m Hm He2. unfold getIpData.
        rewrite Hmap, He2, lookup_insert_ne by congruence. rewrite Hm.
        destruct (ipData e !! b) as [hb|] eqn:Hhb; [|reflexivity].
        simpl. now apply Hkeep. }
      destruct (arrayGet (monitoredIps e) i) as [old|] eqn:Hold.
      * destruct (truthy (Some old)) eqn:Htruthy.
        -- destruct (decide (old = b)) as [->|Hne].
           ++ right. split; [reflexivity|]. split; [reflexivity|].
              unfold getIpData. rewrite Hmap. subst e2.
              cbn [ipData with_heap].
              rewrite lookup_insert_ne by congruence.
              now rewrite lookup_delete_eq.
           ++ left. apply (Hin (delete old (ipData e)));
                [now apply lookup_delete_ne|reflexivity].
        -- left. now apply (Hin (ipData e)).
      * left. now apply (Hin (ipData e)).
  - intros h statusCode Hb.
    now apply (getIpData_alter e _ (score o statusCode) h).
  - intros ipOrReq pts Hb. unfold addPointsToIp.
    destruct (ipData e !! addressOf ipOrReq) as [h|] eqn:Hh; [|reflexivity].
    apply (getIpData_alter e _ (λ data, set_points (points data + pts) data) h);
      [reflexivity..|].
    intros Hbh. apply Hb. exact (consistent_handles e b _ h Hinv Hbh Hh).
Qed.

(** After [someTraffic], a request of 192.168.1.1 leaves the record of
    192.168.1.2 as it is. *)
Lemma addresses_isolated_witness :
  getIpData (middleware (defaultOptions "busy")
               (run (defaultOptions "busy") freshEngine someTraffic) 1080000
               (requestFrom "192.168.1.1") zeroDraws).1 "192.168.1.2"
  = getIpData (run (defaultOptions "busy") freshEngine someTraffic)
              "192.168.1.2".
Proof.
  destruct (addresses_isolated (defaultOptions "busy") 1000000 1000000 1000000
              freshEngine someTraffic "192.168.1.2" eq_refl) as (Hreq & _ & _).
  destruct (Hreq 1080000 (requestFrom "192.168.1.1") zeroDraws) as [Hsame|Hev].
  - discriminate.
  - exact Hsame.
  - destruct Hev as (Hnone & _). vm_compute in Hnone. discriminate.
Defined.

(** ** Timestamps under a clock that does not run backwards *)

Lemma updateGlobalStats_stamps (last nowMs : Z) (g : GlobalStats) :
  last ≤ nowMs → stampsOrdered last g →
  stampsOrdered nowMs (updateGlobalStats g nowMs).
Proof.
  unfold stampsOrdered, updateGlobalStats, updateGlobalMin, updateGlobalSec.
  intros Hnow Hg. repeat destruct (negb _); simpl; lia.
Qed.

Lemma step_stamps (o : Options) (last : Z) (e : Engine) (ev : Event) :
  clockOrdered last [ev] →
  stampsOrdered last (globalStats e) →
  stampsOrdered (lastClock last [ev]) (globalStats (step o e ev)).
Proof.
  intros Hev Hg. destruct ev as [nowMs req rnd|h statusCode|ipOrReq pts];
    cbn [lastClock step clockOrdered] in *.
  - destruct (middleware_globalStats o e nowMs req rnd) as [negative ->].
    apply (updateGlobalStats_stamps last nowMs) in Hg; [|tauto].
    unfold stampsOrdered in *. now destruct (accepted _).
  - exact Hg.
  - unfold addPointsToIp. now destruct (ipData e !! _).
Qed.

Lemma run_stamps (o : Options) (evs : list Event) (last : Z) (e : Engine) :
  clockOrdered last evs →
  stampsOrdered last (globalStats e) →
  stampsOrdered (lastClock last evs) (globalStats (run o e evs)).
Proof.
  revert last e. induction evs as [|ev evs IH]; intros last e Hevs Hg;
    [exact Hg|].
  assert (Hev : clockOrdered last [ev]
                ∧ clockOrdered (lastClock last [ev]) evs).
  { destruct ev; cbn in *; tauto. }
  destruct Hev as [Hev Hrest].
  change (run o e (ev :: evs)) with (run o (step o e ev) evs).
  replace (lastClock last (ev :: evs)) with (lastClock (lastClock last [ev]) evs)
    by now destruct ev.
  apply IH; [exact Hrest|]. now apply step_stamps.
Qed.

(** X22.  When the clock never runs backwards - the three readings of
    [createPlastron] and then one per request - the timestamps of the global
    counters stay in order: [prevSecStartMs <= currentSecStartMs], and
    neither [currentSecStartMs] nor [currentMinStartMs] is later than the
    last reading, so that the time span of the global rate is never
    negative. *)
Theorem timestamps_ordered (o : Options) (t1 t2 t3 : Z) (e0 : Engine)
    (evs : list Event) :
  createPlastron o t1 t2 t3 = Some e0 →
  t1 ≤ t2 → t2 ≤ t3 →
  clockOrdered t3 evs →
  let g := globalStats (run o e0 evs) in
  prevSecStartMs g ≤ currentSecStartMs g
  ∧ currentSecStartMs g ≤ lastClock t3 evs
  ∧ currentMinStartMs g ≤ lastClock t3 evs
  ∧ ∀ nowMs, lastClock t3 evs ≤ nowMs →
      0 ≤ nowMs - prevSecStartMs (updateGlobalStats g nowMs).
Proof.
  intros Hcreate H12 H23 Hevs g.
  assert (H0 : stampsOrdered t3 (globalStats e0)).
  { unfold createPlastron in Hcreate. destruct (String.eqb _ _); [done|].
    injection Hcreate as <-. unfold stampsOrdered. simpl. lia. }
  pose proof (run_stamps o evs t3 e0 Hevs H0) as Hg. fold g in Hg.
  split; [apply Hg|]. split; [apply Hg|]. split; [apply Hg|].
  intros nowMs Hnow.
  apply (updateGlobalStats_stamps _ nowMs) in Hg; [|exact Hnow].
  unfold stampsOrdered in Hg. lia.
Qed.

(** The clock of [someTraffic] runs from 1000000 to 1070000. *)
Lemma timestamps_ordered_witness :
  prevSecStartMs (globalStats (run (defaultOptions "busy") freshEngine someTraffic))
  ≤ currentSecStartMs
      (globalStats (run (defaultOptions "busy") freshEngine someTraffic)).
Proof.
  destruct (timestamps_ordered (defaultOptions "busy") 1000000 1000000 1000000
              freshEngine someTraffic) as (Hord & _).
  - reflexivity.
  - lia.
  - lia.
  - simpl. lia.
  - exact Hord.
Defined.
